(** * afsutil.system: command runner, path finder, process inventory,
      kernel-module unloading and shared-library symlink farm.

    A shallow embedding of [libraries/afsutil/afsutil/system.py].  Python
    byte strings are [string]; Python integers are [Z]; functions that talk
    to the operating system run in a state-and-exception monad over an
    abstract world whose primitives are section variables; functions that
    only touch the file system run over a finite map from path names to
    nodes. *)

From Stdlib Require Import ZArith Ascii String List Lia.
From stdpp Require Import base option list strings gmap.

Local Open Scope Z_scope.
Local Open Scope string_scope.
Local Open Scope list_scope.

(** ** Exceptions *)

(** The fields of [CommandFailed.__init__]. *)
Record CommandFailed := mkCommandFailed {
  cf_cmd : string;
  cf_args : list string;
  cf_code : Z;
  cf_out : string;
  cf_err : string
}.

(** The exceptions raised by the code of the module itself, or by the
    indexing, look-up and file primitives it applies. *)
Inductive exn :=
| ExCommandFailed (cf : CommandFailed)
| AssertionError (msg : string)
| UnboundLocalError (name : string)
| IndexError
| ValueError
| KeyError (key : string)
| TypeError
| OSError (path : string).

(** ** Observable effects of the command runner *)

Inductive event :=
| EvSleep (wait : N)
| EvCleanup
| EvSpawn (cmd : string) (argv : list string).

Definition is_spawn (e : event) : bool :=
  match e with EvSpawn _ _ => true | _ => false end.
Definition is_sleep (e : event) : bool :=
  match e with EvSleep _ => true | _ => false end.
Definition is_cleanup (e : event) : bool :=
  match e with EvCleanup => true | _ => false end.

Definition count_events (p : event -> bool) (tr : list event) : nat :=
  length (List.filter p tr).

(** What [proc.communicate()] and [proc.returncode] give for one child. *)
Record completed := mkCompleted {
  returncode : Z;
  output : string;
  error : string
}.

(** ** Python byte-string and [os.path] operations used by the module *)

Module Py.

Definition slash : ascii := "/"%char.
Definition LF : ascii := "010"%char.
Definition CR : ascii := "013"%char.

(** [string.whitespace] for byte strings: space, [\t], [\n], [\v], [\f], [\r]. *)
Definition isspace (c : ascii) : bool :=
  let n := nat_of_ascii c in
  (n =? 32)%nat || ((9 <=? n)%nat && (n <=? 13)%nat).

Definition isdigit (c : ascii) : bool :=
  let n := nat_of_ascii c in (48 <=? n)%nat && (n <=? 57)%nat.

(** [c in s]. *)
Fixpoint contains (c : ascii) (s : string) : bool :=
  match s with
  | EmptyString => false
  | String a r => Ascii.eqb a c || contains c r
  end.

(** [s[n:]] for [n >= 0]. *)
Fixpoint drop (n : nat) (s : string) : string :=
  match n, s with
  | O, _ => s
  | S n', String _ r => drop n' r
  | S _, EmptyString => EmptyString
  end.

(** [s[:n]] for [n >= 0]. *)
Fixpoint take (n : nat) (s : string) : string :=
  match n, s with
  | S n', String c r => String c (take n' r)
  | _, _ => EmptyString
  end.

(** [s.lstrip(c)], [s.rstrip(c)] and [s.strip(c)] for a single character. *)
Fixpoint lstrip (c : ascii) (s : string) : string :=
  match s with
  | String a r => if Ascii.eqb a c then lstrip c r else s
  | EmptyString => EmptyString
  end.

Fixpoint rstrip (c : ascii) (s : string) : string :=
  match s with
  | EmptyString => EmptyString
  | String a r =>
      match rstrip c r with
      | EmptyString => if Ascii.eqb a c then EmptyString else String a EmptyString
      | r' => String a r'
      end
  end.

Definition strip (c : ascii) (s : string) : string := rstrip c (lstrip c s).

(** [s.split(sep)] for a single-character separator. *)
Fixpoint split (sep : ascii) (s : string) : list string :=
  match s with
  | EmptyString => [EmptyString]
  | String a r =>
      if Ascii.eqb a sep then EmptyString :: split sep r
      else match split sep r with
           | h :: t => String a h :: t
           | [] => [String a EmptyString]
           end
  end.

(** [s.split()]: the maximal runs of non-whitespace characters. *)
Fixpoint split_ws (s : string) : list string :=
  match s with
  | EmptyString => []
  | String a r =>
      if isspace a then split_ws r
      else match r with
           | EmptyString => [String a EmptyString]
           | String b _ =>
               if isspace b then String a EmptyString :: split_ws r
               else match split_ws r with
                    | h :: t => String a h :: t
                    | [] => [String a EmptyString]
                    end
           end
  end.

(** [s.splitlines()] of a byte string: a line ends at [\n], [\r] or [\r\n];
    [after_cr] says that the previous character was a [\r] that ended a
    line, so that a [\n] right after it belongs to the same line end. *)
Fixpoint splitlines_from (after_cr : bool) (s : string) : list string :=
  match s with
  | EmptyString => []
  | String a r =>
      if Ascii.eqb a LF then
        if after_cr then splitlines_from false r
        else EmptyString :: splitlines_from false r
      else if Ascii.eqb a CR then EmptyString :: splitlines_from true r
      else match r with
           | EmptyString => [String a EmptyString]
           | _ =>
               match splitlines_from false r with
               | h :: t => String a h :: t
               | [] => [String a EmptyString]
               end
           end
  end.

Definition splitlines (s : string) : list string := splitlines_from false s.

(** [s.find(sub)]: the lowest index where [sub] starts, if any. *)
Fixpoint find (sub s : string) : option nat :=
  if String.prefix sub s then Some O
  else match s with
       | EmptyString => None
       | String _ r => option_map S (find sub r)
       end.

(** [sep.join(parts)]. *)
Fixpoint join (sep : string) (parts : list string) : string :=
  match parts with
  | [] => EmptyString
  | [x] => x
  | x :: rest => x +:+ sep +:+ join sep rest
  end.

(** The two slices [p[:i]], [p[i:]] at [i = p.rfind('/') + 1]. *)
Fixpoint rpartition_slash (p : string) : string * string :=
  match p with
  | EmptyString => (EmptyString, EmptyString)
  | String a r =>
      let '(h, t) := rpartition_slash r in
      match h with
      | EmptyString =>
          if Ascii.eqb a slash then (String a EmptyString, r)
          else (EmptyString, String a t)
      | _ => (String a h, t)
      end
  end.

Fixpoint all_slashes (s : string) : bool :=
  match s with
  | EmptyString => true
  | String a r => Ascii.eqb a slash && all_slashes r
  end.

(** [posixpath.split]. *)
Definition os_path_split (p : string) : string * string :=
  let '(head, tail) := rpartition_slash p in
  let head :=
    if negb (String.eqb head EmptyString) && negb (all_slashes head)
    then rstrip slash head else head in
  (head, tail).

Definition os_path_dirname (p : string) : string := fst (os_path_split p).

(** [posixpath.basename]: [p[p.rfind('/') + 1:]]. *)
Definition os_path_basename (p : string) : string := snd (rpartition_slash p).

(** [posixpath.join(a, b)]. *)
Definition os_path_join (a b : string) : string :=
  if String.prefix "/" b then b
  else if String.eqb a EmptyString then b
  else if String.eqb (drop (String.length a - 1) a) "/" then a +:+ b
  else a +:+ "/" +:+ b.

End Py.

(** ** The fragment of Python's [re] used by the module

    A backtracking matcher: alternatives are tried left to right, a star
    is greedy and gives characters back one at a time, and the first way
    to match the whole pattern wins. *)

Module Re.

Inductive regex :=
| Eps
| Cls (p : ascii -> bool)
| Cat (a b : regex)
| Alt (a b : regex)
| Star (a : regex)
| Group (i : nat) (a : regex)
| Bol
| Eol.

Definition Plus (a : regex) : regex := Cat a (Star a).

Fixpoint Lit (s : string) : regex :=
  match s with
  | EmptyString => Eps
  | String c r => Cat (Cls (Ascii.eqb c)) (Lit r)
  end.

(** [.], [\s], [\S], [\d] without flags that change them. *)
Definition dot : regex := Cls (fun c => negb (Ascii.eqb c Py.LF)).
Definition space : regex := Cls Py.isspace.
Definition nonspace : regex := Cls (fun c => negb (Py.isspace c)).
Definition digit : regex := Cls Py.isdigit.

(** Where the matcher stands: the character just before (none at the start
    of the text) and the text still to read. *)
Record cursor := mkCursor { prev : option ascii; rest : string }.

Definition captures := list (nat * string).

Fixpoint group (i : nat) (caps : captures) : option string :=
  match caps with
  | [] => None
  | (j, s) :: t => if (i =? j)%nat then Some s else group i t
  end.

Definition at_bol (multiline : bool) (cur : cursor) : bool :=
  match prev cur with
  | None => true
  | Some c => multiline && Ascii.eqb c Py.LF
  end.

Definition at_eol (multiline : bool) (cur : cursor) : bool :=
  match rest cur with
  | EmptyString => true
  | String c EmptyString => Ascii.eqb c Py.LF
  | String c _ => multiline && Ascii.eqb c Py.LF
  end.

Section Matcher.

Context {R : Type}.
Variable multiline : bool.

Fixpoint run (r : regex) (cur : cursor) (caps : captures)
    (k : cursor -> captures -> option R) {struct r} : option R :=
  match r with
  | Eps => k cur caps
  | Cls p =>
      match rest cur with
      | String c s => if p c then k (mkCursor (Some c) s) caps else None
      | EmptyString => None
      end
  | Cat a b => run a cur caps (fun cur' caps' => run b cur' caps' k)
  | Alt a b =>
      match run a cur caps k with
      | Some x => Some x
      | None => run b cur caps k
      end
  | Star a =>
      (fix star (fuel : nat) (cur : cursor) (caps : captures) : option R :=
         match fuel with
         | O => k cur caps
         | S fuel' =>
             match run a cur caps
                     (fun cur' caps' =>
                        if (String.length (rest cur') <? String.length (rest cur))%nat
                        then star fuel' cur' caps' else None) with
             | Some x => Some x
             | None => k cur caps
             end
         end) (String.length (rest cur)) cur caps
  | Group i a =>
      run a cur caps
        (fun cur' caps' =>
           k cur' ((i, Py.take (String.length (rest cur) - String.length (rest cur'))
                          (rest cur)) :: caps'))
  | Bol => if at_bol multiline cur then k cur caps else None
  | Eol => if at_eol multiline cur then k cur caps else None
  end.

End Matcher.

(** One attempt to match [r] where [cur] stands: the groups and the
    cursor after the match. *)
Definition match_at (multiline : bool) (r : regex) (cur : cursor)
    : option (captures * cursor) :=
  run multiline r cur [] (fun cur' caps => Some (caps, cur')).

(** [re.match(r, s)] (no flags): the groups of a match at the start. *)
Definition re_match (r : regex) (s : string) : option captures :=
  option_map fst (match_at false r (mkCursor None s)).

(** [re.findall(r, s, flags)] for a pattern with one group: the text of
    group 1 of each match, scanning left to right; after a match the scan
    resumes where the match ended ([skip] counts the characters of the
    match still to pass over). *)
Fixpoint findall_from (multiline : bool) (r : regex) (before : option ascii)
    (s : string) (skip : nat) : list string :=
  match s with
  | EmptyString =>
      match skip, match_at multiline r (mkCursor before s) with
      | O, Some (caps, _) => default EmptyString (group 1 caps) :: []
      | _, _ => []
      end
  | String c s' =>
      match skip with
      | S n => findall_from multiline r (Some c) s' n
      | O =>
          match match_at multiline r (mkCursor before s) with
          | Some (caps, cur') =>
              default EmptyString (group 1 caps)
              :: findall_from multiline r (Some c) s'
                   (String.length s - String.length (rest cur') - 1)
          | None => findall_from multiline r (Some c) s' O
          end
      end
  end.

Definition findall (multiline : bool) (r : regex) (s : string) : list string :=
  findall_from multiline r None s O.

End Re.

(** Vocabulary for statements about the matcher: the character before
    the cursor once the text [a] has been read, texts made of characters of
    one class, and decimal numbers (one digit or more). *)
Fixpoint after (before : option ascii) (a : string) : option ascii :=
  match a with
  | EmptyString => before
  | String c a' => after (Some c) a'
  end.

Fixpoint all_chars (p : ascii -> bool) (a : string) : bool :=
  match a with
  | EmptyString => true
  | String c a' => p c && all_chars p a'
  end.

Definition not_LF (c : ascii) : bool := negb (Ascii.eqb c Py.LF).

Definition digit_or_dot (c : ascii) : bool := Py.isdigit c || Ascii.eqb c ".".

Definition is_number (s : string) : bool :=
  negb (String.eqb s EmptyString) && all_chars Py.isdigit s.

Definition starts_nondigit (w : string) : bool :=
  match w with
  | EmptyString => true
  | String c _ => negb (Py.isdigit c)
  end.

(** ** The state-and-exception monad

    A Python statement either completes or raises; what it did to the
    state before raising stays done. *)

Definition M (S A : Type) : Type := S -> (exn + A) * S.

Definition ret {S A} (a : A) : M S A := fun st => (inr a, st).
Definition raise {S A} (e : exn) : M S A := fun st => (inl e, st).
Definition bind {S A B} (c : M S A) (k : A -> M S B) : M S B :=
  fun st => match c st with
            | (inr a, st') => k a st'
            | (inl e, st') => (inl e, st')
            end.
Definition gets {S A} (f : S -> A) : M S A := fun st => (inr (f st), st).
Definition lift_result {S A} (r : exn + A) : M S A := fun st => (r, st).

Notation "'do' x <- c ; k" := (bind c (fun x => k))
  (at level 10, x name, c at level 100, k at level 200).
Notation "c >> k" := (bind c (fun _ => k))
  (at level 100, k at level 200, right associativity).

(** [for x in xs: body(x)]. *)
Fixpoint for_each {S A} (xs : list A) (body : A -> M S unit) : M S unit :=
  match xs with
  | [] => ret tt
  | x :: rest => body x >> for_each rest body
  end.

(** ** The command runner and the functions built on it *)

Section System.

Context {W : Type}.

(** [subprocess.Popen(args, executable=cmd, shell=False, ...)] followed by
    [communicate()]: the program is started and runs to completion in the
    current world; the result holds its exit code and all that it wrote. *)
Variable popen : string -> list string -> W -> completed * W.

(** [time.sleep(wait)]; [wait] is a number of seconds that is not
    negative. *)
Variable sleep : N -> W -> W.

Record St := mkSt { world : W; trace : list event }.

Local Abbreviation Run := (M St).

Definition emit (e : event) : Run unit :=
  fun st => (inr tt, mkSt (world st) (trace st ++ [e])).

Definition on_world (f : W -> W) : Run unit :=
  fun st => (inr tt, mkSt (f (world st)) (trace st)).

Definition do_sleep (wait : N) : Run unit :=
  emit (EvSleep wait) >> on_world (sleep wait).

Definition do_cleanup (c : W -> W) : Run unit :=
  emit EvCleanup >> on_world c.

Definition do_popen (cmd : string) (argv : list string) : Run completed :=
  emit (EvSpawn cmd argv) >>
  fun st => let '(r, w') := popen cmd argv (world st) in
            (inr r, mkSt w' (trace st)).

(** *** [run] *)

(** [xrange(0, stop)]. *)
Definition xrange0 (stop : Z) : list nat := seq 0 (Z.to_nat stop).

(** The body of [for attempt in xrange(0, retry + 1)] and the [raise] that
    follows the loop.  [last] holds the locals [rc], [output], [error]:
    they are unbound until an attempt has run.  [cleanup] is [None] or a
    procedure that acts on the world and returns. *)
Fixpoint run_attempts (cmd : string) (argv : list string) (wait : N)
    (cleanup : option (W -> W)) (attempts : list nat) (last : option completed)
    : Run string :=
  match attempts with
  | [] =>
      match last with
      | None => raise (UnboundLocalError "rc")
      | Some r =>
          raise (ExCommandFailed
                   (mkCommandFailed cmd argv (returncode r) (output r) (error r)))
      end
  | attempt :: rest =>
      (if (0 <? attempt)%nat then
         do_sleep wait >>
         match cleanup with
         | Some c => do_cleanup c
         | None => ret tt
         end
       else ret tt) >>
      do proc <- do_popen cmd argv ;
      if Z.eqb (returncode proc) 0 then ret (output proc)
      else run_attempts cmd argv wait cleanup rest (Some proc)
  end.

(** [run(cmd, args=None, quiet=False, retry=0, wait=1, cleanup=None)];
    [quiet] is not read by the function. *)
Definition run (cmd : string) (args : option (list string)) (quiet : bool)
    (retry : Z) (wait : N) (cleanup : option (W -> W)) : Run string :=
  let args := match args with None => [] | Some a => a end in
  let args := cmd :: args in
  run_attempts cmd args wait cleanup (xrange0 (retry + 1)) None.

(** [run(cmd, args=...)] with the defaults [retry=0, wait=1, cleanup=None]. *)
Definition run_default (cmd : string) (args : option (list string)) : Run string :=
  run cmd args false 0 1%N None.

(** *** Vocabulary for statements about one call of [run] *)

(** What precedes a retry: the sleep, then the clean-up when one is set. *)
Definition before_retry (wait : N) (cleanup : option (W -> W)) (w : W) : W :=
  let w := sleep wait w in
  match cleanup with
  | Some c => c w
  | None => w
  end.

(** The world in which attempt [i] (counted from 0) starts when every
    attempt before it has been made, and what that attempt gives. *)
Fixpoint attempt_world (cmd : string) (argv : list string) (wait : N)
    (cleanup : option (W -> W)) (w0 : W) (i : nat) : W :=
  match i with
  | O => w0
  | S j =>
      before_retry wait cleanup
        (popen cmd argv (attempt_world cmd argv wait cleanup w0 j)).2
  end.

Definition attempt (cmd : string) (argv : list string) (wait : N)
    (cleanup : option (W -> W)) (w0 : W) (i : nat) : completed * W :=
  popen cmd argv (attempt_world cmd argv wait cleanup w0 i).

(** The events of one retry and of a first attempt followed by [k] retries. *)
Definition retry_events (cmd : string) (argv : list string) (wait : N)
    (cleanup : option (W -> W)) : list event :=
  EvSleep wait ::
  match cleanup with
  | Some _ => [EvCleanup; EvSpawn cmd argv]
  | None => [EvSpawn cmd argv]
  end.

Definition attempts_events (cmd : string) (argv : list string) (wait : N)
    (cleanup : option (W -> W)) (k : nat) : list event :=
  EvSpawn cmd argv :: concat (repeat (retry_events cmd argv wait cleanup) k).

(** *** The world [which] reads *)

(** [os.path.isfile(path)], [os.access(path, os.X_OK)] and
    [os.environ.get(name)]. *)
Variable os_path_isfile : string -> W -> bool.
Variable os_access_X_OK : string -> W -> bool.
Variable os_environ : string -> W -> option string.

Definition dquote : ascii := "034"%char.

(** The loop [for path in paths] of [which]. *)
Fixpoint which_search (program : string) (paths : list string) (w : W)
    : option string :=
  match paths with
  | [] => None
  | path :: rest =>
      let path := Py.strip dquote path in
      let fpath := Py.os_path_join path program in
      if os_path_isfile fpath w && os_access_X_OK fpath w then Some fpath
      else which_search program rest w
  end.

(** [which(program, extra_paths=None, raise_errors=False)]; [None] is the
    Python result [None]. *)
Definition which (program : string) (extra_paths : option (list string))
    (raise_errors : bool) (w : W) : exn + option string :=
  let '(dirname, basename) := Py.os_path_split program in
  if negb (String.eqb dirname EmptyString) then
    if os_path_isfile program w && os_access_X_OK program w then inr (Some program)
    else if raise_errors then
      inl (AssertionError ("Program '" +:+ program +:+ "' is not an executable file."))
    else inr None
  else
    match os_environ "PATH" w with
    | None => inl (KeyError "PATH")
    | Some path_var =>
        let paths := Py.split ":" path_var in
        let paths :=
          match extra_paths with
          | Some (e :: es) => paths ++ e :: es
          | _ => paths
          end in
        match which_search program paths w with
        | Some fpath => inr (Some fpath)
        | None =>
            if raise_errors then
              inl (AssertionError ("Could not find '" +:+ program +:+ "' in paths "
                                     +:+ Py.join "," paths))
            else inr None
        end
    end.

(** Vocabulary for statements about [which]: an existing file that the
    user may execute, and the name tried for the entry [path] of the
    search list. *)
Definition executable (w : W) (f : string) : bool :=
  os_path_isfile f w && os_access_X_OK f w.

Definition candidate (program path : string) : string :=
  Py.os_path_join (Py.strip dquote path) program.

(** *** [get_running] and [is_running] *)

(** The loop [for line in lines[1:]] of [get_running]. *)
Fixpoint get_running_lines (column : nat) (lines : list string)
    (procs : gset string) : exn + gset string :=
  match lines with
  | [] => inr procs
  | line :: rest =>
      let cmd_line := Py.drop column line in
      match cmd_line with
      | EmptyString => inl IndexError
      | String c _ =>
          if Ascii.eqb c "["%char then get_running_lines column rest procs
          else
            match Py.split_ws cmd_line with
            | [] => inl IndexError
            | command :: _ =>
                get_running_lines column rest
                  ({[ Py.os_path_basename command ]} ∪ procs)
            end
      end
  end.

(** [get_running] from [lines = out.splitlines()] on: what it does with
    the text that [ps ax] printed. *)
Definition get_running_parse (out : string) : exn + gset string :=
  match Py.splitlines out with
  | [] => inl IndexError
  | header :: body =>
      match Py.find "COMMAND" header with
      | None => inl ValueError
      | Some column => get_running_lines column body ∅
      end
  end.

(** [get_running()].  When [which] gives [None], [run] raises a
    [TypeError] on its argument vector before any child is started. *)
Definition get_running : Run (gset string) :=
  do w <- gets world ;
  do ps <- lift_result (which "ps" None false w) ;
  match ps with
  | None => raise TypeError
  | Some ps =>
      do out <- run_default ps (Some ["ax"]) ;
      lift_result (get_running_parse out)
  end.

Definition is_running (program : string) : Run bool :=
  do procs <- get_running ;
  ret (bool_decide (program ∈ procs)).

(** Vocabulary for statements about the parse: a command field made of
    nothing but whitespace (the empty field included). *)
Fixpoint whitespace_only (s : string) : bool :=
  match s with
  | EmptyString => true
  | String c r => Py.isspace c && whitespace_only r
  end.

(** *** Unloading the kernel module *)

(** [r'^(libafs|openafs)\s'], used with [re.M]. *)
Definition lsmod_pattern : Re.regex :=
  Re.Cat Re.Bol
    (Re.Cat (Re.Group 1 (Re.Alt (Re.Lit "libafs") (Re.Lit "openafs"))) Re.space).

Definition _linux_unload_module : Run unit :=
  do output <- run_default "/sbin/lsmod" None ;
  let kmods := Re.findall true lsmod_pattern output in
  for_each kmods (fun kmod => do _ <- run_default "rmmod" (Some [kmod]) ; ret tt).

(** [r'\s*(\d+)\s+\S+\s+\S+\s+\S+\s+\d+\s+(\S+)']. *)
Definition modinfo_pattern : Re.regex :=
  let field := Re.Cat (Re.Plus Re.space) (Re.Plus Re.nonspace) in
  Re.Cat (Re.Star Re.space)
    (Re.Cat (Re.Group 1 (Re.Plus Re.digit))
       (Re.Cat field (Re.Cat field (Re.Cat field
          (Re.Cat (Re.Plus Re.space) (Re.Cat (Re.Plus Re.digit)
             (Re.Cat (Re.Plus Re.space) (Re.Group 2 (Re.Plus Re.nonspace))))))))).

(** [_solaris_is_loaded] returns the module id as the text matched by the
    pattern, or the integer [0]. *)
Inductive pyvalue :=
| PyStr (s : string)
| PyInt (z : Z).

(** [a != b]: a byte string and an integer are never equal. *)
Definition py_ne (a b : pyvalue) : bool :=
  match a, b with
  | PyStr x, PyStr y => negb (String.eqb x y)
  | PyInt x, PyInt y => negb (Z.eqb x y)
  | _, _ => true
  end.

(** The loop [for line in out.splitlines()[1:]] of [_solaris_is_loaded]
    and the [return 0] after it. *)
Fixpoint modinfo_lines (kmod : string) (lines : list string) : exn + pyvalue :=
  match lines with
  | [] => inr (PyInt 0)
  | line :: rest =>
      match Re.re_match modinfo_pattern line with
      | None => inl (AssertionError ("Unexpected modinfo output: " +:+ line))
      | Some m =>
          let mid := default EmptyString (Re.group 1 m) in
          let mname := default EmptyString (Re.group 2 m) in
          if String.eqb kmod mname then inr (PyStr mid)
          else modinfo_lines kmod rest
      end
  end.

Definition _solaris_is_loaded (kmod : string) : Run pyvalue :=
  do out <- run_default "/usr/sbin/modinfo" (Some ["-w"]) ;
  lift_result (modinfo_lines kmod (List.tl (Py.splitlines out))).

(** [_solaris_unload_module]; an integer in the argument vector would make
    [Popen] raise a [TypeError]. *)
Definition _solaris_unload_module : Run unit :=
  do module_id <- _solaris_is_loaded "afs" ;
  if py_ne module_id (PyInt 0) then
    match module_id with
    | PyStr mid => do _ <- run_default "modunload" (Some ["-i"; mid]) ; ret tt
    | PyInt _ => raise TypeError
    end
  else ret tt.

End System.

(** ** The file system seen by [symlink] and [_so_symlinks]

    A path name denotes at most one object.  Names are compared as
    written: no [.] or [..] is resolved and a name reaches its object
    without passing through a symbolic link in one of its directories.
    Permissions are not modelled, and the directory that is to hold a new
    link is taken to exist. *)

Inductive node :=
| File
| Dir
| Link (target : string)
| Special.

Abbreviation FS := (gmap string node).

Module Os.

(** The number of symbolic links the kernel follows for one look-up
    before it gives up with [ELOOP]. *)
Definition SYMLOOP_MAX : nat := 40.

(** Where the target [t] of the link at [p] leads: a relative target is
    taken from the directory that holds the link. *)
Definition link_dest (p t : string) : string :=
  Py.os_path_join (Py.os_path_dirname p) t.

(** Follows the links from [p]: the name and the object reached. *)
Fixpoint follow (fuel : nat) (fs : FS) (p : string) : option (string * node) :=
  match fs !! p with
  | None => None
  | Some (Link t) =>
      match fuel with
      | O => None
      | S fuel' => follow fuel' fs (link_dest p t)
      end
  | Some n => Some (p, n)
  end.

(** [os.stat(p)], as far as the kind of the object goes. *)
Definition stat (fs : FS) (p : string) : option node :=
  option_map snd (follow SYMLOOP_MAX fs p).

Definition realpath (fs : FS) (p : string) : option string :=
  option_map fst (follow SYMLOOP_MAX fs p).

Definition path_exists (fs : FS) (p : string) : bool :=
  match stat fs p with Some _ => true | None => false end.

Definition path_isfile (fs : FS) (p : string) : bool :=
  match stat fs p with Some File => true | _ => false end.

Definition path_isdir (fs : FS) (p : string) : bool :=
  match stat fs p with Some Dir => true | _ => false end.

(** [os.path.islink(p)] looks at [p] itself. *)
Definition path_islink (fs : FS) (p : string) : bool :=
  match fs !! p with Some (Link _) => true | _ => false end.

(** Whether the look-up of [p] passes through the name [d]. *)
Fixpoint passes_through (fuel : nat) (fs : FS) (p d : string) : bool :=
  String.eqb p d ||
  match fs !! p with
  | Some (Link t) =>
      match fuel with
      | O => false
      | S fuel' => passes_through fuel' fs (link_dest p t) d
      end
  | _ => false
  end.

Definition reaches (fs : FS) (p d : string) : bool :=
  passes_through SYMLOOP_MAX fs p d.

(** [os.remove(p)]: fails on a missing name and on a directory. *)
Definition remove (p : string) : M FS unit :=
  fun fs =>
    match fs !! p with
    | None | Some Dir => (inl (OSError p), fs)
    | Some _ => (inr tt, delete p fs)
    end.

(** [os.symlink(src, dst)]: fails when the name [dst] is taken. *)
Definition symlink (src dst : string) : M FS unit :=
  fun fs =>
    match fs !! dst with
    | Some _ => (inl (OSError dst), fs)
    | None => (inr tt, <[dst := Link src]> fs)
    end.

(** The name under which [k] is an entry of directory [d], if it is one. *)
Definition entry_name (d k : string) : option string :=
  let pre := Py.os_path_join d EmptyString in
  if String.prefix pre k then
    let n := Py.drop (String.length pre) k in
    if String.eqb n EmptyString || Py.contains Py.slash n then None else Some n
  else None.

(** [os.listdir(d)]; the order of the entries is that of the map. *)
Definition listdir (d : string) : M FS (list string) :=
  fun fs =>
    if path_isdir fs d then
      (inr (omap (fun kv => entry_name d kv.1) (map_to_list fs)), fs)
    else (inl (OSError d), fs).

End Os.

(** [symlink(src, dst)] *)
Definition symlink (src dst : string) : M FS unit :=
  do isfile_src <- gets (fun fs => Os.path_isfile fs src) ;
  if negb isfile_src then
    raise (AssertionError ("Failed to make symlink: src " +:+ src +:+ " not found"))
  else
    do exists_dst <- gets (fun fs => Os.path_exists fs dst) ;
    do islink_dst <- gets (fun fs => Os.path_islink fs dst) ;
    if exists_dst && negb islink_dst then
      raise (AssertionError ("Failed to make symlink: dst " +:+ dst +:+ " exists"))
    else
      (if islink_dst then Os.remove dst else ret tt) >>
      Os.symlink src dst.

(** [r'(.+\.so)\.(\d+)\.(\d+)\.(\d+)$'] *)
Definition so_pattern : Re.regex :=
  let number i := Re.Cat (Re.Lit ".") (Re.Group i (Re.Plus Re.digit)) in
  Re.Cat (Re.Group 1 (Re.Cat (Re.Plus Re.dot) (Re.Lit ".so")))
    (Re.Cat (number 2%nat) (Re.Cat (number 3%nat) (Re.Cat (number 4%nat) Re.Eol))).

(** [m.groups()] of a match of [so_pattern]. *)
Definition so_groups (fname : string) : option (string * string * string * string) :=
  match Re.re_match so_pattern fname with
  | None => None
  | Some m =>
      let g i := default EmptyString (Re.group i m) in
      Some (g 1%nat, g 2%nat, g 3%nat, g 4%nat)
  end.

(** The names of the links that [_so_symlinks] makes for [fname]. *)
Definition so_link_names (fname : string) : list string :=
  match so_groups fname with
  | Some (so, x, y, z) =>
      [so +:+ "." +:+ x +:+ "." +:+ y; so +:+ "." +:+ x; so]
  | None => []
  end.

(** The body of [for dirent in os.listdir(path)]. *)
Definition so_symlinks_entry (path dirent : string) : M FS unit :=
  let fname := Py.os_path_join path dirent in
  do isdir <- gets (fun fs => Os.path_isdir fs fname) ;
  do islink <- gets (fun fs => Os.path_islink fs fname) ;
  if isdir || islink then ret tt
  else
    match so_groups fname with
    | Some (so, x, y, z) =>
        symlink fname (so +:+ "." +:+ x +:+ "." +:+ y) >>
        symlink fname (so +:+ "." +:+ x) >>
        symlink fname so
    | None => ret tt
    end.

(** [_so_symlinks(path)].  The statement under [if not os.path.isdir(path)]
    is [assert AssertionError(...)]: it asserts an exception object, which
    is true, so it never raises and control reaches [os.listdir]. *)
Definition _so_symlinks (path : string) : M FS unit :=
  do isdir <- gets (fun fs => Os.path_isdir fs path) ;
  (if negb isdir then ret tt else ret tt) >>
  do dirents <- Os.listdir path ;
  for_each dirents (so_symlinks_entry path).

(** ** Sample worlds

    A world that only counts the children started so far. *)

Module Sample.

Definition no_sleep (wait : N) (w : nat) : nat := w.

(** Every child exits with code 1. *)
Definition always_fail (cmd : string) (argv : list string) (w : nat)
    : completed * nat :=
  (mkCompleted 1 "" "boom", S w).

(** The first [k] children exit with code 1, the later ones with code 0. *)
Definition flaky (k : nat) (cmd : string) (argv : list string) (w : nat)
    : completed * nat :=
  (if (w <? k)%nat then mkCompleted 1 "partial" "boom"
   else mkCompleted 0 "done" "", S w).

(** Two commands that succeed with the same standard output and
    differ in what they write to standard error. *)
Definition quiet_ok (cmd : string) (argv : list string) (w : nat)
    : completed * nat :=
  (mkCompleted 0 "out" "", S w).

Definition noisy_ok (cmd : string) (argv : list string) (w : nat)
    : completed * nat :=
  (mkCompleted 0 "out" "warning", S w).

Definition start : @St nat := mkSt O [].

(** A host on which the only executable file is [/bin/ls]. *)
Definition ls_isfile (p : string) (w : unit) : bool := String.eqb p "/bin/ls".
Definition ls_access (p : string) (w : unit) : bool := String.eqb p "/bin/ls".
Definition ls_environ (name : string) (w : unit) : option string :=
  if String.eqb name "PATH" then Some "/usr/bin:/bin" else None.

(** The text that a command prints, line by line. *)
Definition lines (ls : list string) : string :=
  fold_right (fun l acc => l +:+ String Py.LF acc) EmptyString ls.

(** A listing printed by [ps ax], and a host whose [ps] prints it. *)
Definition ps_header : string := "  PID TTY      STAT   TIME COMMAND".

Definition ps_output : string :=
  lines [ps_header;
         "    1 ?        Ss     0:01 /sbin/init splash";
         "    2 ?        S      0:00 [kthreadd]";
         "  812 ?        Ss     0:00 /usr/sbin/sshd -D";
         "  907 pts/0    S+     0:00 python test_system.py"].

(** A listing whose last line stops before the COMMAND column. *)
Definition ps_short_output : string :=
  lines [ps_header;
         "    1 ?        Ss     0:01 /sbin/init";
         "   22 ?"].

Definition ps_isfile (p : string) (w : nat) : bool := String.eqb p "/bin/ps".
Definition ps_environ (name : string) (w : nat) : option string :=
  if String.eqb name "PATH" then Some "/usr/bin:/bin" else None.
Definition ps_popen (cmd : string) (argv : list string) (w : nat)
    : completed * nat :=
  (mkCompleted 0 ps_short_output "", S w).

(** A Linux host and a Solaris host on which the AFS kernel module is not
    loaded: what [lsmod] and [modinfo -w] print there. *)
Definition lsmod_output : string :=
  lines ["Module                  Size  Used by";
         "ext4                  737280  1";
         "libafs_helper          16384  0"].

Definition modinfo_output : string :=
  lines [" Id Loadaddr   Size Info Rev Module Name";
         "  0 fb800000 2263a8   -   0  unix ()";
         "  1 fb8a5000  3b4f8   -   0  genunix ()"].

Definition unloaded_host (cmd : string) (argv : list string) (w : nat)
    : completed * nat :=
  (if String.eqb cmd "/sbin/lsmod" then mkCompleted 0 lsmod_output ""
   else if String.eqb cmd "/usr/sbin/modinfo" then mkCompleted 0 modinfo_output ""
   else mkCompleted 1 "" "not permitted", S w).

(** The same hosts with the module loaded. *)
Definition loaded_host (cmd : string) (argv : list string) (w : nat)
    : completed * nat :=
  (if String.eqb cmd "/sbin/lsmod" then
     mkCompleted 0 (lines ["Module                  Size  Used by";
                           "libafs               1523712  2";
                           "ext4                  737280  1"]) ""
   else if String.eqb cmd "/usr/sbin/modinfo" then
     mkCompleted 0 (lines [" Id Loadaddr   Size Info Rev Module Name";
                           "  0 fb800000 2263a8   -   0  unix ()";
                           "212 f7c4e000  c1a08 105   1  afs (afs filesystem)"]) ""
   else mkCompleted 0 "" "", S w).

End Sample.

(** Vocabulary for statements about [_so_symlinks]: two file systems
    with the same objects other than symbolic links, under the same names. *)
Definition same_non_links (fs fs1 : FS) : Prop :=
  forall (p : string) (n : node),
    (forall t, n <> Link t) -> (fs !! p = Some n <-> fs1 !! p = Some n).

(** ** Sample file systems *)

Module SampleFS.

(** The scratch directory of the test of [symlink]. *)
Definition scratch : FS := {[ "/tmp/t" := Dir; "/tmp/t/xyzzy" := File ]}.

(** A library reached through two links, the way a linker name and a
    soname lead to the real file. *)
Definition chained : FS :=
  {[ "/lib/libafs.so" := Link "/lib/libafs.so.1";
     "/lib/libafs.so.1" := Link "/lib/libafs.so.1.0";
     "/lib/libafs.so.1.0" := File ]}.

(** [chained] after [symlink("/lib/libafs.so", "/lib/libafs.so.1")]. *)
Definition looped : FS :=
  {[ "/lib/libafs.so" := Link "/lib/libafs.so.1";
     "/lib/libafs.so.1" := Link "/lib/libafs.so";
     "/lib/libafs.so.1.0" := File ]}.

(** A library directory with one versioned library, and with two versions
    of the same library. *)
Definition one_version : FS :=
  {[ "/lib" := Dir; "/lib/foo.so.1.2.3" := File ]}.

Definition one_version_linked : FS :=
  {[ "/lib" := Dir; "/lib/foo.so.1.2.3" := File;
     "/lib/foo.so.1.2" := Link "/lib/foo.so.1.2.3";
     "/lib/foo.so.1" := Link "/lib/foo.so.1.2.3";
     "/lib/foo.so" := Link "/lib/foo.so.1.2.3" ]}.

Definition two_versions : FS :=
  {[ "/lib" := Dir; "/lib/foo.so.1.2.3" := File; "/lib/foo.so.1.2.4" := File ]}.

Definition two_versions_linked : FS :=
  {[ "/lib" := Dir; "/lib/foo.so.1.2.3" := File; "/lib/foo.so.1.2.4" := File;
     "/lib/foo.so.1.2" := Link "/lib/foo.so.1.2.4";
     "/lib/foo.so.1" := Link "/lib/foo.so.1.2.4";
     "/lib/foo.so" := Link "/lib/foo.so.1.2.4" ]}.

(** The same library in a directory named relative to the working
    directory. *)
Definition relative : FS :=
  {[ "lib" := Dir; "lib/foo.so.1.2.3" := File ]}.

Definition relative_linked : FS :=
  {[ "lib" := Dir; "lib/foo.so.1.2.3" := File;
     "lib/foo.so.1.2" := Link "lib/foo.so.1.2.3";
     "lib/foo.so.1" := Link "lib/foo.so.1.2.3";
     "lib/foo.so" := Link "lib/foo.so.1.2.3" ]}.

End SampleFS.

(** ** More of Python: text files, [in], [re.search], and what a match means *)

Module PyText.

(** [f.readlines()] of a file opened with mode ['r']: the lines with
    their line feed; a last line without line feed is kept as it is. *)
Fixpoint readlines (s : string) : list string :=
  match s with
  | EmptyString => []
  | String c r =>
      if Ascii.eqb c Py.LF then String c EmptyString :: readlines r
      else match readlines r with
           | h :: t => String c h :: t
           | [] => [String c EmptyString]
           end
  end.

(** [sub in s] for byte strings. *)
Definition contains_text (sub s : string) : bool :=
  match Py.find sub s with Some _ => true | None => false end.

End PyText.

Module ReSem.

(** [re.search(r, s, flags)]: the groups of the first match, the start
    positions being tried from left to right. *)
Fixpoint search_from (multiline : bool) (r : Re.regex) (before : option ascii)
    (s : string) : option Re.captures :=
  match Re.match_at multiline r (Re.mkCursor before s) with
  | Some (caps, _) => Some caps
  | None =>
      match s with
      | EmptyString => None
      | String c s' => search_from multiline r (Some c) s'
      end
  end.

Definition search (multiline : bool) (r : Re.regex) (s : string)
    : option Re.captures :=
  search_from multiline r None s.

(** One way for a pattern to match: from the cursor and groups on the left
    to those on the right. *)
Inductive derives (ml : bool) : Re.regex -> Re.cursor -> Re.captures ->
    Re.cursor -> Re.captures -> Prop :=
| D_Eps cur caps : derives ml Re.Eps cur caps cur caps
| D_Cls p before c s caps :
    p c = true ->
    derives ml (Re.Cls p) (Re.mkCursor before (String c s)) caps
      (Re.mkCursor (Some c) s) caps
| D_Cat a b c0 k0 c1 k1 c2 k2 :
    derives ml a c0 k0 c1 k1 -> derives ml b c1 k1 c2 k2 ->
    derives ml (Re.Cat a b) c0 k0 c2 k2
| D_Alt_l a b c0 k0 c1 k1 :
    derives ml a c0 k0 c1 k1 -> derives ml (Re.Alt a b) c0 k0 c1 k1
| D_Alt_r a b c0 k0 c1 k1 :
    derives ml b c0 k0 c1 k1 -> derives ml (Re.Alt a b) c0 k0 c1 k1
| D_Star_stop a cur caps : derives ml (Re.Star a) cur caps cur caps
| D_Star_more a c0 k0 c1 k1 c2 k2 :
    derives ml a c0 k0 c1 k1 ->
    derives ml (Re.Star a) c1 k1 c2 k2 ->
    derives ml (Re.Star a) c0 k0 c2 k2
| D_Group i a c0 k0 c1 k1 :
    derives ml a c0 k0 c1 k1 ->
    derives ml (Re.Group i a) c0 k0 c1
      ((i, Py.take (String.length (Re.rest c0) - String.length (Re.rest c1))
             (Re.rest c0)) :: k1)
| D_Bol cur caps :
    Re.at_bol ml cur = true -> derives ml Re.Bol cur caps cur caps
| D_Eol cur caps :
    Re.at_eol ml cur = true -> derives ml Re.Eol cur caps cur caps.

(** The texts of a pattern, whatever stands around them. *)
Inductive lang : Re.regex -> string -> Prop :=
| L_Eps : lang Re.Eps EmptyString
| L_Cls p c : p c = true -> lang (Re.Cls p) (String c EmptyString)
| L_Cat a b s t : lang a s -> lang b t -> lang (Re.Cat a b) (s +:+ t)
| L_Alt_l a b s : lang a s -> lang (Re.Alt a b) s
| L_Alt_r a b s : lang b s -> lang (Re.Alt a b) s
| L_Star_stop a : lang (Re.Star a) EmptyString
| L_Star_more a s t : lang a s -> lang (Re.Star a) t -> lang (Re.Star a) (s +:+ t)
| L_Group i a s : lang a s -> lang (Re.Group i a) s
| L_Bol : lang Re.Bol EmptyString
| L_Eol : lang Re.Eol EmptyString.

(** A pattern without groups. *)
Fixpoint groupless (r : Re.regex) : bool :=
  match r with
  | Re.Group _ _ => false
  | Re.Cat a b | Re.Alt a b => groupless a && groupless b
  | Re.Star a => groupless a
  | _ => true
  end.

End ReSem.

(** Four decimal numbers with dots between them. *)
Definition dotted_quad (a : string) : Prop :=
  exists n1 n2 n3 n4 : string,
    a = n1 +:+ "." +:+ n2 +:+ "." +:+ n3 +:+ "." +:+ n4 /\
    is_number n1 = true /\ is_number n2 = true /\
    is_number n3 = true /\ is_number n4 = true.

Definition nonspace (c : ascii) : bool := negb (Py.isspace c).

(** ** Host facts: mount point, network interfaces, loaded modules *)

Section HostFacts.

Context {W : Type}.
Variable popen : string -> list string -> W -> completed * W.
Variable sleep : N -> W -> W.

(** [os.uname()[0]]. *)
Variable os_uname : W -> string.

(** The text of [/proc/modules], which a Linux kernel always provides. *)
Variable proc_modules : W -> string.

Local Abbreviation Run := (M (@St W)).

(** [r'(/.\S+)'], the group of both mount patterns. *)
Definition mount_path : Re.regex :=
  Re.Group 1 (Re.Cat (Re.Lit "/") (Re.Cat Re.dot (Re.Plus Re.nonspace))).

(** [r'^AFS on (/.\S+)'] and [r'(/.\S+) on AFS']. *)
Definition linux_mount_pattern : Re.regex :=
  Re.Cat Re.Bol (Re.Cat (Re.Lit "AFS on ") mount_path).

Definition solaris_mount_pattern : Re.regex :=
  Re.Cat mount_path (Re.Lit " on AFS").

(** [afs_mountpoint()]; [None] is the Python result [None]. *)
Definition afs_mountpoint : Run (option string) :=
  do uname <- gets (fun st => os_uname (world st)) ;
  do pattern <-
    (if String.eqb uname "Linux" then ret linux_mount_pattern
     else if String.eqb uname "SunOS" then ret solaris_mount_pattern
     else raise (AssertionError ("Unsupported operating system: " +:+ uname))) ;
  do output <- run_default popen sleep "mount" None ;
  match ReSem.search true pattern output with
  | Some found => ret (Some (default EmptyString (Re.group 1 found)))
  | None => ret None
  end.

(** [r'\d+\.\d+\.\d+\.\d+'], in a group. *)
Definition quad_group : Re.regex :=
  let number := Re.Plus Re.digit in
  Re.Group 1
    (Re.Cat number (Re.Cat (Re.Lit ".") (Re.Cat number (Re.Cat (Re.Lit ".")
       (Re.Cat number (Re.Cat (Re.Lit ".") number)))))).

(** [r'inet (\d+\.\d+\.\d+\.\d+)'] and [r'ok:(\d+\.\d+\.\d+\.\d+)']. *)
Definition inet_pattern : Re.regex := Re.Cat (Re.Lit "inet ") quad_group.
Definition ipadm_pattern : Re.regex := Re.Cat (Re.Lit "ok:") quad_group.

(** The loop over the lines of both [network_interfaces] functions:
    [find] is [re.search] on Linux and [re.match] on Solaris. *)
Fixpoint collect_addrs (find : string -> option Re.captures)
    (lines : list string) (addrs : list string) : list string :=
  match lines with
  | [] => addrs
  | line :: rest =>
      match find line with
      | Some m =>
          let addr := default EmptyString (Re.group 1 m) in
          if negb (String.prefix "127." addr)
          then collect_addrs find rest (addrs ++ [addr])
          else collect_addrs find rest addrs
      | None => collect_addrs find rest addrs
      end
  end.

Definition _linux_network_interfaces : Run (list string) :=
  do out <- run_default popen sleep "/sbin/ip"
              (Some ["-oneline"; "-family"; "inet"; "addr"; "show"]) ;
  ret (collect_addrs (ReSem.search false inet_pattern) (Py.splitlines out) []).

Definition _solaris_network_interfaces : Run (list string) :=
  do out <- run_default popen sleep "ipadm"
              (Some ["show-addr"; "-p"; "-o"; "STATE,ADDR"]) ;
  ret (collect_addrs (Re.re_match ipadm_pattern) (Py.splitlines out) []).

(** The loop of [_linux_is_loaded] and the [return False] after it. *)
Fixpoint linux_is_loaded_lines (kmod : string) (lines : list string) : exn + bool :=
  match lines with
  | [] => inr false
  | line :: rest =>
      match Py.split_ws line with
      | [] => inl IndexError
      | name :: _ =>
          if String.eqb kmod name then inr true
          else linux_is_loaded_lines kmod rest
      end
  end.

Definition _linux_is_loaded (kmod : string) : Run bool :=
  do text <- gets (fun st => proc_modules (world st)) ;
  lift_result (linux_is_loaded_lines kmod (PyText.readlines text)).

(** Vocabulary for statements about [_linux_unload_module]: [rmmod] run
    for the modules [kmods] in turn from the world [w], up to and
    including the first run that exits non-zero.  The modules it was run
    for, the world after, and the module and the result of the failing
    run if there is one. *)
Fixpoint rmmod_until_failure (kmods : list string) (w : W)
    : list string * W * option (string * completed) :=
  match kmods with
  | [] => ([], w, None)
  | kmod :: rest =>
      let '(r, w') := popen "rmmod" ["rmmod"; kmod] w in
      if Z.eqb (returncode r) 0 then
        let '(done, w'', failed) := rmmod_until_failure rest w' in
        (kmod :: done, w'', failed)
      else ([kmod], w', Some (kmod, r))
  end.

End HostFacts.

(** ** Loading the module: the choice of the platform *)




(** ** The existence checks *)

(** [file_should_exist(path, description=None)] and its two siblings: each
    returns [True] or raises [AssertionError] with the description. *)
Definition file_should_exist (path : string) (description : option string)
    : M FS bool :=
  do isfile <- gets (fun fs => Os.path_isfile fs path) ;
  if negb isfile then
    raise (AssertionError
             (default ("File '" +:+ path +:+ "' does not exist.") description))
  else ret true.

Definition directory_should_exist (path : string) (description : option string)
    : M FS bool :=
  do isdir <- gets (fun fs => Os.path_isdir fs path) ;
  if negb isdir then
    raise (AssertionError
             (default ("Directory '" +:+ path +:+ "' does not exist.") description))
  else ret true.

Definition directory_should_not_exist (path : string) (description : option string)
    : M FS bool :=
  do present <- gets (fun fs => Os.path_exists fs path) ;
  if present then
    raise (AssertionError
             (default ("Directory '" +:+ path +:+ "' already exists.") description))
  else ret true.

(** ** The dynamic linker on Solaris *)

Section SolarisLinker.

Context {W : Type}.
Variable popen : string -> list string -> W -> completed * W.
Variable sleep : N -> W -> W.





End SolarisLinker.

(** ** [afsutil.build]: rebuilding from source *)

Module Build.

(** What [sys.exit] and [os.chdir] raise. *)
Inductive build_exn :=
| SystemExit (code : Z)
| ChdirError (path : string).

Section Rebuild.

Context {W : Type}.

(** [os.system(cmd)] in the working directory [cwd]: the status of the
    command. *)
Variable os_system : string -> string -> W -> Z * W.

(** [os.path.isdir] and [os.path.isfile] of a name taken from [cwd]. *)
Variable isdir : string -> string -> W -> bool.
Variable isfile : string -> string -> W -> bool.

(** Whether [os.chdir] to the name is possible from [cwd]. *)
Variable can_chdir : string -> string -> W -> bool.

Variable os_uname : W -> string.

(** The world, the working directory and the commands given to
    [os.system] so far, each with the directory it ran in. *)
Record BSt := mkBSt {
  bworld : W;
  cwd : string;
  issued : list (string * string)
}.

Definition B (A : Type) : Type := BSt -> (build_exn + A) * BSt.

Definition bret {A} (a : A) : B A := fun st => (inr a, st).
Definition braise {A} (e : build_exn) : B A := fun st => (inl e, st).
Definition bbind {A C} (c : B A) (k : A -> B C) : B C :=
  fun st => match c st with
            | (inr a, st') => k a st'
            | (inl e, st') => (inl e, st')
            end.

(** [run(cmd)] of the build module. *)
Definition run (cmd : string) : B unit :=
  fun st =>
    let '(code, w') := os_system (cwd st) cmd (bworld st) in
    let st' := mkBSt w' (cwd st) (issued st ++ [(cwd st, cmd)]) in
    if negb (Z.eqb code 0) then (inl (SystemExit code), st') else (inr tt, st').

(** [os.chdir(d)] *)
Definition chdir (d : string) : B unit :=
  fun st =>
    if can_chdir (cwd st) d (bworld st)
    then (inr tt, mkBSt (bworld st) (Py.os_path_join (cwd st) d) (issued st))
    else (inl (ChdirError d), st).

Definition default_options : list string :=
  ["--enable-debug"; "--enable-debug-kernel"; "--disable-optimize";
   "--disable-optimize-kernel"; "--without-dot"; "--enable-transarc-paths"].

(** The value of [cf] after [if cf is None: ...]. *)
Definition configure_flags (cf : option string) (uname : string) : string :=
  match cf with
  | Some cf => cf
  | None =>
      let options :=
        if String.eqb uname "Linux"
        then default_options ++ ["--enable-checking"]
        else default_options in
      Py.join " " options
  end.

(** The value of [target] after [if target is None: ...]. *)
Definition build_target (target : option string) (cf : string) : string :=
  match target with
  | Some t => t
  | None =>
      if PyText.contains_text "--enable-transarc-paths" cf then "dest" else "all"
  end.

(** [rebuild(chdir=None, cf=None, target=None, clean=True)] *)
Definition rebuild (dir cf target : option string) (clean : bool) : B unit :=
  bbind (match dir with
         | Some d =>
             fun st => bbind (chdir d) (fun _ => bret (Some (cwd st))) st
         | None => bret None
         end)
    (fun origdir =>
  bbind (fun st => (inr (configure_flags cf (os_uname (bworld st))), st))
    (fun cf =>
  let target := build_target target cf in
  bbind (if clean then
           fun st =>
             if isdir (cwd st) ".git" (bworld st)
             then run "git clean -f -d -x -q" st
             else if isfile (cwd st) "./Makefile" (bworld st)
                  then run "make clean" st
                  else bret tt st
         else bret tt)
    (fun _ =>
  bbind (run "./regen.sh") (fun _ =>
  bbind (run ("./configure " +:+ cf)) (fun _ =>
  bbind (run ("make " +:+ target)) (fun _ =>
  match origdir with
  | Some (String c d) => chdir (String c d)
  | _ => bret tt
  end)))))).

(** Vocabulary for statements about [rebuild]: the directory the build
    runs in, and the commands of a full run in the directory [d] of the
    world [w]. *)
Definition build_dir (dir : option string) (cwd0 : string) : string :=
  match dir with
  | Some d => Py.os_path_join cwd0 d
  | None => cwd0
  end.

Definition clean_commands (clean : bool) (d : string) (w : W) : list string :=
  if clean then
    if isdir d ".git" w then ["git clean -f -d -x -q"]
    else if isfile d "./Makefile" w then ["make clean"] else []
  else [].

Definition planned (cf target : option string) (clean : bool) (d : string) (w : W)
    : list string :=
  let cf := configure_flags cf (os_uname w) in
  clean_commands clean d w
  ++ ["./regen.sh"; "./configure " +:+ cf; "make " +:+ build_target target cf].

(** [os.system] given the commands [cmds] in turn in the directory [d]
    from the world [w], up to and including the first whose status is
    not 0: the commands given, the world after, and that status if there
    is one. *)
Fixpoint issue_until_failure (d : string) (cmds : list string) (w : W)
    : list string * W * option Z :=
  match cmds with
  | [] => ([], w, None)
  | cmd :: rest =>
      let '(code, w') := os_system d cmd w in
      if Z.eqb code 0 then
        let '(done, w'', failed) := issue_until_failure d rest w' in
        (cmd :: done, w'', failed)
      else ([cmd], w', Some code)
  end.

End Rebuild.

End Build.

(** ** More sample worlds *)

Module SampleHost.

(** A world that is the name of its operating system, and what [ip],
    [ipadm] and [mount] print there. *)
Definition os_uname (w : string) : string := w.

Definition no_sleep (wait : N) (w : string) : string := w.

Definition ip_output : string :=
  Sample.lines
    ["1: lo    inet 127.0.0.1/8 scope host lo";
     "2: eth0    inet 192.168.1.20/24 brd 192.168.1.255 scope global eth0"].

Definition ipadm_output : string :=
  Sample.lines ["ok:127.0.0.1/8"; "ok:10.0.2.15/24"; "disabled:10.0.3.1/24"].

Definition linux_mount_output : string :=
  Sample.lines ["/dev/sda1 on / type ext4 (rw,relatime)";
                "AFS on /afs type afs (rw,relatime)"].

Definition solaris_mount_output : string :=
  Sample.lines ["/ on rpool/ROOT/solaris read/write/setuid/devices/dev=4750002";
                "/afs on AFS nosuid/dev=8a00001"].

Definition popen (cmd : string) (argv : list string) (w : string)
    : completed * string :=
  (mkCompleted 0
     (if String.eqb cmd "/sbin/ip" then ip_output
      else if String.eqb cmd "ipadm" then ipadm_output
      else if String.eqb w "Linux" then linux_mount_output
      else solaris_mount_output)
     "", w).

Definition linux : @St string := mkSt "Linux" [].
Definition solaris : @St string := mkSt "SunOS" [].

(** A Linux host on which both modules are listed and [rmmod] is
    refused. *)
Definition busy_popen (cmd : string) (argv : list string) (w : string)
    : completed * string :=
  (if String.eqb cmd "/sbin/lsmod" then
     mkCompleted 0 (Sample.lines ["Module                  Size  Used by";
                                  "libafs               1523712  2";
                                  "openafs                40960  1"]) ""
   else mkCompleted 1 "" "rmmod: ERROR: Module is in use", w).

(** The text of [/proc/modules] with the AFS module loaded. *)
Definition proc_modules (w : string) : string :=
  Sample.lines ["libafs 1523712 2 - Live 0xffffffffc0a00000 (POE)";
                "ext4 737280 1 - Live 0xffffffffc0500000"].

(** A library directory in which the name of the second link is taken by
    a regular file, before and after [_so_symlinks]. *)
Definition blocked : FS :=
  {[ "/lib" := Dir; "/lib/foo.so.1.2.3" := File; "/lib/foo.so.1" := File ]}.

Definition blocked_after : FS :=
  {[ "/lib" := Dir; "/lib/foo.so.1.2.3" := File; "/lib/foo.so.1" := File;
     "/lib/foo.so.1.2" := Link "/lib/foo.so.1.2.3" ]}.

(** A link whose target is gone. *)
Definition dangling : FS :=
  {[ "/tmp/t" := Dir; "/tmp/t/old" := Link "/tmp/t/gone" ]}.


End SampleHost.

Module SampleBuild.

(** A source tree under git in which [./configure] ends with status 256. *)
Definition os_system (cwd cmd : string) (w : nat) : Z * nat :=
  (if String.prefix "./configure" cmd then 256 else 0, S w).

Definition isdir (cwd name : string) (w : nat) : bool := String.eqb name ".git".
Definition isfile (cwd name : string) (w : nat) : bool := false.
Definition can_chdir (cwd d : string) (w : nat) : bool := true.
Definition os_uname (w : nat) : string := "Linux".

Definition start : @Build.BSt nat := Build.mkBSt O "/home/dev" [].

End SampleBuild.

(** * Properties *)

(** ** The model on concrete inputs *)

Example py_split_path :
  Py.split ":" "/usr/bin:/bin::" = ["/usr/bin"; "/bin"; ""; ""] /\
  Py.split ":" "" = [""].
Proof. split; reflexivity. Qed.

Example py_strip_quotes :
  Py.strip dquote (String dquote ("/opt/afs bin" +:+ String dquote "")) = "/opt/afs bin".
Proof. reflexivity. Qed.

Example py_splitlines :
  Py.splitlines ("a" +:+ String Py.LF (String Py.CR (String Py.LF "bc")))
    = ["a"; ""; "bc"] /\
  Py.splitlines (String Py.LF "") = [""] /\
  Py.splitlines "" = [].
Proof. repeat split; reflexivity. Qed.

Example py_split_whitespace :
  Py.split_ws "  /sbin/init  splash " = ["/sbin/init"; "splash"] /\
  Py.split_ws "   " = [].
Proof. split; reflexivity. Qed.

Example py_find :
  Py.find "COMMAND" Sample.ps_header = Some 27%nat /\ Py.find "CMD" Sample.ps_header = None.
Proof. split; reflexivity. Qed.

Example py_os_path :
  Py.os_path_split "/bin/ls" = ("/bin", "ls") /\
  Py.os_path_split "ls" = ("", "ls") /\
  Py.os_path_split "//ls" = ("//", "ls") /\
  Py.os_path_split "a//b/" = ("a//b", "") /\
  Py.os_path_basename "/usr/sbin/sshd" = "sshd" /\
  Py.os_path_join "/bin" "ls" = "/bin/ls" /\
  Py.os_path_join "/bin/" "ls" = "/bin/ls" /\
  Py.os_path_join "" "ls" = "ls" /\
  Py.os_path_join "/bin" "/ls" = "/ls".
Proof. repeat split; reflexivity. Qed.

Example re_lsmod :
  Re.findall true lsmod_pattern
    (Sample.lines ["Module  Size"; "libafs 123 0"; "ext4 libafs 1"; "openafs";
                   "libafsx 1"])
  = ["libafs"; "openafs"].
Proof. reflexivity. Qed.

Example re_modinfo :
  Re.re_match modinfo_pattern "212 f7c4e000  c1a08 105   1  afs (afs filesystem)"
    = Some [(2%nat, "afs"); (1%nat, "212")] /\
  Re.re_match modinfo_pattern " 12 f7c4e000  c1a08 -   1" = None.
Proof. split; reflexivity. Qed.

Example re_so_groups :
  so_groups "/lib/foo.so.1.2.3" = Some ("/lib/foo.so", "1", "2", "3") /\
  so_groups "/lib/foo.so.1.2.3.so.10.20.30"
    = Some ("/lib/foo.so.1.2.3.so", "10", "20", "30") /\
  so_groups "/lib/foo.so.1.2" = None /\
  so_groups "/lib/foo.so.1.2.3.4" = None /\
  so_groups ".so.1.2.3" = None.
Proof. repeat split; reflexivity. Qed.

Example get_running_names :
  get_running_parse Sample.ps_output = inr {[ "init"; "sshd"; "python" ]}.
Proof. vm_compute. reflexivity. Qed.

Example unload_module_loaded :
  _linux_unload_module Sample.loaded_host Sample.no_sleep Sample.start
    = (inr tt, mkSt 2%nat [EvSpawn "/sbin/lsmod" ["/sbin/lsmod"];
                           EvSpawn "rmmod" ["rmmod"; "libafs"]]) /\
  _solaris_unload_module Sample.loaded_host Sample.no_sleep Sample.start
    = (inr tt, mkSt 2%nat [EvSpawn "/usr/sbin/modinfo" ["/usr/sbin/modinfo"; "-w"];
                           EvSpawn "modunload" ["modunload"; "-i"; "212"]]).
Proof. split; reflexivity. Qed.


(** ** The command runner *)

Section RunnerFacts.

Context {W : Type}.
Variable popen : string -> list string -> W -> completed * W.
Variable sleep : N -> W -> W.
Variables (cmd : string) (argv : list string) (wait : N).
Variable cleanup : option (W -> W).

Local Abbreviation attempt_at := (attempt popen sleep cmd argv wait cleanup).
Local Abbreviation rc_at w0 i := (returncode (attempt_at w0 i).1).
Local Abbreviation retry_evs := (retry_events cmd argv wait cleanup).

Lemma seq_S_cons (a n : nat) : seq a (S n) = a :: seq (S a) n.
Proof. reflexivity. Qed.

Lemma repeat_snoc {A} (x : list A) (k : nat) :
  concat (repeat x (S k)) = x ++ concat (repeat x k).
Proof. reflexivity. Qed.

(** One retry, unfolded: the state in which the child has run. *)
Lemma retry_unfold (j : nat) (rest : list nat) (last : option completed) (st : St) :
  run_attempts popen sleep cmd argv wait cleanup (S j :: rest) last st =
  let w := before_retry sleep wait cleanup (world st) in
  let r := popen cmd argv w in
  let st1 := mkSt r.2 (trace st ++ retry_evs) in
  if Z.eqb (returncode r.1) 0 then (inr (output r.1), st1)
  else run_attempts popen sleep cmd argv wait cleanup rest (Some r.1) st1.
Proof.
  unfold retry_events, before_retry.
  destruct cleanup as [c|]; cbn [run_attempts Nat.ltb Nat.leb];
    unfold bind, do_sleep, do_cleanup, do_popen, emit, on_world, bind, ret; cbn;
    destruct (popen cmd argv _) as [r w'] eqn:E; cbn;
    rewrite <- ?app_assoc; cbn; destruct (Z.eqb (returncode r) 0); reflexivity.
Qed.

(** The retries that follow a failed attempt [j]: all that they can do. *)
Lemma run_retries_spec (w0 : W) (n : nat) :
  forall (j : nat) (r : completed) (st : St),
    world st = (attempt_at w0 j).2 ->
    exists k res st',
      run_attempts popen sleep cmd argv wait cleanup (seq (S j) n) (Some r) st
        = (res, st') /\
      (k <= n)%nat /\
      trace st' = trace st ++ concat (repeat retry_evs k) /\
      world st' = (attempt_at w0 (j + k)%nat).2 /\
      (forall i, (j < i < j + k)%nat -> rc_at w0 i <> 0) /\
      match res with
      | inr v => (0 < k)%nat /\ rc_at w0 (j + k)%nat = 0 /\ v = output (attempt_at w0 (j + k)%nat).1
      | inl e =>
          k = n /\ ((0 < k)%nat -> rc_at w0 (j + k)%nat <> 0) /\
          e = ExCommandFailed
                (let l := match k with O => r | S _ => (attempt_at w0 (j + k)%nat).1 end in
                 mkCommandFailed cmd argv (returncode l) (output l) (error l))
      end.
Proof.
  induction n as [|n IH]; intros j r st Hw.
  - exists O, (inl (ExCommandFailed
                     (mkCommandFailed cmd argv (returncode r) (output r) (error r)))), st.
    cbn. rewrite app_nil_r, Nat.add_0_r. repeat split; auto; try lia.
  - rewrite seq_S_cons, retry_unfold. cbn zeta.
    assert (Hstep : popen cmd argv (before_retry sleep wait cleanup (world st))
                    = attempt_at w0 (S j)).
    { unfold attempt. cbn [attempt_world]. unfold attempt in Hw. rewrite Hw. reflexivity. }
    rewrite Hstep.
    destruct (Z.eqb (returncode (attempt_at w0 (S j)).1) 0) eqn:Hrc.
    + exists 1%nat. eexists. eexists. split; [reflexivity|].
      replace (j + 1)%nat with (S j) by lia. cbn [trace world repeat concat].
      rewrite app_nil_r. apply Z.eqb_eq in Hrc. repeat split; auto; try lia.
    + apply Z.eqb_neq in Hrc.
      destruct (IH (S j) (attempt_at w0 (S j)).1
                  (mkSt (attempt_at w0 (S j)).2 (trace st ++ retry_evs)) eq_refl)
        as (k & res & st' & Hrun & Hk & Htr & Hwo & Hfail & Hres).
      exists (S k), res, st'. split; [exact Hrun|].
      replace (j + S k)%nat with (S j + k)%nat by lia.
      split; [lia|]. split.
      { rewrite Htr. cbn [trace]. rewrite repeat_snoc, app_assoc. reflexivity. }
      split; [exact Hwo|]. split.
      { intros i Hi. destruct (decide (i = S j)) as [->|Hne]; [exact Hrc|].
        apply Hfail. lia. }
      destruct res as [e|v].
      * destruct Hres as (Hkn & Hlast & ->). split; [lia|]. split.
        { intros _. destruct k; [rewrite Nat.add_0_r; exact Hrc| apply Hlast; lia]. }
        destruct k; [rewrite Nat.add_0_r|]; reflexivity.
      * destruct Hres as (Hk0 & Hz & ->). repeat split; auto; lia.
Qed.

Lemma first_unfold (rest : list nat) (last : option completed) (st : St) :
  run_attempts popen sleep cmd argv wait cleanup (O :: rest) last st =
  let r := popen cmd argv (world st) in
  let st1 := mkSt r.2 (trace st ++ [EvSpawn cmd argv]) in
  if Z.eqb (returncode r.1) 0 then (inr (output r.1), st1)
  else run_attempts popen sleep cmd argv wait cleanup rest (Some r.1) st1.
Proof.
  cbn [run_attempts Nat.ltb Nat.leb].
  unfold bind, do_popen, emit, bind, ret; cbn.
  destruct (popen cmd argv _) as [r w'] eqn:E; cbn.
  destruct (Z.eqb (returncode r) 0); reflexivity.
Qed.

(** The whole loop of [run] and the [raise] after it: all that they can do. *)
Lemma run_attempts_spec (retry : Z) (st : St) :
  exists res st',
    run_attempts popen sleep cmd argv wait cleanup (xrange0 (retry + 1)) None st
      = (res, st') /\
    ((retry < 0 /\ res = inl (UnboundLocalError "rc") /\ st' = st) \/
     (0 <= retry /\
      exists k : nat,
        (k <= Z.to_nat retry)%nat /\
        trace st' = trace st ++ attempts_events cmd argv wait cleanup k /\
        world st' = (attempt_at (world st) k).2 /\
        (forall i, (i < k)%nat -> rc_at (world st) i <> 0) /\
        match res with
        | inr v => rc_at (world st) k = 0 /\ v = output (attempt_at (world st) k).1
        | inl e =>
            k = Z.to_nat retry /\ rc_at (world st) k <> 0 /\
            e = ExCommandFailed
                  (let l := (attempt_at (world st) k).1 in
                   mkCommandFailed cmd argv (returncode l) (output l) (error l))
        end)).
Proof.
  destruct (Z.ltb_spec retry 0) as [Hneg|Hpos].
  - exists (inl (UnboundLocalError "rc")), st. unfold xrange0.
    replace (Z.to_nat (retry + 1)) with O by lia. cbn. auto.
  - unfold xrange0. replace (Z.to_nat (retry + 1)) with (S (Z.to_nat retry)) by lia.
    rewrite seq_S_cons, first_unfold. cbn zeta.
    change (popen cmd argv (world st)) with (attempt_at (world st) O).
    destruct (Z.eqb (returncode (attempt_at (world st) O).1) 0) eqn:Hrc.
    + apply Z.eqb_eq in Hrc. eexists. eexists. split; [reflexivity|]. right.
      split; [exact Hpos|]. exists O. cbn [trace world].
      repeat split; auto; lia.
    + apply Z.eqb_neq in Hrc.
      destruct (run_retries_spec (world st) (Z.to_nat retry) O
                  (attempt_at (world st) O).1
                  (mkSt (attempt_at (world st) O).2 (trace st ++ [EvSpawn cmd argv]))
                  eq_refl)
        as (k & res & st' & Hrun & Hk & Htr & Hwo & Hfail & Hres).
      exists res, st'. split; [exact Hrun|]. right. split; [exact Hpos|].
      exists k. cbn [Nat.add] in *. split; [exact Hk|]. split.
      { rewrite Htr. cbn [trace]. unfold attempts_events.
        rewrite <- app_assoc. reflexivity. }
      split; [exact Hwo|]. split.
      { intros i Hi. destruct i; [exact Hrc| apply Hfail; lia]. }
      destruct res as [e|v].
      * destruct Hres as (Hkn & Hlast & ->). split; [exact Hkn|]. split.
        { destruct k; [exact Hrc| apply Hlast; lia]. }
        destruct k; reflexivity.
      * destruct Hres as (_ & Hz & ->). auto.
Qed.

Lemma count_retry_events (p : event -> bool) (k : nat) :
  count_events p (concat (repeat retry_evs k)) = (k * count_events p retry_evs)%nat.
Proof.
  unfold count_events. induction k as [|k IH]; [reflexivity|].
  rewrite repeat_snoc, List.filter_app, length_app, IH. lia.
Qed.

Lemma count_spawn_attempts (k : nat) :
  count_events is_spawn (attempts_events cmd argv wait cleanup k) = (k + 1)%nat.
Proof.
  unfold attempts_events. change (count_events is_spawn (?e :: ?l))
    with (S (count_events is_spawn l)). rewrite count_retry_events.
  unfold retry_events; destruct cleanup; cbn; lia.
Qed.

Lemma count_sleep_attempts (k : nat) :
  count_events is_sleep (attempts_events cmd argv wait cleanup k) = k.
Proof.
  unfold attempts_events. change (count_events is_sleep (?e :: ?l))
    with (count_events is_sleep l). rewrite count_retry_events.
  unfold retry_events; destruct cleanup; cbn; lia.
Qed.

Lemma count_cleanup_attempts (k : nat) :
  count_events is_cleanup (attempts_events cmd argv wait cleanup k)
  = match cleanup with Some _ => k | None => O end.
Proof.
  unfold attempts_events. change (count_events is_cleanup (?e :: ?l))
    with (count_events is_cleanup l). rewrite count_retry_events.
  unfold retry_events; destruct cleanup; cbn; lia.
Qed.

End RunnerFacts.

(** C1.  A command that exits non-zero whenever it is started, run with a
    retry count [n >= 0]: [run] raises [CommandFailed] after exactly
    [n + 1] spawns and exactly [n] sleeps; the events are the first spawn
    followed by [n] times (sleep, clean-up if set, spawn), so no sleep
    comes before the first attempt. *)
Theorem run_failing_command_attempts {W : Type}
    (popen : string -> list string -> W -> completed * W) (sleep : N -> W -> W)
    (cmd : string) (args : option (list string)) (quiet : bool) (n : Z)
    (wait : N) (cleanup : option (W -> W)) (st : St) :
  0 <= n ->
  (forall w, returncode (popen cmd (cmd :: default [] args) w).1 <> 0) ->
  exists cf st' evs,
    run popen sleep cmd args quiet n wait cleanup st
      = (inl (ExCommandFailed cf), st') /\
    trace st' = trace st ++ evs /\
    evs = EvSpawn cmd (cmd :: default [] args)
          :: concat (repeat (retry_events cmd (cmd :: default [] args) wait cleanup)
                       (Z.to_nat n)) /\
    hd_error evs = Some (EvSpawn cmd (cmd :: default [] args)) /\
    count_events is_spawn evs = (Z.to_nat n + 1)%nat /\
    count_events is_sleep evs = Z.to_nat n.
Proof.
  intros Hn Hfail.
  destruct (run_attempts_spec popen sleep cmd (cmd :: default [] args) wait cleanup n st)
    as (res & st' & Hrun & [(Hneg & _)|(_ & k & Hk & Htr & _ & _ & Hres)]); [lia|].
  destruct res as [e|v].
  - destruct Hres as (-> & _ & ->).
    eexists. exists st'. eexists. split.
    { unfold run. destruct args; exact Hrun. }
    split; [exact Htr|]. split; [reflexivity|]. split; [reflexivity|].
    split; [apply count_spawn_attempts | apply count_sleep_attempts].
  - destruct Hres as (Hz & _). exfalso. eapply Hfail. exact Hz.
Qed.

Lemma run_failing_command_attempts_witness :
  exists cf st' evs,
    run Sample.always_fail Sample.no_sleep "false" None false 2 1%N None Sample.start
      = (inl (ExCommandFailed cf), st') /\
    trace st' = trace Sample.start ++ evs /\
    evs = EvSpawn "false" ["false"]
          :: concat (repeat (retry_events "false" ["false"] 1%N (@None (nat -> nat)))
                       (Z.to_nat 2)) /\
    hd_error evs = Some (EvSpawn "false" ["false"]) /\
    count_events is_spawn evs = (Z.to_nat 2 + 1)%nat /\
    count_events is_sleep evs = Z.to_nat 2.
Proof.
  apply (run_failing_command_attempts Sample.always_fail Sample.no_sleep
           "false" None false 2 1%N None Sample.start).
  - lia.
  - intros w. simpl. lia.
Defined.

(** C2.  When attempts 1..k exit non-zero and attempt k+1 exits with code
    0, with k at most the retry count, [run] returns the standard output of
    attempt k+1 and nothing of the earlier attempts; it has started exactly
    k+1 children and stops in the world that attempt k+1 left. *)
Theorem run_returns_first_success {W : Type}
    (popen : string -> list string -> W -> completed * W) (sleep : N -> W -> W)
    (cmd : string) (args : option (list string)) (quiet : bool) (n : Z)
    (wait : N) (cleanup : option (W -> W)) (st : St) (k : nat) :
  let argv := cmd :: default [] args in
  let nth_attempt := attempt popen sleep cmd argv wait cleanup (world st) in
  Z.of_nat k <= n ->
  (forall i, (i < k)%nat -> returncode (nth_attempt i).1 <> 0) ->
  returncode (nth_attempt k).1 = 0 ->
  run popen sleep cmd args quiet n wait cleanup st
    = (inr (output (nth_attempt k).1),
       mkSt (nth_attempt k).2
            (trace st ++ attempts_events cmd argv wait cleanup k)) /\
  count_events is_spawn (attempts_events cmd argv wait cleanup k) = (k + 1)%nat.
Proof.
  intros argv nth_attempt Hk Hfail Hok.
  split; [|apply count_spawn_attempts].
  destruct (run_attempts_spec popen sleep cmd argv wait cleanup n st)
    as (res & st' & Hrun & [(Hneg & _)|(_ & k' & Hk' & Htr & Hwo & Hfail' & Hres)]); [lia|].
  assert (Heq : k' = k).
  { destruct (Nat.lt_trichotomy k' k) as [Hlt|[Heq|Hgt]]; [|exact Heq|].
    - exfalso. destruct res as [e|v].
      + destruct Hres as (-> & _). lia.
      + destruct Hres as (Hz & _). exact (Hfail k' Hlt Hz).
    - exfalso. exact (Hfail' k Hgt Hok). }
  subst k'. destruct res as [e|v].
  - destruct Hres as (_ & Hnz & _). exfalso. exact (Hnz Hok).
  - destruct Hres as (_ & ->).
    unfold run. replace (match args with Some a => a | None => [] end)
      with (default [] args) by (destruct args; reflexivity).
    fold argv. rewrite Hrun. destruct st' as [w' tr']. cbn in Htr, Hwo.
    subst. reflexivity.
Qed.

Lemma run_returns_first_success_witness :
  run (Sample.flaky 2) Sample.no_sleep "vos" (Some ["listvol"]) false 5 1%N None
      Sample.start
    = (inr "done",
       mkSt 3%nat (attempts_events "vos" ["vos"; "listvol"] 1%N
                     (@None (nat -> nat)) 2)) /\
  count_events is_spawn (attempts_events "vos" ["vos"; "listvol"] 1%N
                           (@None (nat -> nat)) 2) = 3%nat.
Proof.
  apply (run_returns_first_success (Sample.flaky 2) Sample.no_sleep
           "vos" (Some ["listvol"]) false 5 1%N None Sample.start 2).
  - lia.
  - intros i Hi. destruct i as [|[|i]]; simpl; lia.
  - reflexivity.
Defined.

(** C3, as the code has it.  A call of [run] that returns, returns one
    byte string: the standard output of the attempt that exited with code
    0, which is the first such attempt; neither the exit code nor the
    standard error of that attempt is part of the value returned. *)
Theorem run_success_returns_stdout {W : Type}
    (popen : string -> list string -> W -> completed * W) (sleep : N -> W -> W)
    (cmd : string) (args : option (list string)) (quiet : bool) (retry : Z)
    (wait : N) (cleanup : option (W -> W)) (st st' : St) (v : string) :
  let argv := cmd :: default [] args in
  let nth_attempt := attempt popen sleep cmd argv wait cleanup (world st) in
  run popen sleep cmd args quiet retry wait cleanup st = (inr v, st') ->
  exists k : nat,
    Z.of_nat k <= retry /\
    (forall i, (i < k)%nat -> returncode (nth_attempt i).1 <> 0) /\
    returncode (nth_attempt k).1 = 0 /\
    v = output (nth_attempt k).1.
Proof.
  intros argv nth_attempt Hrun.
  destruct (run_attempts_spec popen sleep cmd argv wait cleanup retry st)
    as (res & st1 & Hrun' & Hspec).
  unfold run in Hrun.
  replace (match args with Some a => a | None => [] end)
    with (default [] args) in Hrun by (destruct args; reflexivity).
  fold argv in Hrun. rewrite Hrun in Hrun'. injection Hrun' as <- <-.
  destruct Hspec as [(_ & Hres & _)|(Hpos & k & Hk & _ & _ & Hfail & Hz & Hv)];
    [discriminate|].
  exists k. repeat split; auto. lia.
Qed.

Lemma run_success_returns_stdout_witness :
  exists k : nat,
    Z.of_nat k <= 5 /\
    (forall i, (i < k)%nat ->
       returncode (attempt (Sample.flaky 2) Sample.no_sleep "vos" ["vos"] 1%N None
                     O i).1 <> 0) /\
    returncode (attempt (Sample.flaky 2) Sample.no_sleep "vos" ["vos"] 1%N None
                  O k).1 = 0 /\
    "done" = output (attempt (Sample.flaky 2) Sample.no_sleep "vos" ["vos"] 1%N None
                       O k).1.
Proof.
  apply (run_success_returns_stdout (Sample.flaky 2) Sample.no_sleep
           "vos" None false 5 1%N None Sample.start
           (mkSt 3%nat (attempts_events "vos" ["vos"] 1%N (@None (nat -> nat)) 2))
           "done").
  reflexivity.
Defined.

(** C3, as stated, fails: no function of the value that [run] returns
    gives the standard error of the succeeding attempt, since two commands
    that print the same standard output and different standard errors make
    [run] return the same value. *)
Lemma run_result_omits_stderr :
  ~ exists stderr_of : string -> string,
      forall (popen : string -> list string -> nat -> completed * nat)
             (v : string) (st' : St),
        run popen Sample.no_sleep "ls" None false 0 1%N None Sample.start
          = (inr v, st') ->
        stderr_of v = error (popen "ls" ["ls"] O).1.
Proof.
  intros [stderr_of H].
  pose proof (H Sample.quiet_ok "out" _ eq_refl) as Hq.
  pose proof (H Sample.noisy_ok "out" _ eq_refl) as Hn.
  cbn in Hq, Hn. congruence.
Qed.

(** C4.  With a clean-up action set, whatever the children do and however
    the call ends, the events of the call are a first spawn followed by
    [k] times (sleep, clean-up, spawn), where [k] is the number of retries
    made; so the clean-up runs once before each retry, never before the
    first attempt, [k] times in all, and the world at the end is the one
    reached by applying it once between the sleep and the spawn of each
    retry.  (With a negative retry count nothing is attempted at all.) *)
Theorem run_cleanup_once_per_retry {W : Type}
    (popen : string -> list string -> W -> completed * W) (sleep : N -> W -> W)
    (cmd : string) (args : option (list string)) (quiet : bool) (retry : Z)
    (wait : N) (c : W -> W) (st : St) :
  let argv := cmd :: default [] args in
  exists res st' evs (k : nat),
    run popen sleep cmd args quiet retry wait (Some c) st = (res, st') /\
    trace st' = trace st ++ evs /\
    ((retry < 0 /\ evs = [] /\ k = O) \/
     (evs = EvSpawn cmd argv
            :: concat (repeat [EvSleep wait; EvCleanup; EvSpawn cmd argv] k) /\
      world st' = (attempt popen sleep cmd argv wait (Some c) (world st) k).2)) /\
    count_events is_cleanup evs = k /\
    (count_events is_spawn evs - 1)%nat = k.
Proof.
  intros argv.
  destruct (run_attempts_spec popen sleep cmd argv wait (Some c) retry st)
    as (res & st' & Hrun & Hspec).
  exists res, st'.
  assert (Hrun' : run popen sleep cmd args quiet retry wait (Some c) st = (res, st')).
  { unfold run. destruct args; exact Hrun. }
  destruct Hspec as [(Hneg & _ & ->)|(_ & k & _ & Htr & Hwo & _)].
  - exists [], O. rewrite app_nil_r. repeat split; auto.
  - exists (attempts_events cmd argv wait (Some c) k), k.
    split; [exact Hrun'|]. split; [exact Htr|]. split.
    { right. split; [reflexivity | exact Hwo]. }
    rewrite count_cleanup_attempts, count_spawn_attempts. split; [reflexivity | lia].
Qed.

(** C5.  When [run] raises [CommandFailed], the retry count is not
    negative, every attempt exited non-zero, and the exception carries the
    program, the argument vector with the program in front, and the exit
    code, standard output and standard error of the last attempt; its
    exit code is not 0.  [run] is the only place where the module builds a
    [CommandFailed]. *)
Theorem run_failure_carries_last_attempt {W : Type}
    (popen : string -> list string -> W -> completed * W) (sleep : N -> W -> W)
    (cmd : string) (args : option (list string)) (quiet : bool) (retry : Z)
    (wait : N) (cleanup : option (W -> W)) (st st' : St) (cf : CommandFailed) :
  let argv := cmd :: default [] args in
  let nth_attempt := attempt popen sleep cmd argv wait cleanup (world st) in
  run popen sleep cmd args quiet retry wait cleanup st
    = (inl (ExCommandFailed cf), st') ->
  0 <= retry /\
  (forall i, (i <= Z.to_nat retry)%nat -> returncode (nth_attempt i).1 <> 0) /\
  cf_cmd cf = cmd /\
  cf_args cf = argv /\
  cf_code cf = returncode (nth_attempt (Z.to_nat retry)).1 /\
  cf_out cf = output (nth_attempt (Z.to_nat retry)).1 /\
  cf_err cf = error (nth_attempt (Z.to_nat retry)).1 /\
  cf_code cf <> 0.
Proof.
  intros argv nth_attempt Hrun.
  destruct (run_attempts_spec popen sleep cmd argv wait cleanup retry st)
    as (res & st1 & Hrun' & Hspec).
  unfold run in Hrun.
  replace (match args with Some a => a | None => [] end)
    with (default [] args) in Hrun by (destruct args; reflexivity).
  fold argv in Hrun. rewrite Hrun in Hrun'. injection Hrun' as <- <-.
  destruct Hspec as [(_ & Hres & _)|(Hpos & k & Hk & _ & _ & Hfail & -> & Hnz & He)];
    [discriminate|].
  injection He as ->. cbn.
  repeat split; auto.
  intros i Hi. destruct (decide (i = Z.to_nat retry)) as [->|Hne]; [exact Hnz|].
  apply Hfail. lia.
Qed.

Lemma run_failure_carries_last_attempt_witness :
  0 <= 2 /\
  (forall i, (i <= Z.to_nat 2)%nat ->
     returncode (attempt Sample.always_fail Sample.no_sleep "false" ["false"] 1%N
                   None O i).1 <> 0) /\
  cf_cmd (mkCommandFailed "false" ["false"] 1 "" "boom") = "false" /\
  cf_args (mkCommandFailed "false" ["false"] 1 "" "boom") = ["false"] /\
  cf_code (mkCommandFailed "false" ["false"] 1 "" "boom")
    = returncode (attempt Sample.always_fail Sample.no_sleep "false" ["false"] 1%N
                    None O (Z.to_nat 2)).1 /\
  cf_out (mkCommandFailed "false" ["false"] 1 "" "boom")
    = output (attempt Sample.always_fail Sample.no_sleep "false" ["false"] 1%N
                None O (Z.to_nat 2)).1 /\
  cf_err (mkCommandFailed "false" ["false"] 1 "" "boom")
    = error (attempt Sample.always_fail Sample.no_sleep "false" ["false"] 1%N
               None O (Z.to_nat 2)).1 /\
  cf_code (mkCommandFailed "false" ["false"] 1 "" "boom") <> 0.
Proof.
  apply (run_failure_carries_last_attempt Sample.always_fail Sample.no_sleep
           "false" None false 2 1%N None Sample.start
           (mkSt 3%nat (attempts_events "false" ["false"] 1%N (@None (nat -> nat)) 2))
           (mkCommandFailed "false" ["false"] 1 "" "boom")).
  reflexivity.
Defined.

(** ** The path finder *)

Lemma rpartition_head_empty (p : string) :
  (Py.rpartition_slash p).1 = EmptyString <-> Py.contains Py.slash p = false.
Proof.
  induction p as [|a r IH]; [cbn; tauto|].
  cbn [Py.rpartition_slash Py.contains].
  destruct (Py.rpartition_slash r) as [h t]. cbn [fst] in IH.
  destruct h as [|b h'].
  - destruct (Ascii.eqb a Py.slash) eqn:E; cbn.
    + split; discriminate.
    + destruct IH as [IH _]. rewrite (IH eq_refl). tauto.
  - cbn. destruct IH as [_ IH]. split; [discriminate|].
    intros H. apply orb_false_iff in H as [_ H]. specialize (IH H). discriminate.
Qed.

Lemma rstrip_empty_all_slashes (s : string) :
  Py.rstrip Py.slash s = EmptyString -> Py.all_slashes s = true.
Proof.
  induction s as [|a r IH]; [reflexivity|].
  cbn [Py.rstrip Py.all_slashes].
  destruct (Py.rstrip Py.slash r) eqn:E; [|discriminate].
  destruct (Ascii.eqb a Py.slash); [|discriminate].
  intros _. rewrite IH; reflexivity.
Qed.

(** [os.path.split] gives a non-empty directory part exactly for the
    names that contain a separator. *)
Lemma os_path_split_dirname (p : string) :
  negb (String.eqb (Py.os_path_split p).1 EmptyString) = Py.contains Py.slash p.
Proof.
  unfold Py.os_path_split.
  pose proof (rpartition_head_empty p) as Hh.
  destruct (Py.rpartition_slash p) as [h t]. cbn [fst] in *.
  destruct h as [|b h'].
  - cbn. destruct Hh as [Hh _]. rewrite (Hh eq_refl). reflexivity.
  - assert (Hc : Py.contains Py.slash p = true).
    { destruct (Py.contains Py.slash p); [reflexivity|].
      destruct Hh as [_ Hh]. specialize (Hh eq_refl). discriminate. }
    rewrite Hc. cbn [String.eqb negb andb].
    destruct (Py.all_slashes (String b h')) eqn:Ha; cbn [negb]; [reflexivity|].
    destruct (Py.rstrip Py.slash (String b h')) eqn:Hr; [|reflexivity].
    apply rstrip_empty_all_slashes in Hr. congruence.
Qed.

Section WhichFacts.

Context {W : Type}.
Variable os_path_isfile : string -> W -> bool.
Variable os_access_X_OK : string -> W -> bool.
Variable os_environ : string -> W -> option string.

Lemma which_search_find (program : string) (paths : list string) (w : W) :
  which_search os_path_isfile os_access_X_OK program paths w
  = option_map (candidate program)
      (List.find (fun path => executable os_path_isfile os_access_X_OK w
                                (candidate program path)) paths).
Proof.
  induction paths as [|path rest IH]; [reflexivity|].
  cbn [which_search List.find]. unfold executable, candidate in *.
  destruct (os_path_isfile _ w && os_access_X_OK _ w); [reflexivity | exact IH].
Qed.

(** C6, as the code has it.  A name with a separator is returned unchanged
    when it is an executable file; otherwise the result is absent, or an
    [AssertionError] in strict mode.  A name without a separator is looked
    for in the entries of [PATH] followed by the extra paths, in that
    order, each entry stripped of the double quotes around it: the result
    is the joined name for the first entry under which it is an executable
    file; when there is none the result is absent, or an [AssertionError]
    in strict mode too.  Without a [PATH] in the environment the search
    raises [KeyError]. *)
Theorem which_spec (program : string) (extra_paths : option (list string))
    (raise_errors : bool) (w : W) :
  which os_path_isfile os_access_X_OK os_environ program extra_paths raise_errors w
  = if Py.contains Py.slash program then
      if executable os_path_isfile os_access_X_OK w program then inr (Some program)
      else if raise_errors then
        inl (AssertionError ("Program '" +:+ program +:+ "' is not an executable file."))
      else inr None
    else
      match os_environ "PATH" w with
      | None => inl (KeyError "PATH")
      | Some path_var =>
          let paths := Py.split ":" path_var ++ default [] extra_paths in
          match List.find (fun path => executable os_path_isfile os_access_X_OK w
                                         (candidate program path)) paths with
          | Some path => inr (Some (candidate program path))
          | None =>
              if raise_errors then
                inl (AssertionError ("Could not find '" +:+ program +:+ "' in paths "
                                       +:+ Py.join "," paths))
              else inr None
          end
      end.
Proof.
  unfold which. pose proof (os_path_split_dirname program) as Hd.
  destruct (Py.os_path_split program) as [dirname basename]. cbn [fst] in Hd.
  rewrite Hd. destruct (Py.contains Py.slash program); [reflexivity|].
  destruct (os_environ "PATH" w) as [path_var|]; [|reflexivity].
  assert (Hp : match extra_paths with
               | Some (e :: es) => Py.split ":" path_var ++ e :: es
               | _ => Py.split ":" path_var
               end = Py.split ":" path_var ++ default [] extra_paths).
  { destruct extra_paths as [[|e es]|]; cbn; rewrite ?app_nil_r; reflexivity. }
  rewrite Hp, which_search_find. cbn zeta.
  destruct (List.find _ _); reflexivity.
Qed.

End WhichFacts.

(** C6, as stated, fails: in strict mode a name without a separator that
    no entry of the search list holds is not answered with absent; an
    [AssertionError] is raised. *)
Lemma which_strict_search_raises :
  Py.contains Py.slash "afsd" = false /\
  which Sample.ls_isfile Sample.ls_access Sample.ls_environ "afsd" None true tt
    = inl (AssertionError "Could not find 'afsd' in paths /usr/bin,/bin") /\
  which Sample.ls_isfile Sample.ls_access Sample.ls_environ "afsd" None true tt
    <> inr None.
Proof. repeat split. discriminate. Qed.

Example which_ls :
  which Sample.ls_isfile Sample.ls_access Sample.ls_environ "ls" None false tt
    = inr (Some "/bin/ls") /\
  which Sample.ls_isfile Sample.ls_access Sample.ls_environ "/bin/ls" None false tt
    = inr (Some "/bin/ls") /\
  which Sample.ls_isfile Sample.ls_access Sample.ls_environ "/bin/nonexistent" None
        false tt
    = inr None.
Proof. repeat split. Qed.

(** ** The process inventory *)

Lemma drop_short (n : nat) (s : string) :
  (String.length s <= n)%nat -> Py.drop n s = EmptyString.
Proof.
  revert s. induction n as [|n IH]; intros [|c r] H; cbn in *; try reflexivity; try lia.
  apply IH. lia.
Qed.

Lemma split_ws_whitespace_only (s : string) :
  whitespace_only s = true -> Py.split_ws s = [].
Proof.
  induction s as [|c r IH]; [reflexivity|].
  cbn [whitespace_only Py.split_ws]. intros H.
  apply andb_true_iff in H as [Hc Hr]. rewrite Hc. exact (IH Hr).
Qed.

(** A line whose command field is empty or blank makes the loop raise,
    wherever it stands and whatever was collected before. *)
Lemma get_running_lines_index_error (column : nat) (line : string)
    (lines : list string) :
  line ∈ lines ->
  whitespace_only (Py.drop column line) = true ->
  forall procs, get_running_lines column lines procs = inl IndexError.
Proof.
  intros Hin Hws. induction lines as [|l rest IH]; intros procs.
  - inversion Hin.
  - cbn [get_running_lines].
    destruct (decide (l = line)) as [->|Hne].
    + destruct (Py.drop column line) as [|c r] eqn:E; [reflexivity|].
      rewrite (split_ws_whitespace_only _ Hws).
      cbn [whitespace_only] in Hws. apply andb_true_iff in Hws as [Hc _].
      destruct (Ascii.eqb c "[") eqn:Hb; [|reflexivity].
      apply Ascii.eqb_eq in Hb. subst c. discriminate.
    + assert (Hin' : line ∈ rest).
      { apply elem_of_cons in Hin as [Heq|Hin']; [congruence | exact Hin']. }
      destruct (Py.drop column l) as [|c r]; [reflexivity|].
      destruct (Ascii.eqb c "["); [apply IH; exact Hin'|].
      destruct (Py.split_ws (String c r)); [reflexivity | apply IH; exact Hin'].
Qed.

(** C10.  When the text printed by [ps] has a header with a COMMAND column
    and, after the header, a line that is shorter than the column offset or
    whose command field is blank, the parse raises [IndexError]; so does
    [get_running] once [which] has found [ps] and [ps] has printed that
    text. *)
Theorem get_running_parse_index_error {W : Type}
    (popen : string -> list string -> W -> completed * W) (sleep : N -> W -> W)
    (os_path_isfile os_access_X_OK : string -> W -> bool)
    (os_environ : string -> W -> option string)
    (out header : string) (body : list string) (column : nat) (line : string) :
  Py.splitlines out = header :: body ->
  Py.find "COMMAND" header = Some column ->
  line ∈ body ->
  (String.length line < column)%nat \/ whitespace_only (Py.drop column line) = true ->
  get_running_parse out = inl IndexError /\
  forall (ps : string) (st st' : St),
    which os_path_isfile os_access_X_OK os_environ "ps" None false (world st)
      = inr (Some ps) ->
    run_default popen sleep ps (Some ["ax"]) st = (inr out, st') ->
    get_running popen sleep os_path_isfile os_access_X_OK os_environ st
      = (inl IndexError, st').
Proof.
  intros Hlines Hcol Hin Hbad.
  assert (Hparse : get_running_parse out = inl IndexError).
  { unfold get_running_parse. rewrite Hlines, Hcol.
    apply (get_running_lines_index_error column line); [exact Hin|].
    destruct Hbad as [Hshort|Hws]; [|exact Hws].
    rewrite drop_short by lia. reflexivity. }
  split; [exact Hparse|].
  intros ps st st' Hwhich Hrun.
  unfold get_running, bind, gets, lift_result. rewrite Hwhich, Hrun, Hparse.
  reflexivity.
Qed.

Lemma get_running_parse_index_error_witness :
  get_running_parse Sample.ps_short_output = inl IndexError /\
  forall (ps : string) (st st' : St),
    which Sample.ps_isfile Sample.ps_isfile Sample.ps_environ "ps" None false (world st)
      = inr (Some ps) ->
    run_default Sample.ps_popen Sample.no_sleep ps (Some ["ax"]) st
      = (inr Sample.ps_short_output, st') ->
    get_running Sample.ps_popen Sample.no_sleep Sample.ps_isfile Sample.ps_isfile
      Sample.ps_environ st
      = (inl IndexError, st').
Proof.
  apply (get_running_parse_index_error Sample.ps_popen Sample.no_sleep
           Sample.ps_isfile Sample.ps_isfile Sample.ps_environ
           Sample.ps_short_output Sample.ps_header
           ["    1 ?        Ss     0:01 /sbin/init"; "   22 ?"] 27 "   22 ?").
  - reflexivity.
  - reflexivity.
  - apply elem_of_cons. right. apply elem_of_cons. left. reflexivity.
  - left. simpl. lia.
Defined.

Example get_running_short_line :
  get_running Sample.ps_popen Sample.no_sleep Sample.ps_isfile Sample.ps_isfile
    Sample.ps_environ Sample.start
  = (inl IndexError, mkSt 1%nat [EvSpawn "/bin/ps" ["/bin/ps"; "ax"]]).
Proof. reflexivity. Qed.

(** ** Unloading the kernel module *)

Section UnloadFacts.

Context {W : Type}.
Variable popen : string -> list string -> W -> completed * W.
Variable sleep : N -> W -> W.

(** A call of [run] with the default retry count starts one child. *)
Lemma run_default_unfold (cmd : string) (args : option (list string)) (st : St) :
  run_default popen sleep cmd args st =
  let argv := cmd :: default [] args in
  let r := popen cmd argv (world st) in
  let st1 := mkSt r.2 (trace st ++ [EvSpawn cmd argv]) in
  if Z.eqb (returncode r.1) 0 then (inr (output r.1), st1)
  else (inl (ExCommandFailed
               (mkCommandFailed cmd argv (returncode r.1) (output r.1) (error r.1))),
        st1).
Proof.
  unfold run_default, run.
  replace (match args with Some a => a | None => [] end)
    with (default [] args) by (destruct args; reflexivity).
  change (xrange0 (0 + 1)) with [O].
  rewrite first_unfold. cbn zeta.
  destruct (Z.eqb _ 0); reflexivity.
Qed.

Lemma run_default_trace (cmd : string) (args : option (list string))
    (st st' : St) (res : exn + string) :
  run_default popen sleep cmd args st = (res, st') ->
  trace st' = trace st ++ [EvSpawn cmd (cmd :: default [] args)].
Proof.
  rewrite run_default_unfold. cbn zeta.
  destruct (Z.eqb _ 0); intros H; injection H as _ <-; reflexivity.
Qed.

(** C8.  When the module is not loaded, unloading it does nothing.  On
    Linux: when [lsmod] has run and no record of what it printed matches
    the pattern, [_linux_unload_module] completes in the state that [lsmod]
    left, having started [lsmod] and nothing else.  On Solaris: when the
    look-up of the module id gives the integer 0, [_solaris_unload_module]
    completes in the state that the look-up left, having started
    [modinfo] and nothing else. *)
Theorem unload_module_not_loaded_noop :
  (forall (st st1 : St) (output : string),
     run_default popen sleep "/sbin/lsmod" None st = (inr output, st1) ->
     Re.findall true lsmod_pattern output = [] ->
     _linux_unload_module popen sleep st = (inr tt, st1) /\
     trace st1 = trace st ++ [EvSpawn "/sbin/lsmod" ["/sbin/lsmod"]]) /\
  (forall (st st1 : St),
     _solaris_is_loaded popen sleep "afs" st = (inr (PyInt 0), st1) ->
     _solaris_unload_module popen sleep st = (inr tt, st1) /\
     trace st1 = trace st ++ [EvSpawn "/usr/sbin/modinfo" ["/usr/sbin/modinfo"; "-w"]]).
Proof.
  split.
  - intros st st1 output Hrun Hnone. split.
    + unfold _linux_unload_module, bind. rewrite Hrun, Hnone. reflexivity.
    + exact (run_default_trace _ _ _ _ _ Hrun).
  - intros st st1 Hloaded. split.
    + unfold _solaris_unload_module, bind. rewrite Hloaded. reflexivity.
    + unfold _solaris_is_loaded, bind, lift_result in Hloaded.
      destruct (run_default popen sleep "/usr/sbin/modinfo" (Some ["-w"]) st)
        as [[e|out] st2] eqn:Hrun; [discriminate|].
      injection Hloaded as _ <-.
      exact (run_default_trace _ _ _ _ _ Hrun).
Qed.

End UnloadFacts.

Lemma unload_module_not_loaded_noop_witness :
  (_linux_unload_module Sample.unloaded_host Sample.no_sleep Sample.start
     = (inr tt, mkSt 1%nat [EvSpawn "/sbin/lsmod" ["/sbin/lsmod"]]) /\
   trace (mkSt 1%nat [EvSpawn "/sbin/lsmod" ["/sbin/lsmod"]])
     = trace Sample.start ++ [EvSpawn "/sbin/lsmod" ["/sbin/lsmod"]]) /\
  (_solaris_unload_module Sample.unloaded_host Sample.no_sleep Sample.start
     = (inr tt, mkSt 1%nat [EvSpawn "/usr/sbin/modinfo" ["/usr/sbin/modinfo"; "-w"]]) /\
   trace (mkSt 1%nat [EvSpawn "/usr/sbin/modinfo" ["/usr/sbin/modinfo"; "-w"]])
     = trace Sample.start ++ [EvSpawn "/usr/sbin/modinfo" ["/usr/sbin/modinfo"; "-w"]]).
Proof.
  split.
  - apply (proj1 (unload_module_not_loaded_noop Sample.unloaded_host Sample.no_sleep)
             Sample.start _ Sample.lsmod_output).
    + reflexivity.
    + vm_compute. reflexivity.
  - apply (proj2 (unload_module_not_loaded_noop Sample.unloaded_host Sample.no_sleep)
             Sample.start _).
    vm_compute. reflexivity.
Defined.

(** ** Symbolic links *)

(** Closes an equation between closed terms by evaluating both sides. *)
Ltac by_evaluation :=
  lazymatch goal with
  | |- @eq ?T ?l ?r => vm_cast_no_check (@eq_refl T r)
  end.

Lemma follow_unfold (fuel : nat) (fs : FS) (p : string) :
  Os.follow fuel fs p =
  match fs !! p with
  | None => None
  | Some (Link t) =>
      match fuel with
      | O => None
      | S fuel' => Os.follow fuel' fs (Os.link_dest p t)
      end
  | Some n => Some (p, n)
  end.
Proof. destruct fuel; reflexivity. Qed.

(** On a name that is not a link, [os.stat] finds the object itself. *)
Lemma stat_not_link (fs : FS) (p : string) :
  Os.path_islink fs p = false -> Os.stat fs p = fs !! p.
Proof.
  unfold Os.path_islink, Os.stat. rewrite follow_unfold.
  destruct (fs !! p) as [[| |t|]|]; intros H; try reflexivity. discriminate.
Qed.

Lemma islink_lookup (fs : FS) (p : string) (n : node) :
  fs !! p = Some n -> (forall t, n <> Link t) -> Os.path_islink fs p = false.
Proof.
  intros H Hn. unfold Os.path_islink. rewrite H.
  destruct n; try reflexivity. exfalso. exact (Hn _ eq_refl).
Qed.

Lemma follow_insert_other (fs : FS) (d : string) (n : node) (fuel : nat) :
  forall p, Os.passes_through fuel fs p d = false ->
            Os.follow fuel (<[d := n]> fs) p = Os.follow fuel fs p.
Proof.
  induction fuel as [|fuel IH]; intros p H; cbn [Os.passes_through] in H;
    apply orb_false_iff in H as [Hne H]; apply String.eqb_neq in Hne;
    rewrite (follow_unfold _ (<[d := n]> fs)), (follow_unfold _ fs);
    rewrite lookup_insert_ne by congruence;
    destruct (fs !! p) as [[| |t|]|]; try reflexivity.
  apply IH. exact H.
Qed.

Lemma isfile_insert_other (fs : FS) (src dst : string) (n : node) :
  Os.reaches fs src dst = false ->
  Os.path_isfile (<[dst := n]> fs) src = Os.path_isfile fs src.
Proof.
  intros H. unfold Os.path_isfile, Os.stat.
  rewrite (follow_insert_other fs dst n Os.SYMLOOP_MAX src H). reflexivity.
Qed.

(** A destination that passes the second check of [symlink] is either
    free or a symbolic link. *)
Lemma dst_free_or_link (fs : FS) (dst : string) :
  Os.path_exists fs dst && negb (Os.path_islink fs dst) = false ->
  fs !! dst = None \/ exists t, fs !! dst = Some (Link t).
Proof.
  intros H. destruct (Os.path_islink fs dst) eqn:Hl.
  - right. unfold Os.path_islink in Hl.
    destruct (fs !! dst) as [[| |t|]|]; try discriminate. eauto.
  - left. rewrite andb_true_r in H. unfold Os.path_exists in H.
    rewrite (stat_not_link _ _ Hl) in H.
    destruct (fs !! dst); [discriminate | reflexivity].
Qed.

(** What a call of [symlink] that gets past its two checks does. *)
Lemma symlink_creates (fs : FS) (src dst : string) :
  Os.path_isfile fs src = true ->
  Os.path_exists fs dst && negb (Os.path_islink fs dst) = false ->
  symlink src dst fs = (inr tt, <[dst := Link src]> (delete dst fs)).
Proof.
  intros Hsrc Hdst. unfold symlink, bind, gets. rewrite Hsrc. cbn [negb].
  rewrite Hdst. unfold Os.path_islink, Os.remove, Os.symlink, ret.
  destruct (dst_free_or_link fs dst Hdst) as [Hd|[t Hd]]; rewrite Hd.
  - rewrite Hd. rewrite delete_id by exact Hd. reflexivity.
  - cbn beta iota. rewrite Hd, lookup_delete_eq. reflexivity.
Qed.

Lemma symlink_succeeds_inv (fs fs1 : FS) (src dst : string) :
  symlink src dst fs = (inr tt, fs1) ->
  Os.path_isfile fs src = true /\
  Os.path_exists fs dst && negb (Os.path_islink fs dst) = false.
Proof.
  unfold symlink, bind, gets, raise.
  destruct (Os.path_isfile fs src); cbn [negb]; [|discriminate].
  destruct (Os.path_exists fs dst && negb (Os.path_islink fs dst)); [discriminate|].
  auto.
Qed.

Lemma symlink_success (fs fs1 : FS) (src dst : string) :
  symlink src dst fs = (inr tt, fs1) ->
  fs1 = <[dst := Link src]> fs /\
  Os.path_isfile fs src = true /\
  (fs !! dst = None \/ exists t, fs !! dst = Some (Link t)).
Proof.
  intros H. destruct (symlink_succeeds_inv _ _ _ _ H) as [Hsrc Hdst].
  rewrite (symlink_creates _ _ _ Hsrc Hdst) in H. injection H as <-.
  rewrite insert_delete_eq. auto using dst_free_or_link.
Qed.

(** C7, as the code has it.  [symlink] fails, changing nothing, when the
    source is not an existing regular file, and when the destination
    exists and is not a symbolic link, as when it is a regular file.  When
    the source is a regular file and the destination a symbolic link, the
    old link is removed and the new one created.  After a call that
    succeeded, a second call with the same arguments succeeds, changes
    nothing and leaves the destination a link with the source as target,
    provided the look-up of the source did not pass through the
    destination.  Names are looked up as they are written: a source named
    through a directory that is itself a symbolic link lies outside this
    model of the file system. *)
Theorem symlink_spec :
  (forall (fs : FS) (src dst : string),
     Os.path_isfile fs src = false ->
     symlink src dst fs
       = (inl (AssertionError ("Failed to make symlink: src " +:+ src +:+ " not found")),
          fs)) /\
  (forall (fs : FS) (src dst : string),
     Os.path_exists fs dst = true -> Os.path_islink fs dst = false ->
     exists msg, symlink src dst fs = (inl (AssertionError msg), fs)) /\
  (forall (fs : FS) (src dst : string),
     fs !! dst = Some File ->
     exists msg, symlink src dst fs = (inl (AssertionError msg), fs)) /\
  (forall (fs : FS) (src dst t : string),
     Os.path_isfile fs src = true -> fs !! dst = Some (Link t) ->
     symlink src dst fs = (inr tt, <[dst := Link src]> (delete dst fs))) /\
  (forall (fs fs1 : FS) (src dst : string),
     symlink src dst fs = (inr tt, fs1) ->
     Os.reaches fs src dst = false ->
     symlink src dst fs1 = (inr tt, fs1) /\ fs1 !! dst = Some (Link src)).
Proof.
  assert (Hexists : forall (fs : FS) (src dst : string),
            Os.path_exists fs dst = true -> Os.path_islink fs dst = false ->
            exists msg, symlink src dst fs = (inl (AssertionError msg), fs)).
  { intros fs src dst He Hl. unfold symlink, bind, gets, raise.
    destruct (Os.path_isfile fs src); cbn [negb]; [|eauto].
    rewrite He, Hl. cbn. eauto. }
  assert (Htwice : forall (fs fs1 : FS) (src dst : string),
            symlink src dst fs = (inr tt, fs1) ->
            Os.reaches fs src dst = false ->
            symlink src dst fs1 = (inr tt, fs1) /\ fs1 !! dst = Some (Link src)).
  { intros fs fs1 src dst Hfirst Havoid.
    destruct (symlink_succeeds_inv _ _ _ _ Hfirst) as [Hsrc Hdst].
    rewrite (symlink_creates _ _ _ Hsrc Hdst) in Hfirst.
    injection Hfirst as <-. rewrite insert_delete_eq.
    split; [|apply lookup_insert_eq].
    rewrite symlink_creates.
    + rewrite insert_delete_eq, insert_insert_eq. reflexivity.
    + rewrite isfile_insert_other by exact Havoid. exact Hsrc.
    + unfold Os.path_islink. rewrite lookup_insert_eq. apply andb_false_r. }
  split; [|split; [exact Hexists|split; [|split; [|exact Htwice]]]].
  - intros fs src dst Hsrc. unfold symlink, bind, gets, raise. rewrite Hsrc.
    reflexivity.
  - intros fs src dst Hd. apply Hexists.
    + unfold Os.path_exists. rewrite stat_not_link, Hd; [reflexivity|].
      apply (islink_lookup _ _ _ Hd). discriminate.
    + apply (islink_lookup _ _ _ Hd). discriminate.
  - intros fs src dst t Hsrc Hd. apply symlink_creates; [exact Hsrc|].
    unfold Os.path_islink. rewrite Hd. apply andb_false_r.
Qed.

Lemma symlink_spec_witness :
  symlink "/tmp/t/xyzzy" "/tmp/t/plugh"
      (<["/tmp/t/plugh" := Link "/tmp/t/xyzzy"]> SampleFS.scratch)
    = (inr tt, <["/tmp/t/plugh" := Link "/tmp/t/xyzzy"]> SampleFS.scratch) /\
  <["/tmp/t/plugh" := Link "/tmp/t/xyzzy"]> SampleFS.scratch !! "/tmp/t/plugh"
    = Some (Link "/tmp/t/xyzzy").
Proof.
  refine (proj2 (proj2 (proj2 (proj2 symlink_spec))) SampleFS.scratch
            (<["/tmp/t/plugh" := Link "/tmp/t/xyzzy"]> SampleFS.scratch)
            "/tmp/t/xyzzy" "/tmp/t/plugh" _ _).
  - by_evaluation.
  - by_evaluation.
Defined.

(** C7, as stated, fails: with a source that is reached through the
    destination, the first call succeeds and turns the two names into a
    loop, so that the second call finds no regular file at the source and
    fails. *)
Lemma symlink_twice_fails_through_link :
  Os.path_isfile SampleFS.chained "/lib/libafs.so" = true /\
  Os.path_islink SampleFS.chained "/lib/libafs.so.1" = true /\
  symlink "/lib/libafs.so" "/lib/libafs.so.1" SampleFS.chained
    = (inr tt, SampleFS.looped) /\
  symlink "/lib/libafs.so" "/lib/libafs.so.1" SampleFS.looped
    = (inl (AssertionError "Failed to make symlink: src /lib/libafs.so not found"),
       SampleFS.looped).
Proof.
  split; [|split; [|split]].
  - by_evaluation.
  - by_evaluation.
  - by_evaluation.
  - by_evaluation.
Qed.

(** ** The shared-library symlink farm *)

Lemma prefix_cons (x y : ascii) (a b : string) :
  String.prefix (String x a) (String y b)
  = if Ascii.ascii_dec x y then String.prefix a b else false.
Proof. reflexivity. Qed.

Lemma append_cons (c : ascii) (a b : string) :
  String c a +:+ b = String c (a +:+ b).
Proof. reflexivity. Qed.

Lemma prefix_drop (a k : string) :
  String.prefix a k = true -> k = a +:+ Py.drop (String.length a) k.
Proof.
  revert k. induction a as [|c a IH]; intros k H; [reflexivity|].
  destruct k as [|c' k]; [discriminate|]. rewrite prefix_cons in H.
  destruct (Ascii.ascii_dec c c') as [->|Hne]; [|discriminate].
  rewrite append_cons. cbn [String.length Py.drop]. f_equal. apply IH. exact H.
Qed.

Lemma append_empty_r (s : string) : s +:+ EmptyString = s.
Proof.
  induction s as [|c s IH]; [reflexivity|]. rewrite append_cons, IH. reflexivity.
Qed.

Lemma append_assoc (a b c : string) : (a +:+ b) +:+ c = a +:+ (b +:+ c).
Proof.
  induction a as [|x a IH]; [reflexivity|]. rewrite !append_cons, IH. reflexivity.
Qed.

Lemma prefix_append (a b c : string) :
  String.prefix a b = true -> String.prefix a (b +:+ c) = true.
Proof.
  revert b. induction a as [|x a IH]; intros b H;
    [destruct (b +:+ c); reflexivity|].
  destruct b as [|y b]; [discriminate|]. rewrite append_cons, prefix_cons in *.
  destruct (Ascii.ascii_dec x y); [apply IH; exact H | discriminate].
Qed.

(** The name of an entry is what [os.path.join] puts after the directory. *)
Lemma os_path_join_entry (d n : string) :
  Py.contains Py.slash n = false ->
  Py.os_path_join d n = Py.os_path_join d EmptyString +:+ n.
Proof.
  intros Hn. unfold Py.os_path_join.
  assert (Hp : String.prefix "/" n = false).
  { destruct n as [|c n]; [reflexivity|]. rewrite prefix_cons.
    cbn [Py.contains] in Hn. apply orb_false_iff in Hn as [Hc _].
    destruct (Ascii.ascii_dec "/" c) as [<-|?]; [discriminate | reflexivity]. }
  rewrite Hp. change (String.prefix "/" EmptyString) with false. cbv iota.
  destruct (String.eqb d EmptyString); [reflexivity|].
  destruct (String.eqb (Py.drop (String.length d - 1) d) "/").
  - rewrite append_empty_r. reflexivity.
  - rewrite !append_assoc. reflexivity.
Qed.

Lemma entry_name_join (d k n : string) :
  Os.entry_name d k = Some n -> k = Py.os_path_join d n.
Proof.
  unfold Os.entry_name.
  destruct (String.prefix (Py.os_path_join d EmptyString) k) eqn:Hp; [|discriminate].
  destruct (String.eqb _ EmptyString || Py.contains Py.slash _) eqn:Hn; [discriminate|].
  intros H. injection H as <-.
  apply orb_false_iff in Hn as [_ Hn].
  rewrite os_path_join_entry by exact Hn. apply prefix_drop. exact Hp.
Qed.

(** Every name that [os.listdir] gives is the name of an object. *)
Lemma listdir_entry (d n : string) (es : list string) (fs fs1 : FS) :
  Os.listdir d fs = (inr es, fs1) -> n ∈ es ->
  is_Some (fs !! Py.os_path_join d n).
Proof.
  unfold Os.listdir. destruct (Os.path_isdir fs d); [|discriminate].
  intros H Hn. injection H as <- _.
  apply list_elem_of_omap in Hn as ([k v] & Hkv & He). cbn in He.
  apply elem_of_map_to_list in Hkv.
  rewrite <- (entry_name_join _ _ _ He). eauto.
Qed.

Lemma isfile_not_link (fs : FS) (p : string) :
  Os.path_isfile fs p = true -> Os.path_islink fs p = false -> fs !! p = Some File.
Proof.
  intros Hf Hl. unfold Os.path_isfile in Hf. rewrite (stat_not_link _ _ Hl) in Hf.
  destruct (fs !! p) as [[| |t|]|]; congruence.
Qed.

(** The loop of [_so_symlinks] skips an entry only if it is a directory
    or a link. *)
Lemma skipped_is_dir_or_link (fs : FS) (p : string) (n : node) :
  fs !! p = Some n -> Os.path_isdir fs p || Os.path_islink fs p = true ->
  n = Dir \/ exists t, n = Link t.
Proof.
  intros H Hskip. destruct (Os.path_islink fs p) eqn:Hl.
  - unfold Os.path_islink in Hl. rewrite H in Hl. destruct n; try discriminate. eauto.
  - rewrite orb_false_r in Hskip. unfold Os.path_isdir in Hskip.
    rewrite (stat_not_link _ _ Hl), H in Hskip. destruct n; try discriminate. auto.
Qed.

Lemma same_non_links_refl (fs : FS) : same_non_links fs fs.
Proof. intros p n _. tauto. Qed.

Lemma same_non_links_trans (fs1 fs2 fs3 : FS) :
  same_non_links fs1 fs2 -> same_non_links fs2 fs3 -> same_non_links fs1 fs3.
Proof.
  intros H12 H23 p n Hn. rewrite (H12 p n Hn). apply H23. exact Hn.
Qed.

Lemma same_non_links_insert (fs : FS) (dst src : string) :
  fs !! dst = None \/ (exists t, fs !! dst = Some (Link t)) ->
  same_non_links fs (<[dst := Link src]> fs).
Proof.
  intros Hd p n Hn. destruct (decide (dst = p)) as [<-|Hne].
  - rewrite lookup_insert_eq. split.
    + intros H. destruct Hd as [Hd|[t Hd]]; rewrite Hd in H; [discriminate|].
      injection H as <-. exfalso. exact (Hn t eq_refl).
    + intros H. injection H as <-. exfalso. exact (Hn src eq_refl).
  - rewrite lookup_insert_ne by exact Hne. tauto.
Qed.

(** What one round of the loop of [_so_symlinks] has done when it
    completes. *)
Lemma so_symlinks_entry_success (d n : string) (fs fs1 : FS) :
  so_symlinks_entry d n fs = (inr tt, fs1) ->
  let f := Py.os_path_join d n in
  same_non_links fs fs1 /\
  (forall p, fs1 !! p = fs !! p \/
             (fs !! f = Some File /\ p ∈ so_link_names f /\ fs1 !! p = Some (Link f))) /\
  (fs !! f = Some File ->
   forall p, p ∈ so_link_names f -> fs1 !! p = Some (Link f)) /\
  (fs !! f = Some Special -> so_groups f = None).
Proof.
  intros H f. unfold so_symlinks_entry, bind, gets, ret in H. fold f in H.
  unfold so_link_names.
  destruct (Os.path_isdir fs f || Os.path_islink fs f) eqn:Hskip.
  { injection H as <-. split; [apply same_non_links_refl|]. split; [auto|].
    split; intros Hf;
      destruct (skipped_is_dir_or_link _ _ _ Hf Hskip) as [?|[? ?]]; discriminate. }
  destruct (so_groups f) as [[[[so x] y] z]|].
  2:{ injection H as <-. split; [apply same_non_links_refl|]. split; [auto|].
      split; [|reflexivity]. intros _ p Hp. inversion Hp. }
  destruct (symlink f (so +:+ "." +:+ x +:+ "." +:+ y) fs) as [[e|[]] fsa] eqn:Ha;
    [discriminate|].
  destruct (symlink f (so +:+ "." +:+ x) fsa) as [[e|[]] fsb] eqn:Hb; [discriminate|].
  destruct (symlink_success _ _ _ _ Ha) as (-> & Hfile & Hda).
  destruct (symlink_success _ _ _ _ Hb) as (-> & _ & Hdb).
  destruct (symlink_success _ _ _ _ H) as (-> & _ & Hdc).
  apply orb_false_iff in Hskip as [_ Hnl].
  pose proof (isfile_not_link _ _ Hfile Hnl) as Hf.
  assert (Hlook : forall p, p ∈ [so +:+ "." +:+ x +:+ "." +:+ y; so +:+ "." +:+ x; so] ->
            <[so:=Link f]> (<[so +:+ "." +:+ x:=Link f]>
              (<[so +:+ "." +:+ x +:+ "." +:+ y:=Link f]> fs)) !! p = Some (Link f)).
  { intros p Hp. rewrite !lookup_insert.
    repeat case_decide; try reflexivity.
    apply elem_of_cons in Hp as [->|Hp]; [congruence|].
    apply elem_of_cons in Hp as [->|Hp]; [congruence|].
    apply elem_of_cons in Hp as [->|Hp]; [congruence|]. inversion Hp. }
  split.
  { eapply same_non_links_trans; [apply same_non_links_insert; exact Hda|].
    eapply same_non_links_trans; [apply same_non_links_insert; exact Hdb|].
    apply same_non_links_insert; exact Hdc. }
  split; [|split; [intros _; exact Hlook | intros Hsp; congruence]].
  intros p.
  destruct (decide (p ∈ [so +:+ "." +:+ x +:+ "." +:+ y; so +:+ "." +:+ x; so]))
    as [Hin|Hout].
  - right. auto.
  - left. rewrite !lookup_insert_ne; [reflexivity|..];
      intros <-; apply Hout;
      repeat first [apply list_elem_of_here | apply list_elem_of_further].
Qed.

(** What the loop of [_so_symlinks] has done when it completes: objects
    other than links are as before; a name whose object changed is a link
    name of a regular-file entry and now a link to that entry; and every
    link name of a regular-file entry is now a link to a regular-file
    entry that has this link name. *)
Lemma so_symlinks_loop_success (d : string) (es : list string) :
  forall fs fs' : FS,
    for_each es (so_symlinks_entry d) fs = (inr tt, fs') ->
    same_non_links fs fs' /\
    (forall p, fs' !! p = fs !! p \/
               exists e, e ∈ es /\ fs !! Py.os_path_join d e = Some File /\
                         p ∈ so_link_names (Py.os_path_join d e) /\
                         fs' !! p = Some (Link (Py.os_path_join d e))) /\
    (forall e, e ∈ es -> fs !! Py.os_path_join d e = Some File ->
     forall p, p ∈ so_link_names (Py.os_path_join d e) ->
       exists e', e' ∈ es /\ fs !! Py.os_path_join d e' = Some File /\
                  p ∈ so_link_names (Py.os_path_join d e') /\
                  fs' !! p = Some (Link (Py.os_path_join d e'))) /\
    (forall e, e ∈ es -> fs !! Py.os_path_join d e = Some Special ->
               so_groups (Py.os_path_join d e) = None).
Proof.
  induction es as [|e1 rest IH]; intros fs fs' H.
  - injection H as <-. split; [apply same_non_links_refl|]. split; [auto|].
    split; intros e He; inversion He.
  - cbn [for_each] in H. unfold bind in H.
    destruct (so_symlinks_entry d e1 fs) as [[ex|[]] fs1] eqn:H1; [discriminate|].
    destruct (so_symlinks_entry_success _ _ _ _ H1) as (Hs1 & Hch1 & Hl1 & Hsp1).
    destruct (IH _ _ H) as (Hs & Hch & Hl & Hsp).
    assert (Hfile : forall q, fs1 !! q = Some File <-> fs !! q = Some File).
    { intros q. symmetry. apply Hs1. discriminate. }
    assert (Hrest : forall p,
              fs' !! p = fs1 !! p \/
              exists e, e ∈ e1 :: rest /\ fs !! Py.os_path_join d e = Some File /\
                        p ∈ so_link_names (Py.os_path_join d e) /\
                        fs' !! p = Some (Link (Py.os_path_join d e))).
    { intros p. destruct (Hch p) as [Heq|(e & He & Hf & Hp & Hlk)]; [left; exact Heq|].
      right. exists e. rewrite <- Hfile. split; [right; exact He | auto]. }
    split; [exact (same_non_links_trans _ _ _ Hs1 Hs)|]. split; [|split].
    + intros p. destruct (Hrest p) as [Heq|Hex]; [|right; exact Hex].
      destruct (Hch1 p) as [Heq1|(Hf & Hp & Hlk)].
      * left. congruence.
      * right. exists e1. split; [left|]. rewrite Heq. auto.
    + intros e He Hf p Hp. apply elem_of_cons in He as [->|He].
      * destruct (Hrest p) as [Heq|Hex]; [|exact Hex].
        exists e1. split; [left|]. rewrite Heq. auto.
      * destruct (Hl e He (proj2 (Hfile _) Hf) p Hp) as (e' & He' & Hf' & Hp' & Hlk).
        exists e'. rewrite <- Hfile. split; [right; exact He' | auto].
    + intros e He Hf. apply elem_of_cons in He as [->|He]; [exact (Hsp1 Hf)|].
      apply (Hsp e He). apply Hs1; [discriminate | exact Hf].
Qed.

Lemma os_path_join_absolute (d n : string) :
  String.prefix "/" d = true -> String.prefix "/" (Py.os_path_join d n) = true.
Proof.
  intros Hd. unfold Py.os_path_join.
  destruct (String.prefix "/" n) eqn:Hn; [exact Hn|].
  destruct (String.eqb d EmptyString) eqn:He.
  { apply String.eqb_eq in He. subst d. discriminate. }
  destruct (String.eqb _ "/"); repeat apply prefix_append; exact Hd.
Qed.

(** A link with an absolute target that names a regular file resolves to
    that file. *)
Lemma realpath_link_to_file (fs : FS) (l t : string) :
  fs !! l = Some (Link t) -> String.prefix "/" t = true -> fs !! t = Some File ->
  Os.realpath fs l = Some t.
Proof.
  intros Hl Ht Hf. unfold Os.realpath, Os.SYMLOOP_MAX.
  rewrite follow_unfold, Hl.
  replace (Os.link_dest l t) with t
    by (unfold Os.link_dest, Py.os_path_join; rewrite Ht; reflexivity).
  rewrite follow_unfold, Hf. reflexivity.
Qed.

(** ** The matcher on a text with an unknown beginning *)

(** One round of a greedy star over a character class. *)
Lemma star_cls_step {R : Type} (ml : bool) (p : ascii -> bool) (before : option ascii)
    (c : ascii) (s : string) (caps : Re.captures)
    (k : Re.cursor -> Re.captures -> option R) :
  Re.run ml (Re.Star (Re.Cls p)) (Re.mkCursor before (String c s)) caps k =
  if p c then
    match Re.run ml (Re.Star (Re.Cls p)) (Re.mkCursor (Some c) s) caps k with
    | Some x => Some x
    | None => k (Re.mkCursor before (String c s)) caps
    end
  else k (Re.mkCursor before (String c s)) caps.
Proof.
  cbn [Re.run Re.rest String.length]. destruct (p c); [|reflexivity].
  cbn [Re.rest]. 
  replace (String.length s <? S (String.length s))%nat with true
    by (symmetry; apply Nat.ltb_lt; lia).
  reflexivity.
Qed.

(** A greedy star that finds a match from a later position on finds
    the same match from an earlier one, when the characters between the
    two are in the class. *)
Lemma star_cls_skip {R : Type} (ml : bool) (p : ascii -> bool) (a b : string)
    (caps : Re.captures) (k : Re.cursor -> Re.captures -> option R) (x : R) :
  forall before,
    all_chars p a = true ->
    Re.run ml (Re.Star (Re.Cls p)) (Re.mkCursor (after before a) b) caps k = Some x ->
    Re.run ml (Re.Star (Re.Cls p)) (Re.mkCursor before (a +:+ b)) caps k = Some x.
Proof.
  induction a as [|c a IH]; intros before Ha H; [exact H|].
  cbn [all_chars] in Ha. apply andb_true_iff in Ha as [Hc Ha].
  rewrite append_cons, star_cls_step, Hc.
  rewrite (IH (Some c) Ha H). reflexivity.
Qed.

Lemma run_cat {R : Type} (ml : bool) (a b : Re.regex) (cur : Re.cursor)
    (caps : Re.captures) (k : Re.cursor -> Re.captures -> option R) :
  Re.run ml (Re.Cat a b) cur caps k
  = Re.run ml a cur caps (fun cur' caps' => Re.run ml b cur' caps' k).
Proof. reflexivity. Qed.

Lemma run_group {R : Type} (ml : bool) (i : nat) (a : Re.regex) (cur : Re.cursor)
    (caps : Re.captures) (k : Re.cursor -> Re.captures -> option R) :
  Re.run ml (Re.Group i a) cur caps k
  = Re.run ml a cur caps
      (fun cur' caps' =>
         k cur' ((i, Py.take (String.length (Re.rest cur) - String.length (Re.rest cur'))
                        (Re.rest cur)) :: caps')).
Proof. reflexivity. Qed.

Lemma run_cls {R : Type} (ml : bool) (p : ascii -> bool) (before : option ascii)
    (c : ascii) (s : string) (caps : Re.captures)
    (k : Re.cursor -> Re.captures -> option R) :
  Re.run ml (Re.Cls p) (Re.mkCursor before (String c s)) caps k
  = if p c then k (Re.mkCursor (Some c) s) caps else None.
Proof. reflexivity. Qed.

Lemma take_app_length (a b : string) :
  Py.take (String.length (a +:+ b) - String.length b) (a +:+ b) = a.
Proof.
  induction a as [|c a IH].
  - cbn [String.append]. rewrite Nat.sub_diag. destruct b; reflexivity.
  - rewrite append_cons. cbn [String.length].
    assert (Hlen : (String.length b <= String.length (a +:+ b))%nat).
    { clear. induction a as [|c a IH]; [reflexivity|].
      rewrite append_cons. cbn [String.length]. lia. }
    rewrite Nat.sub_succ_l by exact Hlen. cbn [Py.take]. rewrite IH. reflexivity.
Qed.

Lemma star_cls_stop {R : Type} (ml : bool) (p : ascii -> bool) (before : option ascii)
    (caps : Re.captures) (k : Re.cursor -> Re.captures -> option R) :
  Re.run ml (Re.Star (Re.Cls p)) (Re.mkCursor before EmptyString) caps k
  = k (Re.mkCursor before EmptyString) caps.
Proof. reflexivity. Qed.

(** A greedy star that reads the whole of [s] and whose continuation
    fails wherever the star has read something gives all of it back. *)
Lemma star_cls_give_back {R : Type} (ml : bool) (p : ascii -> bool)
    (caps : Re.captures) (k : Re.cursor -> Re.captures -> option R) (s : string) :
  forall before,
    (forall s1 s2, s = s1 +:+ s2 -> s1 <> EmptyString ->
                   k (Re.mkCursor (after before s1) s2) caps = None) ->
    Re.run ml (Re.Star (Re.Cls p)) (Re.mkCursor before s) caps k
    = k (Re.mkCursor before s) caps.
Proof.
  induction s as [|c s IH]; intros before Hk; [reflexivity|].
  rewrite star_cls_step. destruct (p c); [|reflexivity].
  rewrite IH.
  - assert (H0 := Hk (String c EmptyString) s eq_refl). cbn [after] in H0.
    rewrite H0; [reflexivity | discriminate].
  - intros s1 s2 -> Hne. apply (Hk (String c s1) s2); [reflexivity | discriminate].
Qed.

Lemma run_lit_mismatch {R : Type} (ml : bool) (l : string) (cur : Re.cursor)
    (caps : Re.captures) (k : Re.cursor -> Re.captures -> option R) :
  String.prefix l (Re.rest cur) = false -> Re.run ml (Re.Lit l) cur caps k = None.
Proof.
  revert cur. induction l as [|c l IH]; intros [before s] H; cbn [Re.rest] in H.
  - destruct s; discriminate.
  - cbn [Re.Lit]. rewrite run_cat. destruct s as [|c' s]; [reflexivity|].
    rewrite run_cls. rewrite prefix_cons in H.
    destruct (Ascii.ascii_dec c c') as [<-|Hne].
    + rewrite Ascii.eqb_refl. apply IH. exact H.
    + apply Ascii.eqb_neq in Hne. rewrite Hne. reflexivity.
Qed.

Lemma run_lit_match {R : Type} (ml : bool) (l s : string) (before : option ascii)
    (caps : Re.captures) (k : Re.cursor -> Re.captures -> option R) :
  Re.run ml (Re.Lit l) (Re.mkCursor before (l +:+ s)) caps k
  = k (Re.mkCursor (after before l) s) caps.
Proof.
  revert before. induction l as [|c l IH]; intros before; [reflexivity|].
  cbn [Re.Lit after]. rewrite run_cat, append_cons, run_cls, Ascii.eqb_refl.
  apply IH.
Qed.

Lemma all_chars_app (p : ascii -> bool) (a b : string) :
  all_chars p (a +:+ b) = all_chars p a && all_chars p b.
Proof.
  induction a as [|c a IH]; [reflexivity|].
  rewrite append_cons. cbn [all_chars]. rewrite IH, andb_assoc. reflexivity.
Qed.

(** [\d+] reads the whole of a number that is followed by no digit, when
    the rest of the pattern matches from there. *)
Lemma run_plus_digits {R : Type} (ml : bool) (x w : string) (before : option ascii)
    (caps : Re.captures) (k : Re.cursor -> Re.captures -> option R) (r : R) :
  is_number x = true -> starts_nondigit w = true ->
  k (Re.mkCursor (after before x) w) caps = Some r ->
  Re.run ml (Re.Plus Re.digit) (Re.mkCursor before (x +:+ w)) caps k = Some r.
Proof.
  unfold is_number. intros Hx Hw Hk. destruct x as [|c x]; [discriminate|].
  cbn [String.eqb negb andb all_chars] in Hx. apply andb_true_iff in Hx as [Hc Hx].
  unfold Re.Plus, Re.digit. rewrite run_cat, append_cons, run_cls, Hc.
  apply star_cls_skip; [exact Hx|]. cbn [after] in Hk.
  destruct w as [|c' w].
  - rewrite star_cls_stop. exact Hk.
  - cbn [starts_nondigit] in Hw. apply negb_true_iff in Hw.
    rewrite star_cls_step, Hw. exact Hk.
Qed.

Lemma no_so_in_numbers (s : string) :
  all_chars digit_or_dot s = true -> String.prefix ".so" s = false.
Proof.
  destruct s as [|a [|b s]]; try reflexivity.
  - intros _. rewrite prefix_cons. destruct (Ascii.ascii_dec "." a); reflexivity.
  - cbn [all_chars]. intros H. apply andb_true_iff in H as [_ H].
    apply andb_true_iff in H as [Hb _].
    rewrite !prefix_cons. destruct (Ascii.ascii_dec "." a); [|reflexivity].
    destruct (Ascii.ascii_dec "s" b) as [<-|]; [discriminate | reflexivity].
Qed.

Lemma is_number_digits (x : string) :
  is_number x = true -> all_chars digit_or_dot x = true.
Proof.
  unfold is_number. intros H. apply andb_true_iff in H as [_ H].
  induction x as [|c x IH]; [reflexivity|].
  cbn [all_chars] in *. apply andb_true_iff in H as [Hc H].
  unfold digit_or_dot at 1. rewrite Hc, (IH H). reflexivity.
Qed.

Lemma is_number_not_LF (x : string) :
  is_number x = true -> all_chars not_LF x = true.
Proof.
  unfold is_number. intros H. apply andb_true_iff in H as [_ H].
  induction x as [|c x IH]; [reflexivity|].
  cbn [all_chars] in *. apply andb_true_iff in H as [Hc H].
  rewrite (IH H), andb_true_r. unfold not_LF.
  destruct (Ascii.eqb_spec c Py.LF) as [->|]; [discriminate | reflexivity].
Qed.

(** The pattern of [_so_symlinks] on a versioned library name: the groups
    are the text up to [.so] and the three numbers. *)
Lemma so_groups_versioned (stem x y z : string) :
  stem <> EmptyString -> all_chars not_LF stem = true ->
  is_number x = true -> is_number y = true -> is_number z = true ->
  so_groups (stem +:+ ".so." +:+ x +:+ "." +:+ y +:+ "." +:+ z)
  = Some (stem +:+ ".so", x, y, z).
Proof.
  intros Hne Hstem Hx Hy Hz.
  destruct stem as [|c stem]; [congruence|].
  cbn [all_chars] in Hstem. apply andb_true_iff in Hstem as [Hc Hstem].
  set (nums := "." +:+ x +:+ "." +:+ y +:+ "." +:+ z).
  assert (Hnums : all_chars digit_or_dot nums = true).
  { unfold nums. rewrite !all_chars_app.
    rewrite (is_number_digits x Hx), (is_number_digits y Hy), (is_number_digits z Hz).
    reflexivity. }
  assert (Hm : exists g1 g2 g3 g4 cur,
             Re.match_at false so_pattern
               (Re.mkCursor None (String c stem +:+ ".so" +:+ nums))
             = Some ([(4%nat, g4); (3%nat, g3); (2%nat, g2); (1%nat, g1)], cur) /\
             g1 = String c stem +:+ ".so" /\ g2 = x /\ g3 = y /\ g4 = z).
  { do 5 eexists. split.
    {
    unfold Re.match_at. cbv delta [so_pattern] zeta beta. unfold Re.Plus at 1.
    change Re.dot with (Re.Cls not_LF).
    rewrite run_cat, run_group, run_cat, run_cat.
    rewrite append_cons. cbn [Re.rest]. rewrite run_cls, Hc.
    apply star_cls_skip; [exact Hstem|].
    rewrite star_cls_give_back.
    2:{ intros s1 s2 Hsplit Hs1. apply run_lit_mismatch. cbn [Re.rest].
        change (".so" +:+ nums) with (String "." (String "s" (String "o" nums)))
          in Hsplit.
        destruct s1 as [|a1 [|a2 [|a3 s1]]]; [congruence|..];
          rewrite ?append_cons in Hsplit;
          change (EmptyString +:+ s2) with s2 in Hsplit.
        - injection Hsplit as _ <-. reflexivity.
        - injection Hsplit as _ _ <-. reflexivity.
        - injection Hsplit as _ _ _ Hsplit. apply no_so_in_numbers.
          rewrite Hsplit, all_chars_app in Hnums.
          apply andb_true_iff in Hnums as [_ Hnums]. exact Hnums. }
    rewrite run_lit_match. cbn beta. cbn [Re.rest].
    unfold nums.
    rewrite run_cat, run_cat, (run_lit_match _ "."), run_group.
    apply run_plus_digits; [exact Hx | reflexivity |]. cbn beta. cbn [Re.rest].
    rewrite run_cat, run_cat, (run_lit_match _ "."), run_group.
    apply run_plus_digits; [exact Hy | reflexivity |]. cbn beta. cbn [Re.rest].
    rewrite run_cat, run_cat, (run_lit_match _ "."), run_group.
    rewrite <- (append_empty_r z) at 1.
    apply run_plus_digits; [exact Hz | reflexivity |]. cbn beta. cbn [Re.rest].
    reflexivity. }
    split; [|split; [|split]].
    - pose proof (take_app_length (String c stem +:+ ".so") nums) as Ht.
      rewrite append_assoc in Ht. exact Ht.
    - apply (take_app_length x ("." +:+ y +:+ "." +:+ z)).
    - apply (take_app_length y ("." +:+ z)).
    - rewrite <- (append_empty_r z) at 1 2. apply take_app_length. }
  destruct Hm as (g1 & g2 & g3 & g4 & cur & Hm & -> & -> & -> & ->).
  unfold so_groups, Re.re_match. fold nums.
  replace (String c stem +:+ ".so." +:+ x +:+ "." +:+ y +:+ "." +:+ z)
    with (String c stem +:+ ".so" +:+ nums) by reflexivity.
  rewrite Hm. reflexivity.
Qed.

Lemma length_append (a b : string) :
  String.length (a +:+ b) = (String.length a + String.length b)%nat.
Proof.
  induction a as [|c a IH]; [reflexivity|].
  rewrite append_cons. cbn [String.length]. rewrite IH. reflexivity.
Qed.

Lemma prefix_append_self (a b : string) : String.prefix a (a +:+ b) = true.
Proof.
  induction a as [|c a IH]; [destruct b; reflexivity|].
  rewrite append_cons, prefix_cons.
  destruct (Ascii.ascii_dec c c); [exact IH | congruence].
Qed.

Lemma drop_append_length (a b : string) : Py.drop (String.length a) (a +:+ b) = b.
Proof. induction a as [|c a IH]; [reflexivity | exact IH]. Qed.

Lemma contains_append (c : ascii) (a b : string) :
  Py.contains c (a +:+ b) = Py.contains c a || Py.contains c b.
Proof.
  induction a as [|x a IH]; [reflexivity|].
  rewrite append_cons. cbn [Py.contains]. rewrite IH, orb_assoc. reflexivity.
Qed.

Lemma is_number_no_slash (x : string) :
  is_number x = true -> Py.contains Py.slash x = false.
Proof.
  unfold is_number. intros H. apply andb_true_iff in H as [_ H].
  induction x as [|c x IH]; [reflexivity|].
  cbn [all_chars Py.contains] in *. apply andb_true_iff in H as [Hc H].
  rewrite (IH H), orb_false_r.
  destruct (Ascii.eqb_spec c Py.slash) as [->|]; [discriminate | reflexivity].
Qed.

(** A name without separator put after the directory is an entry of it. *)
Lemma entry_name_of_join (d l : string) :
  l <> EmptyString -> Py.contains Py.slash l = false ->
  Os.entry_name d (Py.os_path_join d l) = Some l.
Proof.
  intros Hne Hl. rewrite (os_path_join_entry d l Hl). unfold Os.entry_name.
  rewrite prefix_append_self, drop_append_length, Hl.
  destruct (String.eqb_spec l EmptyString); [contradiction | reflexivity].
Qed.

(** In a directory whose listing is [[n]] no other entry name is taken. *)
Lemma listdir_only (d n l : string) (fs fs1 : FS) :
  Os.listdir d fs = (inr [n], fs1) ->
  l <> EmptyString -> Py.contains Py.slash l = false -> l <> n ->
  fs !! Py.os_path_join d l = None.
Proof.
  unfold Os.listdir. destruct (Os.path_isdir fs d); [|discriminate].
  intros H Hne Hl Hln. injection H as Hes _.
  destruct (fs !! Py.os_path_join d l) as [v|] eqn:Hv; [exfalso | reflexivity].
  assert (Hin : l ∈ omap (fun kv : string * node => Os.entry_name d kv.1)
                        (map_to_list fs)).
  { apply list_elem_of_omap. exists (Py.os_path_join d l, v). split.
    - apply elem_of_map_to_list. exact Hv.
    - apply entry_name_of_join; assumption. }
  rewrite Hes in Hin. apply list_elem_of_singleton in Hin. contradiction.
Qed.

Lemma isfile_lookup (fs : FS) (p : string) :
  fs !! p = Some File -> Os.path_isfile fs p = true.
Proof.
  intros H. unfold Os.path_isfile.
  rewrite stat_not_link, H; [reflexivity|].
  apply (islink_lookup _ _ _ H). discriminate.
Qed.

Lemma file_not_skipped (fs : FS) (p : string) :
  fs !! p = Some File -> Os.path_isdir fs p || Os.path_islink fs p = false.
Proof.
  intros H. destruct (Os.path_isdir fs p || Os.path_islink fs p) eqn:E; [|reflexivity].
  destruct (skipped_is_dir_or_link _ _ _ H E) as [?|[? ?]]; discriminate.
Qed.

Lemma free_or_link_passes (fs : FS) (p : string) :
  fs !! p = None \/ (exists t, fs !! p = Some (Link t)) ->
  Os.path_exists fs p && negb (Os.path_islink fs p) = false.
Proof.
  intros [H|[t H]].
  - unfold Os.path_exists. rewrite stat_not_link, H; [reflexivity|].
    unfold Os.path_islink. rewrite H. reflexivity.
  - unfold Os.path_islink. rewrite H. apply andb_false_r.
Qed.

(** One round of the loop on a regular file whose name matches and whose
    link names are free or held by links. *)
Lemma so_symlinks_entry_creates (d n so x y z : string) (fs : FS) :
  let f := Py.os_path_join d n in
  let l1 := so +:+ "." +:+ x +:+ "." +:+ y in
  let l2 := so +:+ "." +:+ x in
  fs !! f = Some File ->
  so_groups f = Some (so, x, y, z) ->
  (forall l, l ∈ [l1; l2; so] ->
     fs !! l = None \/ exists t, fs !! l = Some (Link t)) ->
  so_symlinks_entry d n fs
  = (inr tt, <[so := Link f]> (<[l2 := Link f]> (<[l1 := Link f]> fs))).
Proof.
  intros f l1 l2 Hf Hg Hfree.
  assert (Hkeep : forall (m : FS) l,
            m !! f = Some File ->
            (fs !! l = None \/ exists t, fs !! l = Some (Link t)) ->
            (m !! l = None \/ exists t, m !! l = Some (Link t)) ->
            <[l := Link f]> m !! f = Some File).
  { intros m l Hm _ Hl. rewrite lookup_insert_ne; [exact Hm|].
    intros ->. destruct Hl as [Hl|[t Hl]]; congruence. }
  assert (Hstay : forall (m : FS) l q,
            (m !! l = None \/ exists t, m !! l = Some (Link t)) ->
            <[q := Link f]> m !! l = None \/
            exists t, <[q := Link f]> m !! l = Some (Link t)).
  { intros m l q Hl. destruct (decide (q = l)) as [->|Hne].
    - right. exists f. apply lookup_insert_eq.
    - rewrite lookup_insert_ne by exact Hne. exact Hl. }
  assert (H1 : fs !! l1 = None \/ exists t, fs !! l1 = Some (Link t)).
  { apply Hfree. apply list_elem_of_here. }
  assert (H2 : fs !! l2 = None \/ exists t, fs !! l2 = Some (Link t)).
  { apply Hfree. apply list_elem_of_further, list_elem_of_here. }
  assert (H3 : fs !! so = None \/ exists t, fs !! so = Some (Link t)).
  { apply Hfree. do 2 apply list_elem_of_further. apply list_elem_of_here. }
  unfold so_symlinks_entry, bind, gets. fold f.
  rewrite (file_not_skipped _ _ Hf), Hg. fold l1 l2.
  rewrite (symlink_creates fs f l1 (isfile_lookup _ _ Hf) (free_or_link_passes _ _ H1)).
  rewrite insert_delete_eq.
  pose proof (Hkeep fs l1 Hf H1 H1) as Hf1.
  rewrite (symlink_creates _ f l2 (isfile_lookup _ _ Hf1)
             (free_or_link_passes _ _ (Hstay fs l2 l1 H2))).
  rewrite insert_delete_eq.
  pose proof (Hkeep _ l2 Hf1 H2 (Hstay fs l2 l1 H2)) as Hf2.
  rewrite (symlink_creates _ f so (isfile_lookup _ _ Hf2)
             (free_or_link_passes _ _ (Hstay _ so l2 (Hstay fs so l1 H3)))).
  rewrite insert_delete_eq. reflexivity.
Qed.

Lemma not_LF_join_empty (d : string) :
  all_chars not_LF d = true -> all_chars not_LF (Py.os_path_join d EmptyString) = true.
Proof.
  intros Hd. unfold Py.os_path_join. change (String.prefix "/" EmptyString) with false.
  cbv iota. destruct (String.eqb d EmptyString); [reflexivity|].
  destruct (String.eqb _ "/"); rewrite !all_chars_app, Hd; reflexivity.
Qed.

Lemma append_longer (a b : string) : b <> EmptyString -> a +:+ b <> a.
Proof.
  intros Hb H. apply (f_equal String.length) in H. rewrite length_append in H.
  destruct b; [congruence|]. cbn [String.length] in H. lia.
Qed.

(** The directory of one versioned library. *)
Lemma so_symlinks_single (d base x y z : string) (fs : FS) :
  let n := base +:+ ".so." +:+ x +:+ "." +:+ y +:+ "." +:+ z in
  let f := Py.os_path_join d n in
  let l1 := Py.os_path_join d (base +:+ ".so." +:+ x +:+ "." +:+ y) in
  let l2 := Py.os_path_join d (base +:+ ".so." +:+ x) in
  let l3 := Py.os_path_join d (base +:+ ".so") in
  let fs' := <[l3 := Link f]> (<[l2 := Link f]> (<[l1 := Link f]> fs)) in
  String.prefix "/" d = true -> all_chars not_LF d = true ->
  Py.contains Py.slash base = false -> all_chars not_LF base = true ->
  is_number x = true -> is_number y = true -> is_number z = true ->
  Os.listdir d fs = (inr [n], fs) -> fs !! f = Some File ->
  _so_symlinks d fs = (inr tt, fs') /\
  forall l, l ∈ [l1; l2; l3] ->
    fs !! l = None /\ fs' !! l = Some (Link f) /\ Os.realpath fs' l = Some f.
Proof.
  intros n f l1 l2 l3 fs' Hd Hdl Hb Hbl Hx Hy Hz Hls Hf.
  set (pre := Py.os_path_join d EmptyString).
  pose proof (is_number_no_slash _ Hx) as Hxs.
  pose proof (is_number_no_slash _ Hy) as Hys.
  pose proof (is_number_no_slash _ Hz) as Hzs.
  assert (Hn : Py.contains Py.slash n = false).
  { unfold n. rewrite !contains_append, Hb, Hxs, Hys, Hzs. reflexivity. }
  assert (Hfn : f = (pre +:+ base) +:+ ".so." +:+ x +:+ "." +:+ y +:+ "." +:+ z).
  { unfold f. rewrite (os_path_join_entry d n Hn). fold pre. unfold n.
    rewrite append_assoc. reflexivity. }
  assert (Hg : so_groups f = Some ((pre +:+ base) +:+ ".so", x, y, z)).
  { rewrite Hfn. apply so_groups_versioned; try assumption.
    - pose proof (os_path_join_absolute d EmptyString Hd) as Hp. fold pre in Hp.
      destruct pre; [discriminate|]. rewrite append_cons. discriminate.
    - rewrite all_chars_app, Hbl. unfold pre.
      rewrite (not_LF_join_empty d Hdl). reflexivity. }
  assert (Hl1 : l1 = ((pre +:+ base) +:+ ".so") +:+ "." +:+ x +:+ "." +:+ y).
  { unfold l1. rewrite os_path_join_entry
      by (rewrite !contains_append, Hb, Hxs, Hys; reflexivity).
    fold pre. rewrite !append_assoc. reflexivity. }
  assert (Hl2 : l2 = ((pre +:+ base) +:+ ".so") +:+ "." +:+ x).
  { unfold l2. rewrite os_path_join_entry
      by (rewrite !contains_append, Hb, Hxs; reflexivity).
    fold pre. rewrite !append_assoc. reflexivity. }
  assert (Hl3 : l3 = (pre +:+ base) +:+ ".so").
  { unfold l3. rewrite os_path_join_entry
      by (rewrite !contains_append, Hb; reflexivity).
    fold pre. rewrite !append_assoc. reflexivity. }
  assert (Hfree : forall l, l ∈ [l1; l2; l3] -> fs !! l = None).
  { intros l Hl. unfold l1, l2, l3 in Hl.
    assert (Hnum : forall w, is_number w = true -> "." +:+ w <> EmptyString)
      by (intros w _; discriminate).
    apply elem_of_cons in Hl as [->|Hl]; [|apply elem_of_cons in Hl as [->|Hl];
      [|apply list_elem_of_singleton in Hl as ->]];
      apply (listdir_only d n _ fs fs Hls);
      try (rewrite !contains_append, ?Hb, ?Hxs, ?Hys; reflexivity);
      try (destruct base; discriminate).
    - unfold n. intros H. 
      replace (base +:+ ".so." +:+ x +:+ "." +:+ y +:+ "." +:+ z)
        with ((base +:+ ".so." +:+ x +:+ "." +:+ y) +:+ "." +:+ z) in H
        by (rewrite !append_assoc; reflexivity).
      symmetry in H. revert H. apply append_longer. discriminate.
    - unfold n. intros H.
      replace (base +:+ ".so." +:+ x +:+ "." +:+ y +:+ "." +:+ z)
        with ((base +:+ ".so." +:+ x) +:+ "." +:+ y +:+ "." +:+ z) in H
        by (rewrite !append_assoc; reflexivity).
      symmetry in H. revert H. apply append_longer. discriminate.
    - unfold n. intros H.
      replace (base +:+ ".so." +:+ x +:+ "." +:+ y +:+ "." +:+ z)
        with ((base +:+ ".so") +:+ "." +:+ x +:+ "." +:+ y +:+ "." +:+ z) in H
        by (rewrite !append_assoc; reflexivity).
      symmetry in H. revert H. apply append_longer. discriminate. }
  assert (Hrun : _so_symlinks d fs = (inr tt, fs')).
  { unfold _so_symlinks, bind, gets.
    destruct (negb (Os.path_isdir fs d)); unfold ret; cbn beta iota;
      rewrite Hls; cbn [for_each]; unfold bind;
      rewrite (so_symlinks_entry_creates d n _ x y z fs Hf Hg);
      try (unfold fs'; rewrite Hl1, Hl2, Hl3; reflexivity);
      intros l Hl; left; apply Hfree; rewrite Hl1, Hl2, Hl3; exact Hl. }
  split; [exact Hrun|].
  intros l Hl.
  assert (Hlk : fs' !! l = Some (Link f)).
  { unfold fs'. rewrite !lookup_insert. repeat case_decide; try reflexivity.
    apply elem_of_cons in Hl as [->|Hl]; [congruence|].
    apply elem_of_cons in Hl as [->|Hl]; [congruence|].
    apply list_elem_of_singleton in Hl. congruence. }
  split; [exact (Hfree l Hl)|]. split; [exact Hlk|].
  apply realpath_link_to_file; [exact Hlk | exact (os_path_join_absolute d n Hd) |].
  unfold fs'. rewrite !lookup_insert_ne; [exact Hf|..];
    intros Heq; (rewrite <- Heq, Hfree in Hf; [discriminate|]);
    repeat first [apply list_elem_of_here | apply list_elem_of_further].
Qed.

(** C9, as the code has it.  First, let the call of [_so_symlinks] on a
    directory complete.  Objects other than symbolic links are as before,
    and a name whose object changed is a link name of a regular-file entry
    and now a link to it.  For every entry that is neither a directory nor
    a symbolic link and whose path matches the pattern, the entry is a
    regular file and each of its three link names is a symbolic link to a
    regular-file entry that yields this link name: to the entry itself
    when no other regular-file entry yields the same link name; when the
    directory is given by an absolute path the link resolves to its
    target.  Second, in a directory given by an absolute path (without
    line feed) whose only entry is a regular file [base.so.x.y.z], the
    call completes and adds exactly the links [base.so.x.y], [base.so.x]
    and [base.so], each resolving to that file. *)
Theorem so_symlinks_spec :
  (forall (d : string) (fs fs' : FS) (es : list string),
     Os.listdir d fs = (inr es, fs) ->
     _so_symlinks d fs = (inr tt, fs') ->
     same_non_links fs fs' /\
     (forall p, fs' !! p <> fs !! p ->
        exists e, e ∈ es /\ fs !! Py.os_path_join d e = Some File /\
                  p ∈ so_link_names (Py.os_path_join d e) /\
                  fs' !! p = Some (Link (Py.os_path_join d e))) /\
     (forall (n so x y z : string),
        n ∈ es ->
        Os.path_isdir fs (Py.os_path_join d n) = false ->
        Os.path_islink fs (Py.os_path_join d n) = false ->
        so_groups (Py.os_path_join d n) = Some (so, x, y, z) ->
        fs' !! Py.os_path_join d n = Some File /\
        forall l, l ∈ [so +:+ "." +:+ x +:+ "." +:+ y; so +:+ "." +:+ x; so] ->
          (exists n', n' ∈ es /\ fs' !! Py.os_path_join d n' = Some File /\
                      l ∈ so_link_names (Py.os_path_join d n') /\
                      fs' !! l = Some (Link (Py.os_path_join d n')) /\
                      (String.prefix "/" d = true ->
                       Os.realpath fs' l = Some (Py.os_path_join d n'))) /\
          ((forall m, m ∈ es -> fs !! Py.os_path_join d m = Some File ->
                      l ∈ so_link_names (Py.os_path_join d m) -> m = n) ->
           fs' !! l = Some (Link (Py.os_path_join d n)) /\
           (String.prefix "/" d = true ->
            Os.realpath fs' l = Some (Py.os_path_join d n))))) /\
  (forall (d base x y z : string) (fs : FS),
     let n := base +:+ ".so." +:+ x +:+ "." +:+ y +:+ "." +:+ z in
     let f := Py.os_path_join d n in
     let l1 := Py.os_path_join d (base +:+ ".so." +:+ x +:+ "." +:+ y) in
     let l2 := Py.os_path_join d (base +:+ ".so." +:+ x) in
     let l3 := Py.os_path_join d (base +:+ ".so") in
     let fs' := <[l3 := Link f]> (<[l2 := Link f]> (<[l1 := Link f]> fs)) in
     String.prefix "/" d = true -> all_chars not_LF d = true ->
     Py.contains Py.slash base = false -> all_chars not_LF base = true ->
     is_number x = true -> is_number y = true -> is_number z = true ->
     Os.listdir d fs = (inr [n], fs) -> fs !! f = Some File ->
     _so_symlinks d fs = (inr tt, fs') /\
     forall l, l ∈ [l1; l2; l3] ->
       fs !! l = None /\ fs' !! l = Some (Link f) /\ Os.realpath fs' l = Some f).
Proof.
  split.
  - intros d fs fs' es.
    intros Hls Hrun. unfold _so_symlinks, bind, gets in Hrun.
    assert (Hloop : for_each es (so_symlinks_entry d) fs = (inr tt, fs')).
    { destruct (negb (Os.path_isdir fs d)); unfold ret in Hrun; cbn beta iota in Hrun;
        rewrite Hls in Hrun; exact Hrun. }
    destruct (so_symlinks_loop_success _ _ _ _ Hloop) as (Hsame & Hch & Hlinks & Hsp).
    split; [exact Hsame|]. split.
    { intros p Hne. destruct (Hch p) as [Heq|Hex]; [contradiction | exact Hex]. }
    intros n so x y z Hn Hnd Hnl Hg.
    assert (Hfile : fs !! Py.os_path_join d n = Some File).
    { destruct (listdir_entry _ _ _ _ _ Hls Hn) as [v Hv].
      unfold Os.path_isdir in Hnd. rewrite (stat_not_link _ _ Hnl), Hv in Hnd.
      unfold Os.path_islink in Hnl. rewrite Hv in Hnl.
      destruct v as [| |t|]; try discriminate; [exact Hv|].
      rewrite (Hsp n Hn Hv) in Hg. discriminate. }
    assert (Hkeep : forall q, fs !! q = Some File -> fs' !! q = Some File).
    { intros q. apply Hsame. discriminate. }
    split; [exact (Hkeep _ Hfile)|].
    intros l Hl.
    assert (Hl' : l ∈ so_link_names (Py.os_path_join d n)).
    { unfold so_link_names. rewrite Hg. exact Hl. }
    destruct (Hlinks n Hn Hfile l Hl') as (n' & Hn' & Hf' & Hp' & Hlk).
    assert (Hres : String.prefix "/" d = true ->
                   Os.realpath fs' l = Some (Py.os_path_join d n')).
    { intros Hd. apply realpath_link_to_file; auto using os_path_join_absolute. }
    split.
    + exists n'. auto 6.
    + intros Huniq. rewrite <- (Huniq n' Hn' Hf' Hp'). auto.
  - exact so_symlinks_single.
Qed.

Lemma so_symlinks_spec_witness :
  _so_symlinks "/lib" SampleFS.one_version = (inr tt, SampleFS.one_version_linked) /\
  (SampleFS.one_version !! "/lib/foo.so.1.2" = None /\
   SampleFS.one_version_linked !! "/lib/foo.so.1.2" = Some (Link "/lib/foo.so.1.2.3") /\
   Os.realpath SampleFS.one_version_linked "/lib/foo.so.1.2" = Some "/lib/foo.so.1.2.3") /\
  (SampleFS.one_version !! "/lib/foo.so.1" = None /\
   SampleFS.one_version_linked !! "/lib/foo.so.1" = Some (Link "/lib/foo.so.1.2.3") /\
   Os.realpath SampleFS.one_version_linked "/lib/foo.so.1" = Some "/lib/foo.so.1.2.3") /\
  (SampleFS.one_version !! "/lib/foo.so" = None /\
   SampleFS.one_version_linked !! "/lib/foo.so" = Some (Link "/lib/foo.so.1.2.3") /\
   Os.realpath SampleFS.one_version_linked "/lib/foo.so" = Some "/lib/foo.so.1.2.3").
Proof.
  assert (Hfs : <["/lib/foo.so" := Link "/lib/foo.so.1.2.3"]>
                  (<["/lib/foo.so.1" := Link "/lib/foo.so.1.2.3"]>
                     (<["/lib/foo.so.1.2" := Link "/lib/foo.so.1.2.3"]>
                        SampleFS.one_version))
                = SampleFS.one_version_linked).
  { by_evaluation. }
  assert (Hls : Os.listdir "/lib" SampleFS.one_version
                = (inr ["foo.so.1.2.3"], SampleFS.one_version)).
  { by_evaluation. }
  assert (Hf : SampleFS.one_version !! "/lib/foo.so.1.2.3" = Some File).
  { by_evaluation. }
  destruct (proj2 so_symlinks_spec "/lib" "foo" "1" "2" "3" SampleFS.one_version
              eq_refl eq_refl eq_refl eq_refl eq_refl eq_refl eq_refl Hls Hf)
    as (Hrun & Hlinks).
  change (Py.os_path_join "/lib" ("foo" +:+ ".so." +:+ "1" +:+ "." +:+ "2" +:+ "." +:+ "3"))
    with "/lib/foo.so.1.2.3" in Hrun, Hlinks.
  change (Py.os_path_join "/lib" ("foo" +:+ ".so." +:+ "1" +:+ "." +:+ "2"))
    with "/lib/foo.so.1.2" in Hrun, Hlinks.
  change (Py.os_path_join "/lib" ("foo" +:+ ".so." +:+ "1"))
    with "/lib/foo.so.1" in Hrun, Hlinks.
  change (Py.os_path_join "/lib" ("foo" +:+ ".so"))
    with "/lib/foo.so" in Hrun, Hlinks.
  rewrite Hfs in Hrun, Hlinks.
  split; [exact Hrun|].
  repeat split; apply Hlinks;
    repeat first [apply list_elem_of_here | apply list_elem_of_further].
Defined.

(** C9, as stated, fails: with two versions of one library in the
    directory, the links made for the first are replaced by those made for
    the second, so the three links of [foo.so.1.2.3] resolve to
    [foo.so.1.2.4]. *)
Lemma so_symlinks_two_versions_share_links :
  Os.listdir "/lib" SampleFS.two_versions
    = (inr ["foo.so.1.2.3"; "foo.so.1.2.4"], SampleFS.two_versions) /\
  SampleFS.two_versions !! "/lib/foo.so.1.2.3" = Some File /\
  so_groups "/lib/foo.so.1.2.3" = Some ("/lib/foo.so", "1", "2", "3") /\
  _so_symlinks "/lib" SampleFS.two_versions = (inr tt, SampleFS.two_versions_linked) /\
  Os.realpath SampleFS.two_versions_linked "/lib/foo.so.1.2" = Some "/lib/foo.so.1.2.4" /\
  Os.realpath SampleFS.two_versions_linked "/lib/foo.so.1" = Some "/lib/foo.so.1.2.4" /\
  Os.realpath SampleFS.two_versions_linked "/lib/foo.so" = Some "/lib/foo.so.1.2.4" /\
  Os.realpath SampleFS.two_versions_linked "/lib/foo.so" <> Some "/lib/foo.so.1.2.3".
Proof.
  assert (Hso : Os.realpath SampleFS.two_versions_linked "/lib/foo.so"
                = Some "/lib/foo.so.1.2.4") by by_evaluation.
  split; [by_evaluation|]. split; [by_evaluation|]. split; [by_evaluation|].
  split; [by_evaluation|]. split; [by_evaluation|]. split; [by_evaluation|].
  split; [exact Hso|]. rewrite Hso. discriminate.
Qed.

(** The links made in a directory that is named relative to the working
    directory hold the joined relative name, which is resolved from the
    directory of the link: they dangle. *)
Example so_symlinks_relative_directory :
  _so_symlinks "lib" SampleFS.relative = (inr tt, SampleFS.relative_linked) /\
  Os.realpath SampleFS.relative_linked "lib/foo.so" = None.
Proof.
  split; by_evaluation.
Qed.

(** On a name that is no directory the guard of [_so_symlinks] asserts an
    exception object instead of raising it, so the error comes from
    [os.listdir]. *)
Example so_symlinks_not_a_directory :
  _so_symlinks "/opt" SampleFS.one_version
  = (inl (OSError "/opt"), SampleFS.one_version).
Proof. by_evaluation. Qed.

(** * More of the code *)

Import ReSem.

(** Whatever the matcher finds is one of the ways for the pattern to
    match, followed by a success of what comes after the pattern. *)
Lemma run_sound {R : Type} (ml : bool) (r : Re.regex) :
  forall (cur : Re.cursor) (caps : Re.captures)
         (k : Re.cursor -> Re.captures -> option R) (x : R),
    Re.run ml r cur caps k = Some x ->
    exists cur' caps', derives ml r cur caps cur' caps' /\ k cur' caps' = Some x.
Proof.
  induction r as [|p|a IHa b IHb|a IHa b IHb|a IHa|i a IHa| |];
    intros cur caps k x H.
  - exists cur, caps. split; [constructor | exact H].
  - destruct cur as [before [|c s]]; cbn in H; [discriminate|].
    destruct (p c) eqn:Hp; [|discriminate].
    eexists _, _. split; [constructor; exact Hp | exact H].
  - cbn [Re.run] in H. apply IHa in H as (c1 & k1 & Ha & H).
    apply IHb in H as (c2 & k2 & Hb & H).
    exists c2, k2. split; [econstructor; eassumption | exact H].
  - cbn [Re.run] in H. destruct (Re.run ml a cur caps k) as [y|] eqn:Ha.
    + injection H as ->. apply IHa in Ha as (c1 & k1 & Ha & H).
      exists c1, k1. split; [apply D_Alt_l; exact Ha | exact H].
    + apply IHb in H as (c1 & k1 & Hb & H).
      exists c1, k1. split; [apply D_Alt_r; exact Hb | exact H].
  - cbn [Re.run] in H.
    remember (String.length (Re.rest cur)) as fuel eqn:E in H. clear E.
    revert cur caps H.
    induction fuel as [|fuel IHf]; intros cur caps H.
    + exists cur, caps. split; [constructor | exact H].
    + match type of H with
      | match ?m with _ => _ end = _ => destruct m as [y|] eqn:Hm
      end.
      * injection H as ->. apply IHa in Hm as (c1 & k1 & Ha & H).
        destruct (String.length (Re.rest c1) <? String.length (Re.rest cur))%nat;
          [|discriminate].
        apply IHf in H as (c2 & k2 & Hs & H).
        exists c2, k2. split; [eapply D_Star_more; eassumption | exact H].
      * exists cur, caps. split; [constructor | exact H].
  - cbn [Re.run] in H. apply IHa in H as (c1 & k1 & Ha & H).
    eexists _, _. split; [apply D_Group; exact Ha | exact H].
  - cbn [Re.run] in H. destruct (Re.at_bol ml cur) eqn:Hb; [|discriminate].
    exists cur, caps. split; [constructor; exact Hb | exact H].
  - cbn [Re.run] in H. destruct (Re.at_eol ml cur) eqn:Hb; [|discriminate].
    exists cur, caps. split; [constructor; exact Hb | exact H].
Qed.

(** A way to match reads a text of the pattern off the front of the
    input. *)
Lemma derives_reads (ml : bool) (r : Re.regex) (c0 c1 : Re.cursor)
    (k0 k1 : Re.captures) :
  derives ml r c0 k0 c1 k1 ->
  exists s, Re.rest c0 = s +:+ Re.rest c1 /\ lang r s.
Proof.
  induction 1 as [cur caps|p before c s caps Hp|a b c0 k0 c1 k1 c2 k2 _ IHa _ IHb
                 |a b c0 k0 c1 k1 _ IH|a b c0 k0 c1 k1 _ IH|a cur caps
                 |a c0 k0 c1 k1 c2 k2 _ IHa _ IHs|i a c0 k0 c1 k1 _ IH
                 |cur caps Hb|cur caps Hb].
  - exists EmptyString. split; [reflexivity | constructor].
  - exists (String c EmptyString). split; [reflexivity | constructor; exact Hp].
  - destruct IHa as (s & Hs & Ls), IHb as (t & Ht & Lt).
    exists (s +:+ t). split; [|constructor; assumption].
    rewrite Hs, Ht, append_assoc. reflexivity.
  - destruct IH as (s & Hs & Ls). exists s. split; [exact Hs | apply L_Alt_l; exact Ls].
  - destruct IH as (s & Hs & Ls). exists s. split; [exact Hs | apply L_Alt_r; exact Ls].
  - exists EmptyString. split; [reflexivity | constructor].
  - destruct IHa as (s & Hs & Ls), IHs as (t & Ht & Lt).
    exists (s +:+ t). split; [|econstructor; eassumption].
    rewrite Hs, Ht, append_assoc. reflexivity.
  - destruct IH as (s & Hs & Ls). exists s. split; [exact Hs | constructor; exact Ls].
  - exists EmptyString. split; [reflexivity | constructor].
  - exists EmptyString. split; [reflexivity | constructor].
Qed.

(** A group holds the text that its pattern read. *)
Lemma derives_group (ml : bool) (i : nat) (a : Re.regex) (c0 c1 : Re.cursor)
    (k0 k1 : Re.captures) :
  derives ml (Re.Group i a) c0 k0 c1 k1 ->
  exists s k, k1 = (i, s) :: k /\ Re.rest c0 = s +:+ Re.rest c1 /\ lang a s /\
              derives ml a c0 k0 c1 k.
Proof.
  intros H. inversion H as [| | | | | | |i' a' c0' k0' c1' k1' Ha| |]; subst.
  destruct (derives_reads _ _ _ _ _ _ Ha) as (s & Hs & Ls).
  exists s, k1'. rewrite Hs, take_app_length. auto.
Qed.

Lemma lang_lit (t s : string) : lang (Re.Lit t) s -> s = t.
Proof.
  revert s. induction t as [|c t IH]; intros s H; cbn [Re.Lit] in H.
  - inversion H. reflexivity.
  - inversion H as [| |a b s1 s2 H1 H2| | | | | | |]; subst.
    inversion H1 as [|p' c0 Hc| | | | | | | |]; subst.
    apply Ascii.eqb_eq in Hc. subst c0. rewrite (IH _ H2). reflexivity.
Qed.

Lemma lang_star_cls (p : ascii -> bool) (s : string) :
  lang (Re.Star (Re.Cls p)) s -> all_chars p s = true.
Proof.
  remember (Re.Star (Re.Cls p)) as r eqn:E. intros H.
  induction H as [| | | | | |a s t Ha _ _ IH| | |]; try discriminate; [reflexivity|].
  injection E as ->. inversion Ha as [|p' c Hc| | | | | | | |]; subst.
  rewrite append_cons. cbn [all_chars]. rewrite Hc. exact (IH eq_refl).
Qed.

Lemma lang_plus_cls (p : ascii -> bool) (s : string) :
  lang (Re.Plus (Re.Cls p)) s -> s <> EmptyString /\ all_chars p s = true.
Proof.
  unfold Re.Plus. intros H.
  inversion H as [| |a b s1 s2 H1 H2| | | | | | |]; subst.
  inversion H1 as [|p' c Hc| | | | | | | |]; subst.
  rewrite append_cons. split; [discriminate|].
  cbn [all_chars]. rewrite Hc. exact (lang_star_cls _ _ H2).
Qed.

Lemma lang_number (s : string) : lang (Re.Plus Re.digit) s -> is_number s = true.
Proof.
  intros H. apply lang_plus_cls in H as [Hne Hd]. unfold is_number.
  rewrite Hd, andb_true_r. destruct s; [congruence | reflexivity].
Qed.

Lemma match_at_sound (ml : bool) (r : Re.regex) (cur cur' : Re.cursor)
    (caps : Re.captures) :
  Re.match_at ml r cur = Some (caps, cur') -> derives ml r cur [] cur' caps.
Proof.
  unfold Re.match_at. intros H.
  apply run_sound in H as (c1 & k1 & Hd & H). injection H as <- <-. exact Hd.
Qed.

(** A pattern without groups leaves the groups as they are. *)
Lemma derives_groupless (ml : bool) (r : Re.regex) (c0 c1 : Re.cursor)
    (k0 k1 : Re.captures) :
  derives ml r c0 k0 c1 k1 -> groupless r = true -> k1 = k0.
Proof.
  induction 1; cbn [groupless]; intros Hg; try reflexivity; try discriminate.
  - apply andb_true_iff in Hg as [Ha Hb]. rewrite IHderives2, IHderives1; auto.
  - apply andb_true_iff in Hg as [Ha Hb]. auto.
  - apply andb_true_iff in Hg as [Ha Hb]. auto.
  - rewrite IHderives2, IHderives1; auto.
Qed.

Lemma groupless_lit (t : string) : groupless (Re.Lit t) = true.
Proof. induction t as [|c t IH]; [reflexivity | exact IH]. Qed.

(** Every text that [re.findall] gives is group 1 of a match somewhere. *)
Lemma findall_from_sound (ml : bool) (r : Re.regex) (g : string) (s : string) :
  forall before skip,
    g ∈ Re.findall_from ml r before s skip ->
    exists cur caps cur',
      Re.match_at ml r cur = Some (caps, cur') /\
      g = default EmptyString (Re.group 1 caps).
Proof.
  induction s as [|c s IH]; intros before skip H; cbn [Re.findall_from] in H.
  - destruct skip; [|inversion H].
    destruct (Re.match_at ml r (Re.mkCursor before EmptyString)) as [[caps cur']|] eqn:E;
      [|inversion H].
    apply list_elem_of_singleton in H. eauto.
  - destruct skip as [|n]; [|exact (IH _ _ H)].
    destruct (Re.match_at ml r (Re.mkCursor before (String c s))) as [[caps cur']|] eqn:E;
      [|exact (IH _ _ H)].
    apply elem_of_cons in H as [->|H]; [eauto | exact (IH _ _ H)].
Qed.

(** The records that [_linux_unload_module] finds are named [libafs] or
    [openafs]. *)
Lemma lsmod_records (output g : string) :
  g ∈ Re.findall true lsmod_pattern output -> g = "libafs" \/ g = "openafs".
Proof.
  intros H. apply findall_from_sound in H as (cur & caps & cur' & Hm & ->).
  apply match_at_sound in Hm. unfold lsmod_pattern in Hm.
  inversion Hm as [| |a b c0 k0 c1 k1 c2 k2 Hbol Hrest| | | | | | |]; subst.
  inversion Hbol; subst.
  inversion Hrest as [| |a b c0 k0 c2' k1' c3 k2' Hg Hsp| | | | | | |]; subst.
  apply derives_group in Hg as (s & k & -> & _ & Hl & Hd).
  apply derives_groupless in Hsp; [|reflexivity]. subst caps.
  apply derives_groupless in Hd; [|reflexivity]. subst k.
  cbn. inversion Hl; subst; [left | right]; eapply lang_lit; eassumption.
Qed.

(** ** Unloading the module on Linux *)

Section UnloadMore.

Context {W : Type}.
Variable popen : string -> list string -> W -> completed * W.
Variable sleep : N -> W -> W.

(** The loop of [_linux_unload_module]: one [rmmod] after the other, and
    the first that exits non-zero ends the loop with its
    [CommandFailed]. *)
Lemma rmmod_loop_spec (kmods : list string) :
  forall st : St,
    for_each kmods
      (fun kmod => bind (run_default popen sleep "rmmod" (Some [kmod]))
                     (fun _ => ret tt)) st
    = let out := rmmod_until_failure popen kmods (world st) in
      (match out.2 with
       | None => inr tt
       | Some (kmod, r) =>
           inl (ExCommandFailed
                  (mkCommandFailed "rmmod" ["rmmod"; kmod]
                     (returncode r) (output r) (error r)))
       end,
       mkSt out.1.2
         (trace st ++ map (fun k => EvSpawn "rmmod" ["rmmod"; k]) out.1.1)).
Proof.
  induction kmods as [|k kmods IH]; intros st.
  - cbn. rewrite app_nil_r. destruct st; reflexivity.
  - cbn [for_each rmmod_until_failure].
    unfold bind at 1. unfold bind at 1.
    rewrite run_default_unfold. cbn zeta.
    change (default [] (Some [k])) with [k].
    destruct (popen "rmmod" ["rmmod"; k] (world st)) as [r w'] eqn:Hp.
    cbn [fst snd]. destruct (Z.eqb (returncode r) 0) eqn:Hrc.
    + unfold ret at 1. rewrite IH. cbn [world trace].
      destruct (rmmod_until_failure popen kmods w') as [[done w''] failed].
      cbn [fst snd map]. rewrite <- app_assoc. reflexivity.
    + reflexivity.
Qed.

(** What [rmmod_until_failure] gives: the modules are the first of the
    list, all of them when no run failed; a failing run exited non-zero
    and was the last. *)
Lemma rmmod_until_failure_spec (kmods : list string) :
  forall w : W,
    let out := rmmod_until_failure popen kmods w in
    out.1.1 `prefix_of` kmods /\
    match out.2 with
    | None => out.1.1 = kmods
    | Some (kmod, r) =>
        returncode r <> 0 /\ exists before, out.1.1 = before ++ [kmod]
    end.
Proof.
  induction kmods as [|k kmods IH]; intros w; cbn [rmmod_until_failure].
  - cbn. split; reflexivity.
  - destruct (popen "rmmod" ["rmmod"; k] w) as [r w'].
    destruct (Z.eqb (returncode r) 0) eqn:Hrc.
    + specialize (IH w'). cbv zeta in IH.
      destruct (rmmod_until_failure popen kmods w') as [[done w''] failed].
      cbn [fst snd] in *. destruct IH as [[rest ->] Hf]. split.
      * exists rest. reflexivity.
      * destruct failed as [[kmod r']|].
        -- destruct Hf as [Hne [before Hb]]. split; [exact Hne|].
           exists (k :: before). rewrite Hb. reflexivity.
        -- f_equal. exact Hf.
    + cbn [fst snd]. split; [exists kmods; reflexivity|].
      split; [apply Z.eqb_neq; exact Hrc | exists []; reflexivity].
Qed.

(** X12.  What [_linux_unload_module] does.  When [lsmod] exits non-zero,
    its [CommandFailed] is the result and nothing else is started.
    Otherwise [rmmod] is started for the records of the listing named
    [libafs] or [openafs], in the order of the listing, each in the world
    that the one before left: up to and including the first [rmmod] that
    exits non-zero, whose [CommandFailed] then is the result, and for all
    of them when every [rmmod] exits with 0. *)
Theorem linux_unload_starts_only_afs_rmmod (st : St) :
  let lsmod := popen "/sbin/lsmod" ["/sbin/lsmod"] (world st) in
  let kmods := Re.findall true lsmod_pattern (output lsmod.1) in
  let out := rmmod_until_failure popen kmods lsmod.2 in
  let started := EvSpawn "/sbin/lsmod" ["/sbin/lsmod"]
                 :: map (fun k => EvSpawn "rmmod" ["rmmod"; k]) out.1.1 in
  (returncode lsmod.1 <> 0 ->
   _linux_unload_module popen sleep st
   = (inl (ExCommandFailed
             (mkCommandFailed "/sbin/lsmod" ["/sbin/lsmod"] (returncode lsmod.1)
                (output lsmod.1) (error lsmod.1))),
      mkSt lsmod.2 (trace st ++ [EvSpawn "/sbin/lsmod" ["/sbin/lsmod"]]))) /\
  (returncode lsmod.1 = 0 ->
   _linux_unload_module popen sleep st
   = (match out.2 with
      | None => inr tt
      | Some (kmod, r) =>
          inl (ExCommandFailed
                 (mkCommandFailed "rmmod" ["rmmod"; kmod]
                    (returncode r) (output r) (error r)))
      end,
      mkSt out.1.2 (trace st ++ started))) /\
  (forall k, k ∈ out.1.1 -> k = "libafs" \/ k = "openafs") /\
  out.1.1 `prefix_of` kmods /\
  match out.2 with
  | None => out.1.1 = kmods
  | Some (kmod, r) => returncode r <> 0 /\ exists before, out.1.1 = before ++ [kmod]
  end.
Proof.
  intros lsmod kmods out started.
  pose proof (rmmod_until_failure_spec kmods lsmod.2) as Hspec.
  cbv zeta in Hspec. fold out in Hspec. destruct Hspec as [Hpre Hlast].
  assert (Hrun : run_default popen sleep "/sbin/lsmod" None st
                 = if Z.eqb (returncode lsmod.1) 0
                   then (inr (output lsmod.1),
                         mkSt lsmod.2 (trace st ++ [EvSpawn "/sbin/lsmod" ["/sbin/lsmod"]]))
                   else (inl (ExCommandFailed
                                (mkCommandFailed "/sbin/lsmod" ["/sbin/lsmod"]
                                   (returncode lsmod.1) (output lsmod.1) (error lsmod.1))),
                         mkSt lsmod.2 (trace st ++ [EvSpawn "/sbin/lsmod" ["/sbin/lsmod"]]))).
  { rewrite run_default_unfold. reflexivity. }
  split; [|split; [|split; [|split]]].
  - intros Hne. apply Z.eqb_neq in Hne. unfold _linux_unload_module, bind at 1.
    rewrite Hrun, Hne. reflexivity.
  - intros Hz. apply Z.eqb_eq in Hz. unfold _linux_unload_module, bind at 1.
    rewrite Hrun, Hz. rewrite rmmod_loop_spec. cbv zeta. cbn [world trace].
    fold kmods. fold out. unfold started. rewrite <- app_assoc. reflexivity.
  - intros k Hk. apply (lsmod_records (output lsmod.1)). fold kmods.
    destruct Hpre as [rest Hrest]. rewrite Hrest. apply elem_of_app. left. exact Hk.
  - exact Hpre.
  - exact Hlast.
Qed.

End UnloadMore.

(** ** Network interfaces *)

Lemma search_from_sound (ml : bool) (r : Re.regex) (caps : Re.captures) (s : string) :
  forall before,
    ReSem.search_from ml r before s = Some caps ->
    exists pre s' before' cur',
      s = pre +:+ s' /\
      Re.match_at ml r (Re.mkCursor before' s') = Some (caps, cur') /\
      ((pre = EmptyString /\ before' = before) \/
       exists p c, pre = p +:+ String c EmptyString /\ before' = Some c).
Proof.
  induction s as [|c s IH]; intros before H; cbn [ReSem.search_from] in H.
  - destruct (Re.match_at ml r (Re.mkCursor before EmptyString)) as [[k cur']|] eqn:E;
      [|discriminate].
    injection H as <-. exists EmptyString, EmptyString, before, cur'. auto.
  - destruct (Re.match_at ml r (Re.mkCursor before (String c s))) as [[k cur']|] eqn:E.
    + injection H as <-. exists EmptyString, (String c s), before, cur'. auto.
    + apply IH in H as (pre & s' & b' & cur' & -> & Hm & Hpre).
      exists (String c pre), s', b', cur'. split; [reflexivity|]. split; [exact Hm|].
      right. destruct Hpre as [[-> ->]|(p & c' & -> & ->)].
      * exists EmptyString, c. auto.
      * exists (String c p), c'. auto.
Qed.

Lemma lang_cat_inv (a b : Re.regex) (s : string) :
  lang (Re.Cat a b) s -> exists s1 s2, s = s1 +:+ s2 /\ lang a s1 /\ lang b s2.
Proof. intros H. inversion H; subst. eauto. Qed.

(** What the pattern for an address reads and holds in its group. *)
Lemma derives_quad_group (ml : bool) (c0 c1 : Re.cursor) (k0 k1 : Re.captures) :
  derives ml quad_group c0 k0 c1 k1 ->
  exists a, k1 = (1%nat, a) :: k0 /\ Re.rest c0 = a +:+ Re.rest c1 /\ dotted_quad a.
Proof.
  unfold quad_group. cbv zeta. intros H.
  apply derives_group in H as (a & k & -> & Hrest & Hl & Hd).
  apply derives_groupless in Hd; [|reflexivity]. subst k.
  exists a. split; [reflexivity|]. split; [exact Hrest|].
  apply lang_cat_inv in Hl as (n1 & r1 & -> & Hn1 & Hl).
  apply lang_cat_inv in Hl as (d1 & r2 & -> & Hd1 & Hl).
  apply lang_cat_inv in Hl as (n2 & r3 & -> & Hn2 & Hl).
  apply lang_cat_inv in Hl as (d2 & r4 & -> & Hd2 & Hl).
  apply lang_cat_inv in Hl as (n3 & r5 & -> & Hn3 & Hl).
  apply lang_cat_inv in Hl as (d3 & n4 & -> & Hd3 & Hn4).
  apply lang_lit in Hd1, Hd2, Hd3. subst d1 d2 d3.
  exists n1, n2, n3, n4. repeat split; auto using lang_number.
Qed.

(** A match of a literal followed by the address group. *)
Lemma match_lit_quad (ml : bool) (t : string) (cur cur' : Re.cursor)
    (caps : Re.captures) :
  Re.match_at ml (Re.Cat (Re.Lit t) quad_group) cur = Some (caps, cur') ->
  exists a, default EmptyString (Re.group 1 caps) = a /\
            Re.rest cur = t +:+ a +:+ Re.rest cur' /\ dotted_quad a.
Proof.
  intros H. apply match_at_sound in H.
  inversion H as [| |x y c0 k0 c1 k1 c2 k2 Hlit Hq| | | | | | |]; subst.
  pose proof (derives_groupless _ _ _ _ _ _ Hlit (groupless_lit t)) as ->.
  apply derives_reads in Hlit as (s & Hs & Hl). apply lang_lit in Hl. subst s.
  apply derives_quad_group in Hq as (a & -> & Ha & Hquad).
  exists a. split; [reflexivity|]. split; [|exact Hquad].
  rewrite Hs, Ha. reflexivity.
Qed.

(** The loop over the lines keeps what it had and adds, in the order of
    the lines, the addresses found that do not begin with [127.]. *)
Lemma collect_addrs_elem (find : string -> option Re.captures) (lines : list string) :
  forall (addrs : list string) (a : string),
    a ∈ collect_addrs find lines addrs ->
    a ∈ addrs \/
    exists line m, line ∈ lines /\ find line = Some m /\
                   a = default EmptyString (Re.group 1 m) /\
                   String.prefix "127." a = false.
Proof.
  induction lines as [|line rest IH]; intros addrs a H; [left; exact H|].
  cbn [collect_addrs] in H.
  assert (Hrest : forall acc, a ∈ collect_addrs find rest acc -> a ∈ acc \/
            exists line0 m, line0 ∈ line :: rest /\ find line0 = Some m /\
                            a = default EmptyString (Re.group 1 m) /\
                            String.prefix "127." a = false).
  { intros acc Hacc. destruct (IH _ _ Hacc) as [?|(l & m & Hl & ?)]; [left; assumption|].
    right. exists l, m. split; [right; exact Hl | assumption]. }
  destruct (find line) as [m|] eqn:Hf; [|exact (Hrest _ H)].
  destruct (String.prefix "127." (default EmptyString (Re.group 1 m))) eqn:Hp;
    cbn [negb] in H; [exact (Hrest _ H)|].
  destruct (Hrest _ H) as [Hin|Hex]; [|right; exact Hex].
  apply elem_of_app in Hin as [Hin|Hin]; [left; exact Hin|].
  apply list_elem_of_singleton in Hin. subst a.
  right. exists line, m. split; [left|auto].
Qed.

Section NetworkFacts.

Context {W : Type}.
Variable popen : string -> list string -> W -> completed * W.
Variable sleep : N -> W -> W.

(** X10.  On Linux, every address that [network_interfaces] returns is made of
    four decimal numbers with dots between them, does not begin with
    [127.], and stands after [inet ] in a line that [ip] printed. *)
Theorem linux_network_interfaces_addresses (st st' : St) (addrs : list string) :
  _linux_network_interfaces popen sleep st = (inr addrs, st') ->
  exists out,
    run_default popen sleep "/sbin/ip"
      (Some ["-oneline"; "-family"; "inet"; "addr"; "show"]) st = (inr out, st') /\
    forall a, a ∈ addrs ->
      dotted_quad a /\ String.prefix "127." a = false /\
      exists line pre post,
        line ∈ Py.splitlines out /\ line = pre +:+ "inet " +:+ a +:+ post.
Proof.
  unfold _linux_network_interfaces, bind, ret. intros H.
  destruct (run_default popen sleep "/sbin/ip" _ st) as [[e|out] st1]; [discriminate|].
  injection H as <- <-. exists out. split; [reflexivity|].
  intros a Ha. apply collect_addrs_elem in Ha as [Ha|(line & m & Hl & Hf & -> & Hp)];
    [inversion Ha|].
  apply search_from_sound in Hf as (pre & s' & b' & cur' & -> & Hm & _).
  apply match_lit_quad in Hm as (a & <- & Hrest & Hq). cbn [Re.rest] in Hrest.
  split; [exact Hq|]. split; [exact Hp|].
  exists (pre +:+ s'), pre, (Re.rest cur'). split; [exact Hl|].
  rewrite Hrest. reflexivity.
Qed.

(** X13.  On Solaris, every address that [network_interfaces] returns is made of
    four decimal numbers with dots between them, does not begin with
    [127.], and stands after [ok:] at the start of a line that [ipadm]
    printed. *)
Theorem solaris_network_interfaces_addresses (st st' : St) (addrs : list string) :
  _solaris_network_interfaces popen sleep st = (inr addrs, st') ->
  exists out,
    run_default popen sleep "ipadm"
      (Some ["show-addr"; "-p"; "-o"; "STATE,ADDR"]) st = (inr out, st') /\
    forall a, a ∈ addrs ->
      dotted_quad a /\ String.prefix "127." a = false /\
      exists line post,
        line ∈ Py.splitlines out /\ line = "ok:" +:+ a +:+ post.
Proof.
  unfold _solaris_network_interfaces, bind, ret. intros H.
  destruct (run_default popen sleep "ipadm" _ st) as [[e|out] st1]; [discriminate|].
  injection H as <- <-. exists out. split; [reflexivity|].
  intros a Ha. apply collect_addrs_elem in Ha as [Ha|(line & m & Hl & Hf & -> & Hp)];
    [inversion Ha|].
  unfold Re.re_match in Hf.
  destruct (Re.match_at false ipadm_pattern (Re.mkCursor None line))
    as [[caps cur']|] eqn:Hm; [|discriminate].
  injection Hf as <-.
  apply match_lit_quad in Hm as (a & <- & Hrest & Hq). cbn [Re.rest] in Hrest.
  split; [exact Hq|]. split; [exact Hp|].
  exists line, (Re.rest cur'). split; [exact Hl | exact Hrest].
Qed.

End NetworkFacts.

(** ** The mount point *)

Lemma lang_cls_inv (p : ascii -> bool) (s : string) :
  lang (Re.Cls p) s -> exists c, s = String c EmptyString /\ p c = true.
Proof. intros H. inversion H; subst. eauto. Qed.

Lemma derives_cat_inv (ml : bool) (a b : Re.regex) (c0 c2 : Re.cursor)
    (k0 k2 : Re.captures) :
  derives ml (Re.Cat a b) c0 k0 c2 k2 ->
  exists c1 k1, derives ml a c0 k0 c1 k1 /\ derives ml b c1 k1 c2 k2.
Proof. intros H. inversion H; subst. eauto. Qed.

Lemma derives_lit (ml : bool) (t : string) (c0 c1 : Re.cursor) (k0 k1 : Re.captures) :
  derives ml (Re.Lit t) c0 k0 c1 k1 -> k1 = k0 /\ Re.rest c0 = t +:+ Re.rest c1.
Proof.
  intros H. split.
  - exact (derives_groupless _ _ _ _ _ _ H (groupless_lit t)).
  - apply derives_reads in H as (s & Hs & Hl). apply lang_lit in Hl. subst s. exact Hs.
Qed.

(** What the group of the mount patterns reads and holds. *)
Lemma derives_mount_path (ml : bool) (c0 c1 : Re.cursor) (k0 k1 : Re.captures) :
  derives ml mount_path c0 k0 c1 k1 ->
  exists c tail,
    k1 = (1%nat, String "/" (String c tail)) :: k0 /\
    Re.rest c0 = String "/" (String c tail) +:+ Re.rest c1 /\
    not_LF c = true /\ tail <> EmptyString /\ all_chars nonspace tail = true.
Proof.
  unfold mount_path. intros H.
  apply derives_group in H as (m & k & -> & Hrest & Hl & Hd).
  apply derives_groupless in Hd; [|reflexivity]. subst k.
  apply lang_cat_inv in Hl as (sl & r1 & -> & Hsl & Hl).
  apply lang_cat_inv in Hl as (d & tail & -> & Hdot & Htail).
  apply lang_lit in Hsl. subst sl.
  apply lang_cls_inv in Hdot as (c & -> & Hc).
  apply lang_plus_cls in Htail as [Hne Hall].
  exists c, tail. repeat split; assumption.
Qed.

Section MountFacts.

Context {W : Type}.
Variable popen : string -> list string -> W -> completed * W.
Variable sleep : N -> W -> W.
Variable os_uname : W -> string.

(** X9.  A mount point that [afs_mountpoint] returns is a slash, a character
    other than a line feed, and one or more characters that are not
    whitespace.  On Linux it stands after [AFS on ] at the start of a line
    of what [mount] printed; on SunOS it stands before [ on AFS]. *)
Theorem afs_mountpoint_found (st st' : St) (m : string) :
  afs_mountpoint popen sleep os_uname st = (inr (Some m), st') ->
  exists output c tail pre post,
    run_default popen sleep "mount" None st = (inr output, st') /\
    m = String "/" (String c tail) /\
    not_LF c = true /\ tail <> EmptyString /\ all_chars nonspace tail = true /\
    ((os_uname (world st) = "Linux" /\
      output = pre +:+ "AFS on " +:+ m +:+ post /\
      (pre = EmptyString \/ exists p, pre = p +:+ String Py.LF EmptyString)) \/
     (os_uname (world st) = "SunOS" /\
      output = pre +:+ m +:+ " on AFS" +:+ post)).
Proof.
  unfold afs_mountpoint, bind, gets, raise, ret. intros H.
  destruct (String.eqb (os_uname (world st)) "Linux") eqn:Hl.
  - apply String.eqb_eq in Hl.
    destruct (run_default popen sleep "mount" None st) as [[e|output] st1];
      [discriminate|].
    destruct (ReSem.search true linux_mount_pattern output) as [found|] eqn:Hs;
      [|discriminate].
    injection H as <- <-.
    apply search_from_sound in Hs as (pre & s' & b' & cur' & -> & Hm & Hpre).
    apply match_at_sound in Hm. unfold linux_mount_pattern in Hm.
    apply derives_cat_inv in Hm as (c0 & k0 & Hbol & Hcat).
    inversion Hbol as [| | | | | | | |cur caps Hat|]; subst.
    apply derives_cat_inv in Hcat as (c1 & k1 & Hlit & Hpath).
    apply derives_lit in Hlit as [-> Ht].
    apply derives_mount_path in Hpath as (c & tail & -> & Hrest & Hc & Hne & Hall).
    cbn [Re.rest] in Ht. cbn [Re.group Nat.eqb default].
    exists (pre +:+ s'), c, tail, pre, (Re.rest cur').
    split; [reflexivity|]. split; [reflexivity|]. repeat (split; [assumption|]).
    left. split; [exact Hl|]. split.
    + rewrite Ht, Hrest. reflexivity.
    + destruct Hpre as [[-> _]|(p & c' & -> & ->)]; [left; reflexivity|].
      right. exists p. unfold Re.at_bol in Hat. cbn in Hat.
      apply Ascii.eqb_eq in Hat. subst c'. reflexivity.
  - destruct (String.eqb (os_uname (world st)) "SunOS") eqn:Hsun; [|discriminate].
    apply String.eqb_eq in Hsun.
    destruct (run_default popen sleep "mount" None st) as [[e|output] st1];
      [discriminate|].
    destruct (ReSem.search true solaris_mount_pattern output) as [found|] eqn:Hs;
      [|discriminate].
    injection H as <- <-.
    apply search_from_sound in Hs as (pre & s' & b' & cur' & -> & Hm & _).
    apply match_at_sound in Hm. unfold solaris_mount_pattern in Hm.
    apply derives_cat_inv in Hm as (c1 & k1 & Hpath & Hlit).
    apply derives_mount_path in Hpath as (c & tail & -> & Hrest & Hc & Hne & Hall).
    apply derives_lit in Hlit as [-> Ht].
    cbn [Re.rest] in Hrest. cbn [Re.group Nat.eqb default].
    exists (pre +:+ s'), c, tail, pre, (Re.rest cur').
    split; [reflexivity|]. split; [reflexivity|]. repeat (split; [assumption|]).
    right. split; [exact Hsun|]. rewrite Hrest, Ht. reflexivity.
Qed.


End MountFacts.

(** ** Loaded modules on Solaris *)

(** A part without groups before the rest of a pattern reads some text
    and leaves the groups alone. *)
Lemma derives_cat_groupless (ml : bool) (a b : Re.regex) (c0 c2 : Re.cursor)
    (k0 k2 : Re.captures) :
  groupless a = true ->
  derives ml (Re.Cat a b) c0 k0 c2 k2 ->
  exists s c1, Re.rest c0 = s +:+ Re.rest c1 /\ lang a s /\ derives ml b c1 k0 c2 k2.
Proof.
  intros Hg H. apply derives_cat_inv in H as (c1 & k1 & Ha & Hb).
  pose proof (derives_groupless _ _ _ _ _ _ Ha Hg) as ->.
  apply derives_reads in Ha as (s & Hs & Hl). eauto.
Qed.

(** What a line of [modinfo] that the pattern accepts looks like. *)
Lemma modinfo_match (line : string) (m : Re.captures) :
  Re.re_match modinfo_pattern line = Some m ->
  exists pre mid fields name post,
    line = pre +:+ mid +:+ fields +:+ name +:+ post /\
    all_chars Py.isspace pre = true /\
    is_number mid = true /\
    name <> EmptyString /\ all_chars nonspace name = true /\
    Re.group 1 m = Some mid /\ Re.group 2 m = Some name.
Proof.
  unfold Re.re_match. intros H.
  destruct (Re.match_at false modinfo_pattern (Re.mkCursor None line))
    as [[caps cur']|] eqn:Hm; [|discriminate].
  injection H as <-. apply match_at_sound in Hm.
  unfold modinfo_pattern in Hm. cbv zeta in Hm.
  apply derives_cat_groupless in Hm as (pre & c1 & Hpre & Lpre & Hm); [|reflexivity].
  apply derives_cat_inv in Hm as (c2 & k2 & Hid & Hm).
  apply derives_group in Hid as (mid & k & -> & Hmid & Lmid & Hid).
  apply derives_groupless in Hid; [|reflexivity]. subst k.
  apply derives_cat_groupless in Hm as (f1 & c3 & H1 & _ & Hm); [|reflexivity].
  apply derives_cat_groupless in Hm as (f2 & c4 & H2 & _ & Hm); [|reflexivity].
  apply derives_cat_groupless in Hm as (f3 & c5 & H3 & _ & Hm); [|reflexivity].
  apply derives_cat_groupless in Hm as (f4 & c6 & H4 & _ & Hm); [|reflexivity].
  apply derives_cat_groupless in Hm as (f5 & c7 & H5 & _ & Hm); [|reflexivity].
  apply derives_cat_groupless in Hm as (f6 & c8 & H6 & _ & Hm); [|reflexivity].
  apply derives_group in Hm as (name & k & -> & Hname & Lname & Hm).
  apply derives_groupless in Hm; [|reflexivity]. subst k.
  apply lang_plus_cls in Lname as [Hne Hall].
  exists pre, mid, (f1 +:+ f2 +:+ f3 +:+ f4 +:+ f5 +:+ f6), name, (Re.rest cur').
  split.
  { cbn [Re.rest] in Hpre. rewrite Hpre, Hmid, H1, H2, H3, H4, H5, H6, Hname.
    rewrite <- !append_assoc. reflexivity. }
  split; [exact (lang_star_cls _ _ Lpre)|].
  split; [exact (lang_number _ Lmid)|].
  repeat split; assumption.
Qed.

(** The loop over the lines of [modinfo]. *)
Lemma modinfo_lines_result (kmod : string) (lines : list string) (v : pyvalue) :
  modinfo_lines kmod lines = inr v ->
  match v with
  | PyStr mid =>
      is_number mid = true /\ kmod <> EmptyString /\ all_chars nonspace kmod = true /\
      exists line pre fields post,
        line ∈ lines /\ all_chars Py.isspace pre = true /\
        line = pre +:+ mid +:+ fields +:+ kmod +:+ post
  | PyInt z =>
      z = 0 /\
      forall line, line ∈ lines ->
        exists m, Re.re_match modinfo_pattern line = Some m /\
                  default EmptyString (Re.group 2 m) <> kmod
  end.
Proof.
  induction lines as [|line rest IH]; cbn [modinfo_lines].
  - intros H. injection H as <-. split; [reflexivity|]. intros line H. inversion H.
  - destruct (Re.re_match modinfo_pattern line) as [m|] eqn:Hm; [|discriminate].
    destruct (String.eqb kmod (default EmptyString (Re.group 2 m))) eqn:Hk.
    + intros H. injection H as <-. apply String.eqb_eq in Hk.
      apply modinfo_match in Hm
        as (pre & mid & fields & name & post & -> & Hpre & Hmid & Hne & Hall & H1 & H2).
      rewrite H1. rewrite H2 in Hk.
      change (default EmptyString (Some name)) with name in Hk.
      change (default EmptyString (Some mid)) with mid. subst name.
      repeat (split; [assumption|]).
      exists (pre +:+ mid +:+ fields +:+ kmod +:+ post), pre, fields, post.
      split; [left|auto].
    + intros H. apply IH in H. destruct v as [mid|z].
      * destruct H as (Hmid & Hne & Hall & l & pre & fields & post & Hl & Hrest).
        repeat (split; [assumption|]).
        exists l, pre, fields, post. split; [right; exact Hl | exact Hrest].
      * destruct H as [-> Hall]. split; [reflexivity|].
        intros l Hl. apply elem_of_cons in Hl as [->|Hl]; [|exact (Hall l Hl)].
        exists m. split; [exact Hm|]. apply String.eqb_neq in Hk. congruence.
Qed.

Section SolarisModuleFacts.

Context {W : Type}.
Variable popen : string -> list string -> W -> completed * W.
Variable sleep : N -> W -> W.

(** X14.  What [_solaris_is_loaded] returns.  A module id is a decimal number
    that stands, after whitespace at most, at the start of a line of
    [modinfo] below the header, and the module name stands later in that
    line; a name that is empty or has whitespace in it is never found.
    Otherwise the result is the integer 0, and then every line below the
    header has the expected fields and names another module. *)
Theorem solaris_is_loaded_result (kmod : string) (st st' : St) (v : pyvalue) :
  _solaris_is_loaded popen sleep kmod st = (inr v, st') ->
  exists out,
    run_default popen sleep "/usr/sbin/modinfo" (Some ["-w"]) st = (inr out, st') /\
    match v with
    | PyStr mid =>
        is_number mid = true /\ kmod <> EmptyString /\
        all_chars nonspace kmod = true /\
        exists line pre fields post,
          line ∈ List.tl (Py.splitlines out) /\ all_chars Py.isspace pre = true /\
          line = pre +:+ mid +:+ fields +:+ kmod +:+ post
    | PyInt z =>
        z = 0 /\
        forall line, line ∈ List.tl (Py.splitlines out) ->
          exists m, Re.re_match modinfo_pattern line = Some m /\
                    default EmptyString (Re.group 2 m) <> kmod
    end.
Proof.
  unfold _solaris_is_loaded, bind, lift_result. intros H.
  destruct (run_default popen sleep "/usr/sbin/modinfo" (Some ["-w"]) st)
    as [[e|out] st1]; [discriminate|].
  destruct (modinfo_lines kmod (List.tl (Py.splitlines out))) as [e|v'] eqn:Hl;
    [discriminate|].
  injection H as <- <-. exists out. split; [reflexivity|].
  exact (modinfo_lines_result _ _ _ Hl).
Qed.


End SolarisModuleFacts.

(** ** Rebuilding from source *)

Section RebuildFacts.

Import Build.

Context {W : Type}.
Variable os_system : string -> string -> W -> Z * W.
Variable isdir : string -> string -> W -> bool.
Variable isfile : string -> string -> W -> bool.
Variable can_chdir : string -> string -> W -> bool.
Variable os_uname : W -> string.

(** X19.  With the flags that [rebuild] chooses itself the target is [dest] on
    every system. *)
Theorem rebuild_default_target_is_dest (uname : string) :
  build_target None (configure_flags None uname) = "dest".
Proof.
  unfold configure_flags. destruct (String.eqb uname "Linux"); vm_compute; reflexivity.
Qed.

Lemma bbind_at {A C : Type} (c c' : @B W A) (k : A -> @B W C) (st : @BSt W) :
  c st = c' st -> bbind c k st = bbind c' k st.
Proof. unfold bbind. intros ->. reflexivity. Qed.

(** What [issue_until_failure] gives: the commands are the first of the
    list, all of them when no status was other than 0; a status that
    ended the run is not 0 and belongs to the last command given. *)
Lemma issue_until_failure_spec (d : string) (cmds : list string) :
  forall w : W,
    let out := issue_until_failure os_system d cmds w in
    out.1.1 `prefix_of` cmds /\
    match out.2 with
    | None => out.1.1 = cmds
    | Some code =>
        code <> 0 /\
        exists before cmd,
          out.1.1 = before ++ [cmd] /\
          (os_system d cmd (issue_until_failure os_system d before w).1.2).1 = code
    end.
Proof.
  induction cmds as [|c cmds IH]; intros w; cbn [issue_until_failure].
  - cbn. split; reflexivity.
  - destruct (os_system d c w) as [code w'] eqn:Hsys.
    destruct (Z.eqb code 0) eqn:Hc.
    + specialize (IH w'). cbv zeta in IH.
      destruct (issue_until_failure os_system d cmds w') as [[done w''] failed] eqn:Hrest.
      cbn [fst snd] in *. destruct IH as [[rest Hrest'] Hf]. split.
      * exists rest. rewrite Hrest'. reflexivity.
      * destruct failed as [code'|].
        -- destruct Hf as (Hne & before & cmd & Hb & Hlast). split; [exact Hne|].
           exists (c :: before), cmd. split; [rewrite Hb; reflexivity|].
           cbn [issue_until_failure]. rewrite Hsys, Hc.
           destruct (issue_until_failure os_system d before w') as [[done' w3] f3] eqn:Hb'.
           exact Hlast.
        -- f_equal. exact Hf.
    + cbn [fst snd]. split; [exists cmds; reflexivity|].
      split; [apply Z.eqb_neq; exact Hc|]. exists [], c. split; [reflexivity|].
      cbn. rewrite Hsys. reflexivity.
Qed.

(** One command of [rebuild] followed by the rest. *)
Lemma bbind_run_eq {C : Type} (cmd : string) (k : unit -> @B W C) (st : @BSt W) :
  bbind (Build.run os_system cmd) k st
  = let r := os_system (cwd st) cmd (bworld st) in
    let st1 := mkBSt r.2 (cwd st) (issued st ++ [(cwd st, cmd)]) in
    if Z.eqb r.1 0 then k tt st1 else (inl (SystemExit r.1), st1).
Proof.
  unfold bbind, Build.run. destruct (os_system (cwd st) cmd (bworld st)) as [code w'].
  cbn [fst snd]. destruct (Z.eqb code 0); reflexivity.
Qed.

(** A run of commands one after the other, followed by the rest. *)
Lemma issue_then (d : string) (cmds : list string) :
  forall (w : W) (done0 : list (string * string)) (C : Type)
         (k : @BSt W -> (build_exn + C) * @BSt W)
         (chain : @BSt W -> (build_exn + C) * @BSt W),
    (forall st, chain st = fold_right
                   (fun cmd (rest : @BSt W -> (build_exn + C) * @BSt W) =>
                      bbind (Build.run os_system cmd) (fun _ => rest))
                   k cmds st) ->
    chain (mkBSt w d done0)
    = let out := issue_until_failure os_system d cmds w in
      let st1 := mkBSt out.1.2 d (done0 ++ map (pair d) out.1.1) in
      match out.2 with
      | Some code => (inl (SystemExit code), st1)
      | None => k st1
      end.
Proof.
  induction cmds as [|c cmds IH]; intros w done0 C k chain Hchain; rewrite Hchain.
  - cbn. rewrite app_nil_r. reflexivity.
  - cbn [fold_right issue_until_failure]. rewrite bbind_run_eq. cbn zeta.
    cbn [cwd bworld issued].
    destruct (os_system d c w) as [code w'] eqn:Hsys. cbn [fst snd].
    destruct (Z.eqb code 0) eqn:Hc.
    + rewrite (IH w' (done0 ++ [(d, c)]) C k
                 (fold_right
                    (fun cmd (rest : @BSt W -> (build_exn + C) * @BSt W) =>
                       bbind (Build.run os_system cmd) (fun _ => rest)) k cmds))
        by reflexivity.
      cbv zeta.
      destruct (issue_until_failure os_system d cmds w') as [[done w''] failed].
      cbn [fst snd map]. rewrite <- app_assoc. reflexivity.
    + reflexivity.
Qed.

(** [rebuild] from the build directory on. *)
Lemma rebuild_tail (origdir cf target : option string) (clean : bool)
    (w : W) (d : string) (issued0 : list (string * string)) :
  bbind (fun st => (inr (configure_flags cf (os_uname (bworld st))), st))
    (fun cf =>
  bbind (if clean then
           fun st =>
             if isdir (cwd st) ".git" (bworld st)
             then Build.run os_system "git clean -f -d -x -q" st
             else if isfile (cwd st) "./Makefile" (bworld st)
                  then Build.run os_system "make clean" st
                  else bret tt st
         else bret tt)
    (fun _ =>
  bbind (Build.run os_system "./regen.sh") (fun _ =>
  bbind (Build.run os_system ("./configure " +:+ cf)) (fun _ =>
  bbind (Build.run os_system ("make " +:+ build_target target cf)) (fun _ =>
  match origdir with
  | Some (String c d0) => chdir can_chdir (String c d0)
  | _ => bret tt
  end))))) (mkBSt w d issued0)
  = let plan := planned isdir isfile os_uname cf target clean d w in
    let out := issue_until_failure os_system d plan w in
    let st1 := mkBSt out.1.2 d (issued0 ++ map (pair d) out.1.1) in
    match out.2 with
    | Some code => (inl (SystemExit code), st1)
    | None =>
        match origdir with
        | Some (String c d0) => chdir can_chdir (String c d0) st1
        | _ => (inr tt, st1)
        end
    end.
Proof.
  unfold bbind at 1. cbn [bworld]. cbv zeta.
  set (flags := configure_flags cf (os_uname w)).
  set (tgt := build_target target flags).
  set (final := match origdir with
                | Some (String c d0) => chdir can_chdir (String c d0)
                | _ => bret tt
                end).
  assert (Hfinal : forall st1, final st1 = match origdir with
                                           | Some (String c d0) =>
                                               chdir can_chdir (String c d0) st1
                                           | _ => (inr tt, st1)
                                           end).
  { intros st1. unfold final. destruct origdir as [[|c d0]|]; reflexivity. }
  unfold planned, clean_commands. fold flags. fold tgt.
  destruct clean;
    [destruct (isdir d ".git" w) eqn:Hgit;
       [|destruct (isfile d "./Makefile" w) eqn:Hmk]|].
  - rewrite (bbind_at _ (Build.run os_system "git clean -f -d -x -q"))
      by (cbn [cwd bworld]; rewrite Hgit; reflexivity).
    cbn [app]. rewrite <- Hfinal.
    exact (issue_then d ["git clean -f -d -x -q"; "./regen.sh"; "./configure " +:+ flags;
                         "make " +:+ tgt] w issued0 unit final _ (fun _ => eq_refl)).
  - rewrite (bbind_at _ (Build.run os_system "make clean"))
      by (cbn [cwd bworld]; rewrite Hgit, Hmk; reflexivity).
    cbn [app]. rewrite <- Hfinal.
    exact (issue_then d ["make clean"; "./regen.sh"; "./configure " +:+ flags;
                         "make " +:+ tgt] w issued0 unit final _ (fun _ => eq_refl)).
  - rewrite (bbind_at _ (bret tt))
      by (cbn [cwd bworld]; rewrite Hgit, Hmk; reflexivity).
    cbn [app]. rewrite <- Hfinal.
    exact (issue_then d ["./regen.sh"; "./configure " +:+ flags; "make " +:+ tgt]
             w issued0 unit final _ (fun _ => eq_refl)).
  - cbn [app]. rewrite <- Hfinal.
    exact (issue_then d ["./regen.sh"; "./configure " +:+ flags; "make " +:+ tgt]
             w issued0 unit final _ (fun _ => eq_refl)).
Qed.

(** X20.  What [rebuild] does with [os.system].  When the first
    [os.chdir] fails nothing is given to it.  Otherwise it is given the
    commands of the plan, in order and in the build directory, each in
    the world that the one before left, up to and including the first
    whose status is not 0: that status then ends the run with
    [SystemExit], in the build directory.  When every status is 0 the
    whole plan was given, and the run ends in the directory it started
    from when that has an absolute name, or with the error of the
    [os.chdir] back. *)
Theorem rebuild_issues_plan_prefix (dir cf target : option string) (clean : bool)
    (st st' : BSt) (res : build_exn + unit) :
  rebuild os_system isdir isfile can_chdir os_uname dir cf target clean st
    = (res, st') ->
  let d := build_dir dir (cwd st) in
  let plan := planned isdir isfile os_uname cf target clean d (bworld st) in
  let out := issue_until_failure os_system d plan (bworld st) in
  (exists p, dir = Some p /\ can_chdir (cwd st) p (bworld st) = false /\
             res = inl (ChdirError p) /\ st' = st) \/
  ((forall p, dir = Some p -> can_chdir (cwd st) p (bworld st) = true) /\
   issued st' = issued st ++ map (pair d) out.1.1 /\
   bworld st' = out.1.2 /\
   out.1.1 `prefix_of` plan /\
   match out.2 with
   | Some code =>
       res = inl (SystemExit code) /\ code <> 0 /\ cwd st' = d /\
       exists before cmd,
         out.1.1 = before ++ [cmd] /\
         (os_system d cmd (issue_until_failure os_system d before (bworld st)).1.2).1
         = code
   | None =>
       out.1.1 = plan /\
       ((res = inr tt /\ (String.prefix "/" (cwd st) = true -> cwd st' = cwd st)) \/
        (res = inl (ChdirError (cwd st)) /\ dir <> None /\ cwd st' = d))
   end).
Proof.
  intros H d plan out. unfold rebuild in H.
  assert (Hbody : forall origdir,
            (origdir = None /\ dir = None \/ origdir = Some (cwd st) /\ dir <> None) ->
            (let plan := planned isdir isfile os_uname cf target clean d (bworld st) in
             let out := issue_until_failure os_system d plan (bworld st) in
             let st1 := mkBSt out.1.2 d (issued st ++ map (pair d) out.1.1) in
             match out.2 with
             | Some code => (inl (SystemExit code), st1)
             | None =>
                 match origdir with
                 | Some (String c d0) => chdir can_chdir (String c d0) st1
                 | _ => (inr tt, st1)
                 end
             end) = (res, st') ->
            issued st' = issued st ++ map (pair d) out.1.1 /\
            bworld st' = out.1.2 /\
            out.1.1 `prefix_of` plan /\
            match out.2 with
            | Some code =>
                res = inl (SystemExit code) /\ code <> 0 /\ cwd st' = d /\
                exists before cmd,
                  out.1.1 = before ++ [cmd] /\
                  (os_system d cmd
                     (issue_until_failure os_system d before (bworld st)).1.2).1 = code
            | None =>
                out.1.1 = plan /\
                ((res = inr tt /\
                  (String.prefix "/" (cwd st) = true -> cwd st' = cwd st)) \/
                 (res = inl (ChdirError (cwd st)) /\ dir <> None /\ cwd st' = d))
            end).
  { intros origdir Horig. cbv zeta. fold plan. fold out.
    pose proof (issue_until_failure_spec d plan (bworld st)) as Hspec.
    cbv zeta in Hspec. fold out in Hspec. destruct Hspec as [Hpre Hlast].
    destruct out.2 as [code|].
    - intros Heq. injection Heq as <- <-. cbn [issued bworld cwd].
      destruct Hlast as [Hne Hlast]. auto 10.
    - destruct Horig as [[-> Hdir]|[-> Hdir]].
      + intros Heq. injection Heq as <- <-. cbn [issued bworld cwd].
        repeat (split; [first [reflexivity | assumption]|]).
        left. split; [reflexivity|]. intros _. unfold d. rewrite Hdir. reflexivity.
      + destruct (cwd st) as [|c d0] eqn:Hcwd.
        * intros Heq. injection Heq as <- <-. cbn [issued bworld cwd].
          repeat (split; [first [reflexivity | assumption]|]).
          left. split; [reflexivity | discriminate].
        * unfold chdir. cbn [cwd bworld issued].
          destruct (can_chdir d (String c d0) out.1.2);
            intros Heq; injection Heq as <- <-; cbn [issued bworld cwd];
            repeat (split; [first [reflexivity | assumption]|]).
          -- left. split; [reflexivity|]. intros Habs. unfold Py.os_path_join.
             rewrite Habs. reflexivity.
          -- right. auto. }
  destruct dir as [p|].
  - unfold bbind at 1 in H. unfold bbind at 1 in H. unfold chdir at 1 in H.
    destruct (can_chdir (cwd st) p (bworld st)) eqn:Hcd.
    + right. split; [intros p' Hp'; injection Hp' as <-; exact Hcd|].
      unfold bret at 1 in H.
      rewrite (rebuild_tail (Some (cwd st)) cf target clean (bworld st)
                 (Py.os_path_join (cwd st) p) (issued st)) in H.
      apply (Hbody (Some (cwd st))); [right; split; [reflexivity | discriminate]|].
      exact H.
    + left. injection H as <- <-. exists p. auto.
  - right. split; [discriminate|].
    unfold bbind at 1 in H. unfold bret at 1 in H.
    replace st with (mkBSt (bworld st) (cwd st) (issued st)) in H at 1
      by (destruct st; reflexivity).
    rewrite (rebuild_tail None cf target clean (bworld st) (cwd st) (issued st)) in H.
    apply (Hbody None); [left; auto | exact H].
Qed.

End RebuildFacts.

(** ** Symbolic links, whatever the outcome *)

(** [symlink] either raises [AssertionError] and changes nothing, or
    makes the link. *)
Lemma symlink_fails_or_links (fs : FS) (src dst : string) :
  (exists msg, symlink src dst fs = (inl (AssertionError msg), fs)) \/
  (symlink src dst fs = (inr tt, <[dst := Link src]> fs) /\
   Os.path_isfile fs src = true /\
   (fs !! dst = None \/ exists t, fs !! dst = Some (Link t))).
Proof.
  destruct (Os.path_isfile fs src) eqn:Hsrc.
  - destruct (Os.path_exists fs dst && negb (Os.path_islink fs dst)) eqn:Hdst.
    + left. unfold symlink, bind, gets, raise. rewrite Hsrc. cbn [negb].
      rewrite Hdst. eauto.
    + right. rewrite (symlink_creates _ _ _ Hsrc Hdst), insert_delete_eq.
      auto using dst_free_or_link.
  - left. unfold symlink, bind, gets, raise. rewrite Hsrc. cbn [negb]. eauto.
Qed.

(** X15.  What a call of [symlink] leaves behind.  No directory entry
    other than [dst] is made, removed or changed.  [AssertionError] is
    raised exactly when [src] is not an existing regular file or [dst]
    exists and is no link, and then nothing has changed.  When the call
    completes, [dst] is a link with [src] as its target, [src] is an
    existing regular file and [dst] was free or a link before. *)
Theorem symlink_outcomes (fs fs1 : FS) (src dst : string) (res : exn + unit) :
  symlink src dst fs = (res, fs1) ->
  (forall p, p <> dst -> fs1 !! p = fs !! p) /\
  ((exists msg, res = inl (AssertionError msg)) <->
   (Os.path_isfile fs src = false \/
    (Os.path_exists fs dst = true /\ Os.path_islink fs dst = false))) /\
  (forall msg, res = inl (AssertionError msg) -> fs1 = fs) /\
  (res = inr tt ->
   fs1 !! dst = Some (Link src) /\ Os.path_isfile fs src = true /\
   (fs !! dst = None \/ exists t, fs !! dst = Some (Link t))).
Proof.
  intros H.
  destruct (Os.path_isfile fs src) eqn:Hsrc;
    [destruct (Os.path_exists fs dst && negb (Os.path_islink fs dst)) eqn:Hdst|].
  - (* the destination is taken *)
    assert (Hres : exists msg, (res, fs1) = (inl (AssertionError msg), fs)).
    { rewrite <- H. unfold symlink, bind, gets, raise. rewrite Hsrc. cbn [negb].
      rewrite Hdst. eauto. }
    destruct Hres as [msg Hres]. injection Hres as -> ->.
    apply andb_true_iff in Hdst as [He Hl]. apply negb_true_iff in Hl.
    split; [reflexivity|]. split; [split; eauto|]. split; [reflexivity | discriminate].
  - rewrite (symlink_creates _ _ _ Hsrc Hdst), insert_delete_eq in H.
    injection H as <- <-. split.
    { intros p Hp. apply lookup_insert_ne. congruence. }
    split.
    { split; [intros [msg Hm]; discriminate|].
      intros [Hf|[He Hl]]; [discriminate|]. rewrite He, Hl in Hdst. discriminate. }
    split; [discriminate|]. intros _. rewrite lookup_insert_eq.
    auto using dst_free_or_link.
  - assert (Hres : (res, fs1)
                   = (inl (AssertionError
                             ("Failed to make symlink: src " +:+ src +:+ " not found")),
                      fs)).
    { rewrite <- H. unfold symlink, bind, gets, raise. rewrite Hsrc. reflexivity. }
    injection Hres as -> ->.
    split; [reflexivity|]. split; [split; eauto|]. split; [reflexivity | discriminate].
Qed.

Lemma symlink_keeps_non_links (fs fs1 : FS) (src dst : string) (res : exn + unit) :
  symlink src dst fs = (res, fs1) ->
  same_non_links fs fs1 /\ forall e, res = inl e -> exists msg, e = AssertionError msg.
Proof.
  intros H. destruct (symlink_fails_or_links fs src dst) as [[msg H']|(H' & _ & Hdst)];
    rewrite H' in H; injection H as <- <-.
  - split; [apply same_non_links_refl|]. intros e He. injection He as <-. eauto.
  - split; [exact (same_non_links_insert _ _ _ Hdst) | discriminate].
Qed.

Lemma so_symlinks_entry_keeps_non_links (d n : string) (fs fs1 : FS)
    (res : exn + unit) :
  so_symlinks_entry d n fs = (res, fs1) ->
  same_non_links fs fs1 /\ forall e, res = inl e -> exists msg, e = AssertionError msg.
Proof.
  unfold so_symlinks_entry, bind, gets, ret. intros H.
  destruct (Os.path_isdir fs _ || Os.path_islink fs _).
  { injection H as <- <-. split; [apply same_non_links_refl | discriminate]. }
  destruct (so_groups _) as [[[[so x] y] z]|].
  2:{ injection H as <- <-. split; [apply same_non_links_refl | discriminate]. }
  destruct (symlink _ (so +:+ "." +:+ x +:+ "." +:+ y) fs) as [[e|[]] fsa] eqn:Ha;
    apply symlink_keeps_non_links in Ha as [Hsa Hea].
  { injection H as <- <-. split; [exact Hsa|]. intros e' He'. injection He' as <-. eauto. }
  destruct (symlink _ (so +:+ "." +:+ x) fsa) as [[e|[]] fsb] eqn:Hb;
    apply symlink_keeps_non_links in Hb as [Hsb Heb].
  { injection H as <- <-. split; [exact (same_non_links_trans _ _ _ Hsa Hsb)|].
    intros e' He'. injection He' as <-. eauto. }
  apply symlink_keeps_non_links in H as [Hsc Hec].
  split; [|exact Hec].
  exact (same_non_links_trans _ _ _ Hsa (same_non_links_trans _ _ _ Hsb Hsc)).
Qed.

Lemma so_symlinks_loop_keeps_non_links (d : string) (es : list string) :
  forall (fs fs' : FS) (res : exn + unit),
    for_each es (so_symlinks_entry d) fs = (res, fs') ->
    same_non_links fs fs' /\ forall e, res = inl e -> exists msg, e = AssertionError msg.
Proof.
  induction es as [|e1 rest IH]; intros fs fs' res H.
  - injection H as <- <-. split; [apply same_non_links_refl | discriminate].
  - cbn [for_each] in H. unfold bind in H.
    destruct (so_symlinks_entry d e1 fs) as [[ex|[]] fs1] eqn:H1;
      apply so_symlinks_entry_keeps_non_links in H1 as [Hs1 He1].
    + injection H as <- <-. split; [exact Hs1|].
      intros e' He'. injection He' as <-. eauto.
    + apply IH in H as [Hs He]. split; [exact (same_non_links_trans _ _ _ Hs1 Hs)|].
      exact He.
Qed.

(** X16.  Whatever the outcome of [_so_symlinks], also when it stops part-way,
    every regular file, directory and special file is as before: only
    links were made or replaced.  It raises [OSError] exactly when [path]
    is not a directory, changing nothing, and otherwise nothing but
    [AssertionError]. *)
Theorem so_symlinks_keeps_non_links (path : string) (fs fs' : FS) (res : exn + unit) :
  _so_symlinks path fs = (res, fs') ->
  same_non_links fs fs' /\
  match res with
  | inl e =>
      (Os.path_isdir fs path = false /\ e = OSError path /\ fs' = fs) \/
      (Os.path_isdir fs path = true /\ exists msg, e = AssertionError msg)
  | inr _ => Os.path_isdir fs path = true
  end.
Proof.
  unfold _so_symlinks, bind, gets, ret, Os.listdir. intros H.
  destruct (Os.path_isdir fs path) eqn:Hdir; cbn [negb] in H; rewrite ?Hdir in H.
  - apply so_symlinks_loop_keeps_non_links in H as [Hs He]. split; [exact Hs|].
    destruct res as [e|]; [|reflexivity]. right. split; [reflexivity|].
    exact (He e eq_refl).
  - injection H as <- <-. split; [apply same_non_links_refl|]. left. auto.
Qed.

(** ** The dynamic linker on Solaris *)

Section SolarisLinkerFacts.

Context {W : Type}.
Variable popen : string -> list string -> W -> completed * W.
Variable sleep : N -> W -> W.


End SolarisLinkerFacts.

(** ** Words, and the modules of a Linux kernel *)

(** The words of [s.split()] are not empty and hold no whitespace. *)
Lemma split_ws_words (s : string) :
  forall w, w ∈ Py.split_ws s -> w <> EmptyString /\ all_chars nonspace w = true.
Proof.
  induction s as [|a r IH]; intros w Hw; [inversion Hw|].
  cbn [Py.split_ws] in Hw.
  destruct (Py.isspace a) eqn:Ha; [exact (IH w Hw)|].
  assert (Hone : String a EmptyString <> EmptyString /\
                 all_chars nonspace (String a EmptyString) = true).
  { split; [discriminate|]. cbn [all_chars]. unfold nonspace. rewrite Ha. reflexivity. }
  destruct r as [|b r'].
  { apply list_elem_of_singleton in Hw. subst w. exact Hone. }
  destruct (Py.isspace b) eqn:Hb.
  { apply elem_of_cons in Hw as [->|Hw]; [exact Hone | exact (IH w Hw)]. }
  destruct (Py.split_ws (String b r')) as [|h t] eqn:Hs.
  { apply list_elem_of_singleton in Hw. subst w. exact Hone. }
  apply elem_of_cons in Hw as [->|Hw].
  - destruct (IH h) as [_ Hh]; [left|]. split; [discriminate|].
    cbn [all_chars]. unfold nonspace at 1. rewrite Ha. exact Hh.
  - apply IH. right. exact Hw.
Qed.

(** A text that is not all whitespace has a first word. *)
Lemma split_ws_nonblank (s : string) :
  whitespace_only s = false -> exists w rest, Py.split_ws s = w :: rest.
Proof.
  induction s as [|a r IH]; [discriminate|].
  cbn [whitespace_only Py.split_ws]. destruct (Py.isspace a); cbn [andb].
  - exact IH.
  - intros _. destruct r as [|b r']; [eauto|].
    destruct (Py.isspace b); [eauto|].
    destruct (Py.split_ws (String b r')); eauto.
Qed.

(** The loop of [_linux_is_loaded]. *)
Lemma linux_is_loaded_lines_spec (kmod : string) (lines : list string) :
  match linux_is_loaded_lines kmod lines with
  | inr true => exists line rest, line ∈ lines /\ Py.split_ws line = kmod :: rest
  | inr false =>
      forall line, line ∈ lines ->
        exists name rest, Py.split_ws line = name :: rest /\ name <> kmod
  | inl e => e = IndexError /\ exists line, line ∈ lines /\ Py.split_ws line = []
  end.
Proof.
  induction lines as [|line rest IH]; cbn [linux_is_loaded_lines].
  - intros line H. inversion H.
  - destruct (Py.split_ws line) as [|name more] eqn:Hs.
    + split; [reflexivity|]. exists line. split; [left | exact Hs].
    + destruct (String.eqb kmod name) eqn:Hk.
      * apply String.eqb_eq in Hk. subst name. exists line, more. split; [left | exact Hs].
      * apply String.eqb_neq in Hk.
        destruct (linux_is_loaded_lines kmod rest) as [e|[|]].
        -- destruct IH as [-> (l & Hl & Hb)]. split; [reflexivity|].
           exists l. split; [right; exact Hl | exact Hb].
        -- destruct IH as (l & more' & Hl & Hw). exists l, more'.
           split; [right; exact Hl | exact Hw].
        -- intros l Hl. apply elem_of_cons in Hl as [->|Hl]; [|exact (IH l Hl)].
           exists name, more. split; [exact Hs | congruence].
Qed.

Section LinuxModuleFacts.

Context {W : Type}.
Variable proc_modules : W -> string.

(** X11.  [_linux_is_loaded] changes nothing.  It returns [True] only when the
    name is the first word of a line of [/proc/modules], so never for a
    name that is empty or has whitespace in it; [False] only when every
    line has a first word and none is the name; and it raises
    [IndexError], and nothing else, only when a line has no word. *)
Theorem linux_is_loaded_outcome (kmod : string) (st : @St W) :
  let lines := PyText.readlines (proc_modules (world st)) in
  exists res,
    _linux_is_loaded proc_modules kmod st = (res, st) /\
    match res with
    | inr true =>
        (exists line rest, line ∈ lines /\ Py.split_ws line = kmod :: rest) /\
        kmod <> EmptyString /\ all_chars nonspace kmod = true
    | inr false =>
        forall line, line ∈ lines ->
          exists name rest, Py.split_ws line = name :: rest /\ name <> kmod
    | inl e => e = IndexError /\ exists line, line ∈ lines /\ Py.split_ws line = []
    end.
Proof.
  intros lines. unfold _linux_is_loaded, bind, gets, lift_result. fold lines.
  pose proof (linux_is_loaded_lines_spec kmod lines) as H.
  destruct (linux_is_loaded_lines kmod lines) as [e|[|]] eqn:E;
    eexists; (split; [reflexivity|]); cbv beta iota; auto.
  split; [exact H|]. destruct H as (line & rest & _ & Hs).
  apply (split_ws_words line). rewrite Hs. left.
Qed.

End LinuxModuleFacts.

(** ** The command runner: a negative retry count *)

Section RunnerMore.

Context {W : Type}.
Variable popen : string -> list string -> W -> completed * W.
Variable sleep : N -> W -> W.

(** X1.  With a negative retry count the loop of [run] has no round: nothing
    is started, and the [raise] after the loop fails with
    [UnboundLocalError] on [rc] instead of [CommandFailed]. *)
Theorem run_negative_retry_unbound (cmd : string) (args : option (list string))
    (quiet : bool) (retry : Z) (wait : N) (cleanup : option (W -> W)) (st : St) :
  retry < 0 ->
  run popen sleep cmd args quiet retry wait cleanup st
  = (inl (UnboundLocalError "rc"), st).
Proof.
  intros Hneg. unfold run, xrange0.
  replace (Z.to_nat (retry + 1)) with O by lia. reflexivity.
Qed.

End RunnerMore.

(** ** The path finder: what a result means *)

Section WhichMore.

Context {W : Type}.
Variable os_path_isfile : string -> W -> bool.
Variable os_access_X_OK : string -> W -> bool.
Variable os_environ : string -> W -> option string.

Local Abbreviation which_search' := (which_search os_path_isfile os_access_X_OK).
Local Abbreviation which' := (which os_path_isfile os_access_X_OK os_environ).
Local Abbreviation executable' := (executable os_path_isfile os_access_X_OK).

Lemma which_search_some (program : string) (paths : list string) (w : W) (f : string) :
  which_search' program paths w = Some f ->
  exists path, path ∈ paths /\ f = candidate program path /\ executable' w f = true.
Proof.
  induction paths as [|p rest IH]; [discriminate|]. cbn [which_search].
  fold (candidate program p).
  destruct (os_path_isfile (candidate program p) w
            && os_access_X_OK (candidate program p) w) eqn:E.
  - intros H. injection H as <-. exists p. split; [left | auto].
  - intros H. apply IH in H as (path & Hin & Hf & Hx). exists path.
    split; [right; exact Hin | auto].
Qed.

Lemma which_search_app (program : string) (paths more : list string) (w : W)
    (f : string) :
  which_search' program paths w = Some f ->
  which_search' program (paths ++ more) w = Some f.
Proof.
  induction paths as [|p rest IH]; [discriminate|]. cbn [which_search app].
  destruct (os_path_isfile _ w && os_access_X_OK _ w); [auto | exact IH].
Qed.

Lemma which_some_executable (program : string) (extra_paths : option (list string))
    (raise_errors : bool) (w : W) (f : string) :
  which' program extra_paths raise_errors w = inr (Some f) -> executable' w f = true.
Proof.
  unfold which. destruct (Py.os_path_split program) as [dirname basename].
  destruct (negb (String.eqb dirname EmptyString)).
  - destruct (os_path_isfile program w && os_access_X_OK program w) eqn:E.
    + intros H. injection H as <-. exact E.
    + destruct raise_errors; discriminate.
  - destruct (os_environ "PATH" w) as [path_var|]; [|discriminate].
    destruct (which_search' program _ w) as [fpath|] eqn:E.
    + intros H. injection H as <-.
      apply which_search_some in E as (path & _ & _ & Hx). exact Hx.
    + destruct raise_errors; discriminate.
Qed.

(** X2.  What [which] found is an existing file that may be executed: the
    program itself when its name has a directory part, and otherwise the
    program under an entry of [PATH] or of the extra paths. *)
Theorem which_found_is_executable (program : string)
    (extra_paths : option (list string)) (raise_errors : bool) (w : W) (f : string) :
  which os_path_isfile os_access_X_OK os_environ program extra_paths raise_errors w
    = inr (Some f) ->
  executable os_path_isfile os_access_X_OK w f = true /\
  ((Py.contains Py.slash program = true /\ f = program) \/
   (Py.contains Py.slash program = false /\
    exists path_var path,
      os_environ "PATH" w = Some path_var /\
      (path ∈ Py.split ":" path_var \/ path ∈ default [] extra_paths) /\
      f = candidate program path)).
Proof.
  unfold which. pose proof (os_path_split_dirname program) as Hd.
  destruct (Py.os_path_split program) as [dirname basename]. cbn [fst] in Hd.
  rewrite Hd. destruct (Py.contains Py.slash program).
  - destruct (os_path_isfile program w && os_access_X_OK program w) eqn:E.
    + intros H. injection H as <-. split; [exact E|]. left. auto.
    + destruct raise_errors; discriminate.
  - destruct (os_environ "PATH" w) as [path_var|]; [|discriminate].
    match goal with
    | |- match which_search' program ?ps w with _ => _ end = _ -> _ => set (paths := ps)
    end.
    assert (Hpaths : forall p, p ∈ paths ->
              p ∈ Py.split ":" path_var \/ p ∈ default [] extra_paths).
    { intros p Hp. unfold paths in Hp. destruct extra_paths as [[|e es]|]; auto.
      apply elem_of_app in Hp. exact Hp. }
    destruct (which_search' program paths w) as [fpath|] eqn:E.
    + intros H. injection H as <-.
      apply which_search_some in E as (path & Hin & Hf & Hx).
      split; [exact Hx|]. right. split; [reflexivity|]. exists path_var, path. auto.
    + destruct raise_errors; discriminate.
Qed.

(** X3.  [PATH] comes first: what [which] finds without extra paths it finds
    with any extra paths as well. *)
Theorem which_path_before_extra (program : string) (extra_paths : option (list string))
    (raise_errors : bool) (w : W) (f : string) :
  which os_path_isfile os_access_X_OK os_environ program None raise_errors w
    = inr (Some f) ->
  which os_path_isfile os_access_X_OK os_environ program extra_paths raise_errors w
    = inr (Some f).
Proof.
  unfold which. destruct (Py.os_path_split program) as [dirname basename].
  destruct (negb (String.eqb dirname EmptyString)); [auto|].
  destruct (os_environ "PATH" w) as [path_var|]; [|auto].
  destruct (which_search' program (Py.split ":" path_var) w) as [fpath|] eqn:E.
  - intros H. injection H as <-. destruct extra_paths as [[|e es]|]; rewrite ?E; auto.
    rewrite (which_search_app _ _ _ _ _ E). reflexivity.
  - destruct raise_errors; discriminate.
Qed.

(** Without [raise_errors] the only error of [which] is the missing
    [PATH]. *)
Lemma which_quiet_error (program : string) (extra_paths : option (list string))
    (w : W) (e : exn) :
  which' program extra_paths false w = inl e -> e = KeyError "PATH".
Proof.
  unfold which. destruct (Py.os_path_split program) as [dirname basename].
  destruct (negb (String.eqb dirname EmptyString)).
  - destruct (os_path_isfile program w && os_access_X_OK program w); discriminate.
  - destruct (os_environ "PATH" w) as [path_var|]; [|intros H; injection H as <-; auto].
    destruct (which_search' program _ w); discriminate.
Qed.

Variable popen : string -> list string -> W -> completed * W.
Variable sleep : N -> W -> W.

(** X6.  [get_running] starts one program at most: the [ps] that [which]
    found, an executable file, with the argument [ax].  Otherwise nothing
    is started and the error is [TypeError], or [KeyError] without a
    [PATH]. *)
Theorem get_running_starts_ps_only (st st' : St) (res : exn + gset string) :
  get_running popen sleep os_path_isfile os_access_X_OK os_environ st = (res, st') ->
  (exists ps,
     which os_path_isfile os_access_X_OK os_environ "ps" None false (world st)
       = inr (Some ps) /\
     executable os_path_isfile os_access_X_OK (world st) ps = true /\
     trace st' = trace st ++ [EvSpawn ps [ps; "ax"]]) \/
  (st' = st /\ (res = inl TypeError \/ res = inl (KeyError "PATH"))).
Proof.
  unfold get_running, bind, gets, lift_result, raise.
  destruct (which' "ps" None false (world st)) as [e|[ps|]] eqn:Hw.
  - intros H. injection H as <- <-. right. split; [reflexivity|]. right.
    rewrite (which_quiet_error _ _ _ _ Hw). reflexivity.
  - intros H. left. exists ps. split; [reflexivity|].
    split; [exact (which_some_executable _ _ _ _ _ Hw)|].
    destruct (run_default popen sleep ps (Some ["ax"]) st) as [[e|out] st1] eqn:Hrun;
      pose proof (run_default_trace _ _ _ _ _ _ _ Hrun) as Htr; cbn [default] in Htr.
    + injection H as _ <-. exact Htr.
    + destruct (get_running_parse out); injection H as _ <-; exact Htr.
  - intros H. injection H as <- <-. right. auto.
Qed.

End WhichMore.

(** ** The process inventory: when the parse succeeds *)

Lemma rpartition_tail (p : string) :
  Py.contains Py.slash (Py.rpartition_slash p).2 = false /\
  ((Py.rpartition_slash p).1 = EmptyString -> (Py.rpartition_slash p).2 = p).
Proof.
  induction p as [|a r IH]; [split; reflexivity|].
  cbn [Py.rpartition_slash]. destruct (Py.rpartition_slash r) as [h t].
  cbn [fst snd] in IH. destruct IH as [Ht Hr].
  destruct h as [|b h'].
  - specialize (Hr eq_refl). subst t.
    destruct (Ascii.eqb a Py.slash) eqn:E; cbn [fst snd].
    + split; [exact Ht | discriminate].
    + split; [|reflexivity]. cbn [Py.contains]. rewrite E, Ht. reflexivity.
  - cbn [fst snd]. split; [exact Ht | discriminate].
Qed.

(** A base name holds no slash. *)
Lemma basename_no_slash (p : string) :
  Py.contains Py.slash (Py.os_path_basename p) = false.
Proof. exact (proj1 (rpartition_tail p)). Qed.

(** The loop of [get_running] on lines that all have a command. *)
Lemma get_running_lines_success (column : nat) (lines : list string) :
  (forall line, line ∈ lines -> whitespace_only (Py.drop column line) = false) ->
  forall procs, exists procs',
    get_running_lines column lines procs = inr procs' /\
    forall name, name ∈ procs' <->
      name ∈ procs \/
      exists line c tail cmd rest,
        line ∈ lines /\ Py.drop column line = String c tail /\ c <> "["%char /\
        Py.split_ws (String c tail) = cmd :: rest /\
        name = Py.os_path_basename cmd.
Proof.
  induction lines as [|line rest IH]; intros Hall procs.
  - exists procs. split; [reflexivity|]. intros name. split; [auto|].
    intros [H|(l & c & tail & cmd & more & Hl & _)]; [exact H | inversion Hl].
  - assert (Hrest : forall l, l ∈ rest -> whitespace_only (Py.drop column l) = false).
    { intros l Hl. apply Hall. right. exact Hl. }
    assert (Hline : whitespace_only (Py.drop column line) = false).
    { apply Hall. left. }
    cbn [get_running_lines].
    destruct (Py.drop column line) as [|c tail] eqn:Hdrop; [discriminate|].
    destruct (Ascii.eqb c "[") eqn:Hc.
    + destruct (IH Hrest procs) as (procs' & Hrun & Hiff). exists procs'.
      split; [exact Hrun|]. intros name. rewrite Hiff. split.
      * intros [H|(l & c' & tail' & cmd & more & Hl & Hd & Hne & Hs & Hn)];
          [left; exact H|].
        right. exists l, c', tail', cmd, more. split; [right; exact Hl | auto].
      * intros [H|(l & c' & tail' & cmd & more & Hl & Hd & Hne & Hs & Hn)];
          [left; exact H|].
        apply elem_of_cons in Hl as [->|Hl].
        -- rewrite Hdrop in Hd. injection Hd as <- <-.
           apply Ascii.eqb_eq in Hc. contradiction.
        -- right. exists l, c', tail', cmd, more. auto.
    + destruct (split_ws_nonblank _ Hline) as (cmd & more & Hs). rewrite Hs.
      destruct (IH Hrest ({[ Py.os_path_basename cmd ]} ∪ procs))
        as (procs' & Hrun & Hiff).
      exists procs'. split; [exact Hrun|]. intros name. rewrite Hiff.
      rewrite elem_of_union, elem_of_singleton. split.
      * intros [[->|H]|(l & c' & tail' & cmd' & more' & Hl & Hd & Hne & Hs' & Hn)].
        -- right. exists line, c, tail, cmd, more. split; [left|].
           apply Ascii.eqb_neq in Hc. auto.
        -- left. exact H.
        -- right. exists l, c', tail', cmd', more'. split; [right; exact Hl | auto].
      * intros [H|(l & c' & tail' & cmd' & more' & Hl & Hd & Hne & Hs' & Hn)];
          [left; right; exact H|].
        apply elem_of_cons in Hl as [->|Hl].
        -- rewrite Hdrop in Hd. injection Hd as <- <-. rewrite Hs in Hs'.
           injection Hs' as <- <-. left. left. exact Hn.
        -- right. exists l, c', tail', cmd', more'. auto.
Qed.

(** X7.  When the header has a [COMMAND] column and every line below it has
    something other than whitespace from that column on, the parse of
    the listing succeeds.  The names it gives are the base names of the
    first words of the command fields that do not begin with a bracket,
    and no name holds a slash. *)
Theorem get_running_parse_success (out header : string) (body : list string)
    (column : nat) :
  Py.splitlines out = header :: body ->
  Py.find "COMMAND" header = Some column ->
  (forall line, line ∈ body -> whitespace_only (Py.drop column line) = false) ->
  exists procs,
    get_running_parse out = inr procs /\
    (forall name, name ∈ procs <->
       exists line c tail cmd rest,
         line ∈ body /\ Py.drop column line = String c tail /\ c <> "["%char /\
         Py.split_ws (String c tail) = cmd :: rest /\
         name = Py.os_path_basename cmd) /\
    (forall name, name ∈ procs -> Py.contains Py.slash name = false).
Proof.
  intros Hlines Hcol Hall. unfold get_running_parse. rewrite Hlines, Hcol.
  destruct (get_running_lines_success column body Hall ∅) as (procs & Hrun & Hiff).
  exists procs. split; [exact Hrun|].
  assert (Hnames : forall name, name ∈ procs <->
            exists line c tail cmd rest,
              line ∈ body /\ Py.drop column line = String c tail /\ c <> "["%char /\
              Py.split_ws (String c tail) = cmd :: rest /\
              name = Py.os_path_basename cmd).
  { intros name. rewrite Hiff. split; [|auto].
    intros [H|H]; [|exact H]. exfalso. exact (not_elem_of_empty name H). }
  split; [exact Hnames|].
  intros name Hn. apply Hnames in Hn as (_ & _ & _ & cmd & _ & _ & _ & _ & _ & ->).
  apply basename_no_slash.
Qed.

(** ** The existence checks *)

Lemma stat_isdir_exists (fs : FS) (path : string) :
  Os.path_isdir fs path = true -> Os.path_exists fs path = true.
Proof. unfold Os.path_isdir, Os.path_exists. destruct (Os.stat fs path); auto. Qed.

(** X4.  Of the three checks at most one passes for a path, and a check that
    does not pass raises [AssertionError]; none changes anything. *)
Theorem existence_checks_exclusive (fs : FS) (path : string)
    (d1 d2 d3 : option string) :
  let passes (c : M FS bool) := c fs = (inr true, fs) in
  let fails (c : M FS bool) := exists msg, c fs = (inl (AssertionError msg), fs) in
  (passes (file_should_exist path d1) \/ fails (file_should_exist path d1)) /\
  (passes (directory_should_exist path d2) \/ fails (directory_should_exist path d2)) /\
  (passes (directory_should_not_exist path d3)
   \/ fails (directory_should_not_exist path d3)) /\
  (passes (file_should_exist path d1) ->
   fails (directory_should_exist path d2) /\
   fails (directory_should_not_exist path d3)) /\
  (passes (directory_should_exist path d2) ->
   fails (file_should_exist path d1) /\
   fails (directory_should_not_exist path d3)) /\
  (passes (directory_should_not_exist path d3) ->
   fails (file_should_exist path d1) /\ fails (directory_should_exist path d2)).
Proof.
  cbv zeta.
  unfold file_should_exist, directory_should_exist, directory_should_not_exist,
    bind, gets, raise, ret, Os.path_isfile, Os.path_isdir, Os.path_exists.
  destruct (Os.stat fs path) as [[| | |]|]; cbn [negb];
    repeat split; eauto; intros H; try discriminate H; split; eauto.
Qed.

(** X5.  A link that leads nowhere counts as absent: the check passes
    although the name is taken, and [os.symlink] to that name fails. *)
Theorem directory_should_not_exist_dangling_link (fs : FS) (path t : string)
    (description : option string) (src : string) :
  fs !! path = Some (Link t) ->
  fs !! Os.link_dest path t = None ->
  directory_should_not_exist path description fs = (inr true, fs) /\
  Os.symlink src path fs = (inl (OSError path), fs).
Proof.
  intros Hl Hd. split.
  - unfold directory_should_not_exist, bind, gets, ret, Os.path_exists, Os.stat.
    rewrite follow_unfold, Hl. unfold Os.SYMLOOP_MAX.
    rewrite follow_unfold, Hd. reflexivity.
  - unfold Os.symlink. rewrite Hl. reflexivity.
Qed.

(** ** The theorems on the sample worlds *)

(** X14 on a sample world. *)
Lemma solaris_is_loaded_result_witness :
  exists out,
    run_default Sample.loaded_host Sample.no_sleep "/usr/sbin/modinfo" (Some ["-w"])
      Sample.start
    = (inr out, mkSt 1%nat [EvSpawn "/usr/sbin/modinfo" ["/usr/sbin/modinfo"; "-w"]]) /\
    (is_number "212" = true /\ "afs" <> EmptyString /\
     all_chars nonspace "afs" = true /\
     exists line pre fields post,
       line ∈ List.tl (Py.splitlines out) /\ all_chars Py.isspace pre = true /\
       line = pre +:+ "212" +:+ fields +:+ "afs" +:+ post).
Proof.
  apply (solaris_is_loaded_result Sample.loaded_host Sample.no_sleep "afs" Sample.start
           (mkSt 1%nat [EvSpawn "/usr/sbin/modinfo" ["/usr/sbin/modinfo"; "-w"]])
           (PyStr "212")).
  vm_compute. reflexivity.
Defined.

(** X10 on a sample world. *)
Lemma linux_network_interfaces_addresses_witness :
  exists out,
    run_default SampleHost.popen SampleHost.no_sleep "/sbin/ip"
      (Some ["-oneline"; "-family"; "inet"; "addr"; "show"]) SampleHost.linux
    = (inr out,
       mkSt "Linux"
         [EvSpawn "/sbin/ip"
            ["/sbin/ip"; "-oneline"; "-family"; "inet"; "addr"; "show"]]) /\
    forall a, a ∈ ["192.168.1.20"] ->
      dotted_quad a /\ String.prefix "127." a = false /\
      exists line pre post,
        line ∈ Py.splitlines out /\ line = pre +:+ "inet " +:+ a +:+ post.
Proof.
  apply (linux_network_interfaces_addresses SampleHost.popen SampleHost.no_sleep
           SampleHost.linux).
  vm_compute. reflexivity.
Defined.

(** X13 on a sample world. *)
Lemma solaris_network_interfaces_addresses_witness :
  exists out,
    run_default SampleHost.popen SampleHost.no_sleep "ipadm"
      (Some ["show-addr"; "-p"; "-o"; "STATE,ADDR"]) SampleHost.solaris
    = (inr out,
       mkSt "SunOS"
         [EvSpawn "ipadm" ["ipadm"; "show-addr"; "-p"; "-o"; "STATE,ADDR"]]) /\
    forall a, a ∈ ["10.0.2.15"] ->
      dotted_quad a /\ String.prefix "127." a = false /\
      exists line post,
        line ∈ Py.splitlines out /\ line = "ok:" +:+ a +:+ post.
Proof.
  apply (solaris_network_interfaces_addresses SampleHost.popen SampleHost.no_sleep
           SampleHost.solaris).
  vm_compute. reflexivity.
Defined.

(** X9 on a sample world. *)
Lemma afs_mountpoint_found_witness :
  exists output c tail pre post,
    run_default SampleHost.popen SampleHost.no_sleep "mount" None SampleHost.linux
    = (inr output, mkSt "Linux" [EvSpawn "mount" ["mount"]]) /\
    "/afs" = String "/" (String c tail) /\
    not_LF c = true /\ tail <> EmptyString /\ all_chars nonspace tail = true /\
    ((SampleHost.os_uname (world SampleHost.linux) = "Linux" /\
      output = pre +:+ "AFS on " +:+ "/afs" +:+ post /\
      (pre = EmptyString \/ exists p, pre = p +:+ String Py.LF EmptyString)) \/
     (SampleHost.os_uname (world SampleHost.linux) = "SunOS" /\
      output = pre +:+ "/afs" +:+ " on AFS" +:+ post)).
Proof.
  apply (afs_mountpoint_found SampleHost.popen SampleHost.no_sleep SampleHost.os_uname
           SampleHost.linux).
  vm_compute. reflexivity.
Defined.

(** X1 on a sample world. *)
Lemma run_negative_retry_unbound_witness :
  run Sample.quiet_ok Sample.no_sleep "/bin/true" None false (-1) 1%N None Sample.start
  = (inl (UnboundLocalError "rc"), Sample.start).
Proof.
  apply (run_negative_retry_unbound Sample.quiet_ok Sample.no_sleep). lia.
Defined.

(** X2 on a sample world. *)
Lemma which_found_is_executable_witness :
  executable Sample.ls_isfile Sample.ls_access tt "/bin/ls" = true /\
  ((Py.contains Py.slash "ls" = true /\ "/bin/ls" = "ls") \/
   (Py.contains Py.slash "ls" = false /\
    exists path_var path,
      Sample.ls_environ "PATH" tt = Some path_var /\
      (path ∈ Py.split ":" path_var \/ path ∈ default [] (@None (list string))) /\
      "/bin/ls" = candidate "ls" path)).
Proof.
  apply (which_found_is_executable Sample.ls_isfile Sample.ls_access Sample.ls_environ
           "ls" None false tt "/bin/ls").
  vm_compute. reflexivity.
Defined.

(** X3 on a sample world. *)
Lemma which_path_before_extra_witness :
  which Sample.ls_isfile Sample.ls_access Sample.ls_environ "ls" (Some ["/opt/bin"])
    false tt
  = inr (Some "/bin/ls").
Proof.
  apply (which_path_before_extra Sample.ls_isfile Sample.ls_access Sample.ls_environ).
  vm_compute. reflexivity.
Defined.

(** X6 on a sample world. *)
Lemma get_running_starts_ps_only_witness :
  (exists ps,
     which Sample.ps_isfile Sample.ps_isfile Sample.ps_environ "ps" None false
       (world Sample.start) = inr (Some ps) /\
     executable Sample.ps_isfile Sample.ps_isfile (world Sample.start) ps = true /\
     trace (mkSt 1%nat [EvSpawn "/bin/ps" ["/bin/ps"; "ax"]])
     = trace Sample.start ++ [EvSpawn ps [ps; "ax"]]) \/
  (mkSt 1%nat [EvSpawn "/bin/ps" ["/bin/ps"; "ax"]] = Sample.start /\
   (@inl exn (gset string) IndexError = inl TypeError \/
    @inl exn (gset string) IndexError = inl (KeyError "PATH"))).
Proof.
  apply (get_running_starts_ps_only Sample.ps_isfile Sample.ps_isfile Sample.ps_environ
           Sample.ps_popen Sample.no_sleep Sample.start).
  vm_compute. reflexivity.
Defined.

(** X7 on a sample world. *)
Lemma get_running_parse_success_witness :
  exists procs,
    get_running_parse Sample.ps_output = inr procs /\
    (forall name, name ∈ procs <->
       exists line c tail cmd rest,
         line ∈ ["    1 ?        Ss     0:01 /sbin/init splash";
                 "    2 ?        S      0:00 [kthreadd]";
                 "  812 ?        Ss     0:00 /usr/sbin/sshd -D";
                 "  907 pts/0    S+     0:00 python test_system.py"] /\
         Py.drop 27 line = String c tail /\ c <> "["%char /\
         Py.split_ws (String c tail) = cmd :: rest /\
         name = Py.os_path_basename cmd) /\
    (forall name, name ∈ procs -> Py.contains Py.slash name = false).
Proof.
  apply (get_running_parse_success Sample.ps_output Sample.ps_header).
  - vm_compute. reflexivity.
  - vm_compute. reflexivity.
  - intros line Hl.
    repeat (apply elem_of_cons in Hl as [->|Hl]; [vm_compute; reflexivity|]).
    inversion Hl.
Defined.

(** X16 on a sample world. *)
Lemma so_symlinks_keeps_non_links_witness :
  same_non_links SampleHost.blocked SampleHost.blocked_after /\
  ((Os.path_isdir SampleHost.blocked "/lib" = false /\
    AssertionError "Failed to make symlink: dst /lib/foo.so.1 exists" = OSError "/lib" /\
    SampleHost.blocked_after = SampleHost.blocked) \/
   (Os.path_isdir SampleHost.blocked "/lib" = true /\
    exists msg,
      AssertionError "Failed to make symlink: dst /lib/foo.so.1 exists"
      = AssertionError msg)).
Proof.
  apply (so_symlinks_keeps_non_links "/lib" SampleHost.blocked SampleHost.blocked_after
           (inl (AssertionError "Failed to make symlink: dst /lib/foo.so.1 exists"))).
  by_evaluation.
Defined.

(** X5 on a sample world. *)
Lemma directory_should_not_exist_dangling_link_witness :
  directory_should_not_exist "/tmp/t/old" None SampleHost.dangling
    = (inr true, SampleHost.dangling) /\
  Os.symlink "/tmp/t/xyzzy" "/tmp/t/old" SampleHost.dangling
    = (inl (OSError "/tmp/t/old"), SampleHost.dangling).
Proof.
  apply (directory_should_not_exist_dangling_link SampleHost.dangling "/tmp/t/old"
           "/tmp/t/gone" None "/tmp/t/xyzzy"); by_evaluation.
Defined.



(** X12 on a sample world: the first [rmmod] is refused. *)
Lemma linux_unload_starts_only_afs_rmmod_witness :
  _linux_unload_module SampleHost.busy_popen SampleHost.no_sleep SampleHost.linux
  = (inl (ExCommandFailed
            (mkCommandFailed "rmmod" ["rmmod"; "libafs"] 1 ""
               "rmmod: ERROR: Module is in use")),
     mkSt "Linux" [EvSpawn "/sbin/lsmod" ["/sbin/lsmod"];
                   EvSpawn "rmmod" ["rmmod"; "libafs"]]).
Proof.
  exact (proj1 (proj2 (linux_unload_starts_only_afs_rmmod SampleHost.busy_popen
                         SampleHost.no_sleep SampleHost.linux)) eq_refl).
Defined.

(** X15 on a sample world. *)
Lemma symlink_outcomes_witness :
  (forall p, p <> "/tmp/t/plugh" ->
     <["/tmp/t/plugh" := Link "/tmp/t/xyzzy"]> SampleFS.scratch !! p
     = SampleFS.scratch !! p) /\
  ((exists msg, @inr exn unit tt = inl (AssertionError msg)) <->
   (Os.path_isfile SampleFS.scratch "/tmp/t/xyzzy" = false \/
    (Os.path_exists SampleFS.scratch "/tmp/t/plugh" = true /\
     Os.path_islink SampleFS.scratch "/tmp/t/plugh" = false))) /\
  (forall msg, @inr exn unit tt = inl (AssertionError msg) ->
     <["/tmp/t/plugh" := Link "/tmp/t/xyzzy"]> SampleFS.scratch = SampleFS.scratch) /\
  (@inr exn unit tt = inr tt ->
   <["/tmp/t/plugh" := Link "/tmp/t/xyzzy"]> SampleFS.scratch !! "/tmp/t/plugh"
   = Some (Link "/tmp/t/xyzzy") /\
   Os.path_isfile SampleFS.scratch "/tmp/t/xyzzy" = true /\
   (SampleFS.scratch !! "/tmp/t/plugh" = None \/
    exists t, SampleFS.scratch !! "/tmp/t/plugh" = Some (Link t))).
Proof.
  apply (symlink_outcomes SampleFS.scratch
           (<["/tmp/t/plugh" := Link "/tmp/t/xyzzy"]> SampleFS.scratch)
           "/tmp/t/xyzzy" "/tmp/t/plugh" (inr tt)).
  by_evaluation.
Defined.

(** X20 on a sample world: [./configure] ends with status 256. *)
Lemma rebuild_issues_plan_prefix_witness :
  let st := SampleBuild.start in
  let st' :=
    Build.mkBSt 3%nat "/home/dev/openafs"
      [("/home/dev/openafs", "git clean -f -d -x -q");
       ("/home/dev/openafs", "./regen.sh");
       ("/home/dev/openafs",
        "./configure --enable-debug --enable-debug-kernel --disable-optimize --disable-optimize-kernel --without-dot --enable-transarc-paths --enable-checking")] in
  let res : Build.build_exn + unit := inl (Build.SystemExit 256) in
  let d := Build.build_dir (Some "openafs") (Build.cwd st) in
  let plan :=
    Build.planned SampleBuild.isdir SampleBuild.isfile SampleBuild.os_uname None None
      true d (Build.bworld st) in
  let out := Build.issue_until_failure SampleBuild.os_system d plan (Build.bworld st) in
  (exists p, Some "openafs" = Some p /\
             SampleBuild.can_chdir (Build.cwd st) p (Build.bworld st) = false /\
             res = inl (Build.ChdirError p) /\ st' = st) \/
  ((forall p, Some "openafs" = Some p ->
              SampleBuild.can_chdir (Build.cwd st) p (Build.bworld st) = true) /\
   Build.issued st' = Build.issued st ++ map (pair d) out.1.1 /\
   Build.bworld st' = out.1.2 /\
   out.1.1 `prefix_of` plan /\
   match out.2 with
   | Some code =>
       res = inl (Build.SystemExit code) /\ code <> 0 /\ Build.cwd st' = d /\
       exists before cmd,
         out.1.1 = before ++ [cmd] /\
         (SampleBuild.os_system d cmd
            (Build.issue_until_failure SampleBuild.os_system d before
               (Build.bworld st)).1.2).1 = code
   | None =>
       out.1.1 = plan /\
       ((res = inr tt /\
         (String.prefix "/" (Build.cwd st) = true -> Build.cwd st' = Build.cwd st)) \/
        (res = inl (Build.ChdirError (Build.cwd st)) /\
         Some "openafs" <> @None string /\ Build.cwd st' = d))
   end).
Proof.
  cbv zeta.
  apply (rebuild_issues_plan_prefix SampleBuild.os_system SampleBuild.isdir
           SampleBuild.isfile SampleBuild.can_chdir SampleBuild.os_uname
           (Some "openafs") None None true SampleBuild.start).
  vm_compute. reflexivity.
Defined.

(** The run of the sample build: the clean command, [./regen.sh] and
    [./configure] were given, the status 256 of [./configure] ended the
    run, and [make] was not given. *)
Example rebuild_stops_at_failing_configure :
  Build.issue_until_failure SampleBuild.os_system "/home/dev/openafs"
    (Build.planned SampleBuild.isdir SampleBuild.isfile SampleBuild.os_uname None None
       true "/home/dev/openafs" O) O
  = (["git clean -f -d -x -q"; "./regen.sh";
      "./configure --enable-debug --enable-debug-kernel --disable-optimize --disable-optimize-kernel --without-dot --enable-transarc-paths --enable-checking"],
     3%nat, Some 256) /\
  fst (Build.rebuild SampleBuild.os_system SampleBuild.isdir SampleBuild.isfile
         SampleBuild.can_chdir SampleBuild.os_uname (Some "openafs") None None true
         SampleBuild.start)
  = inl (Build.SystemExit 256).
Proof. split; vm_compute; reflexivity. Qed.
